(** * Nucleation detection: simulators, detector bank, ensemble and harness

    A shallow embedding of the nucleation subsystem
    ([simulators/phase_transitions.py], [detectors/nucleation_detectors.py],
    [evaluation/harness.py], and the evaluation of a detector on labelled
    series of [data/loaders.py]), the properties the specification states
    about it, and further properties read off the code.

    Numbers.  A Python [float] / NumPy [float64] is an IEEE-754 binary64
    value; it is modelled by [spec_float] with the binary64 operations of
    [SpecFloat] ([SFadd], [SFmul], ...), so that NaN propagation and the
    outcome of every comparison are the ones the interpreter computes.
    Python integers that are sizes (window lengths, counts, positions of a
    [range]) are [nat]; integers obtained from a float by [int(...)] and the
    indices derived from them are [Z].

    Arrays.  A one-dimensional NumPy array is a [list].

    Library code.  The NumPy reductions whose result depends on NumPy's
    internal summation order ([np.var], [np.mean], [np.convolve], ...), the
    transcendental functions and the random generator are not code of this
    repository: they are the operations of the class [Numpy], together with
    the few facts about them that the proofs use.  [RefNumpy] is an
    executable instance, used to run the embedding on concrete inputs.

    Errors.  Code that can raise returns a value of [res].  The division
    of two Python floats raises on a zero divisor ([py_fdiv]), where the
    division of NumPy scalars and arrays returns an infinity or a NaN
    ([fdiv]). *)

From Stdlib Require Import String.
From Stdlib Require Import ZArith List Bool Lia Arith PeanoNat.
From Stdlib Require Import Floats.SpecFloat.
From Stdlib Require Floats.PrimFloat Floats.FloatOps.
Import ListNotations.

(* ================================================================== *)
(** * Python values: exceptions, floats, integers *)
(* ================================================================== *)

(** Exceptions the modelled code can raise. *)
Inductive exn : Type :=
| IndexError
| ValueError
| OverflowError
| ZeroDivisionError
| KeyError.

(** The outcome of a Python call: a value, or a raised exception. *)
Inductive res (A : Type) : Type :=
| Ok (a : A)
| Raise (e : exn).

Arguments Ok {A} a.
Arguments Raise {A} e.

Definition res_bind {A B} (m : res A) (k : A -> res B) : res B :=
  match m with
  | Ok a => k a
  | Raise e => Raise e
  end.

Declare Scope res_scope.
Delimit Scope res_scope with res.
Notation "x <- m ;; k" := (res_bind m (fun x => k))
  (at level 100, m at next level, right associativity) : res_scope.
Notation "' p <- m ;; k" := (res_bind m (fun p => k))
  (at level 100, p pattern, m at next level, right associativity) : res_scope.

Definition is_ok {A} (m : res A) : bool :=
  match m with Ok _ => true | Raise _ => false end.

(** binary64 *)
Abbreviation float := spec_float.

Definition nan : float := S754_nan.
Definition fzero : float := S754_zero false.

Definition isnan (x : float) : bool :=
  match x with S754_nan => true | _ => false end.

(** The binary64 operations: 53 bits of precision, exponents below 1024. *)
Definition fadd : float -> float -> float := SFadd 53 1024.
Definition fsub : float -> float -> float := SFsub 53 1024.
Definition fmul : float -> float -> float := SFmul 53 1024.
Definition fdiv : float -> float -> float := SFdiv 53 1024.
Definition fsqrt : float -> float := SFsqrt 53 1024.

Declare Scope f64_scope.
Delimit Scope f64_scope with f64.
Bind Scope f64_scope with spec_float.
Infix "+" := fadd : f64_scope.
Infix "-" := fsub : f64_scope.
Infix "*" := fmul : f64_scope.
Infix "/" := fdiv : f64_scope.
Notation "x <? y" := (SFltb x y) : f64_scope.
Notation "x >? y" := (SFltb y x) : f64_scope.
Notation "x <=? y" := (SFleb x y) : f64_scope.
Notation "x >=? y" := (SFleb y x) : f64_scope.
Notation "- x" := (SFopp x) : f64_scope.

(** The float literals of the source; each is the binary64 value the
    decimal literal denotes. *)
#[local] Set Warnings "-inexact-float".
Module Lit.
Import PrimFloat.
Definition lit (x : PrimFloat.float) : spec_float := FloatOps.Prim2SF x.
Definition f_1e_10 : spec_float := Eval vm_compute in lit 1e-10.
Definition f_0_7   : spec_float := Eval vm_compute in lit 0.7.
Definition f_0_15  : spec_float := Eval vm_compute in lit 0.15.
Definition f_0_85  : spec_float := Eval vm_compute in lit 0.85.
Definition f_1     : spec_float := Eval vm_compute in lit 1.
Definition f_2     : spec_float := Eval vm_compute in lit 2.
Definition f_3     : spec_float := Eval vm_compute in lit 3.
End Lit.
Export Lit.

(** [float(k)] for a Python integer: the nearest binary64. *)
Definition of_Z (z : Z) : float := binary_normalize 53 1024 z 0 false.
Definition of_nat (n : nat) : float := of_Z (Z.of_nat n).

(** [int(x)]: truncation toward zero; raises on NaN and on infinities. *)
Definition py_int (x : float) : res Z :=
  match x with
  | S754_zero _ => Ok 0%Z
  | S754_finite s m e =>
      let a := if (0 <=? e)%Z then (Zpos m * 2 ^ e)%Z
               else (Zpos m / 2 ^ (- e))%Z in
      Ok (if s then (- a)%Z else a)
  | S754_infinity _ => Raise OverflowError
  | S754_nan => Raise ValueError
  end.

(** [a / b] on two Python floats: a zero divisor raises, where NumPy's
    division returns an infinity or a NaN. *)
Definition is_zero (x : float) : bool :=
  match x with S754_zero _ => true | _ => false end.

Definition py_fdiv (a b : float) : res float :=
  if is_zero b then Raise ZeroDivisionError else Ok (a / b)%f64.

(** The builtin [min(a, b)] on floats: [b] when [b < a], else [a]. *)
Definition py_min (a b : float) : float := if (b <? a)%f64 then b else a.

(** The builtin [max(a, b)] on floats: [b] when [b > a], else [a]. *)
Definition py_max (a b : float) : float := if (b >? a)%f64 then b else a.

(** [np.maximum(a, b)]: [a] when [a >= b] or [a] is NaN, else [b]. *)
Definition np_maximum (a b : float) : float :=
  if (a >=? b)%f64 || isnan a then a else b.

(** [np.minimum(a, b)]: [a] when [a <= b] or [a] is NaN, else [b]. *)
Definition np_minimum (a b : float) : float :=
  if (a <=? b)%f64 || isnan a then a else b.

(* ================================================================== *)
(** * Arrays *)
(* ================================================================== *)

(** [a[lo:hi]] for non-negative bounds: positions [lo], ..., [hi-1] that
    exist. *)
Definition slice {A} (l : list A) (lo hi : nat) : list A :=
  firstn (hi - lo) (skipn lo l).

(** [range(lo, hi)] *)
Definition range (lo hi : nat) : list nat := seq lo (hi - lo).

(** [np.full(n, v)] *)
Definition np_full {A} (n : nat) (v : A) : list A := repeat v n.

(** The number of entries that are not NaN: [np.sum(~np.isnan(a))]. *)
Definition count_valid (l : list float) : nat :=
  length (filter (fun x => negb (isnan x)) l).

(** [a[~np.isnan(a)]] *)
Definition drop_nan (l : list float) : list float :=
  filter (fun x => negb (isnan x)) l.

Definition count_true (l : list bool) : nat :=
  length (filter (fun b => b) l).

(** [np.mean] of a boolean array: the number of [True] entries, as a
    float, divided by the number of entries (NaN on an empty array).  A
    boolean array holds no NaN, so [np.nanmean] is the same function on
    it. *)
Definition mean_bool (l : list bool) : float :=
  (of_nat (count_true l) / of_nat (length l))%f64.

(** A [for] loop whose body either [continue]s ([None]) or [return]s a
    value: the first value returned. *)
Fixpoint first_return {A B} (body : A -> option B) (l : list A) : option B :=
  match l with
  | [] => None
  | a :: l' =>
      match body a with
      | Some b => Some b
      | None => first_return body l'
      end
  end.

(** [for ... : if cond: return v] over a list, with a default. *)
Definition py_any (l : list bool) : bool := existsb (fun b => b) l.

(** [a[i]] for a Python integer [i]: negative indices count from the end;
    [IndexError] outside [-len, len). *)
Definition py_get {A} (l : list A) (i : Z) : res A :=
  let n := Z.of_nat (length l) in
  let j := if (i <? 0)%Z then (i + n)%Z else i in
  if ((0 <=? j) && (j <? n))%Z then
    match nth_error l (Z.to_nat j) with
    | Some a => Ok a
    | None => Raise IndexError
    end
  else Raise IndexError.

(** The position a slice bound denotes in a sequence of length [len]. *)
Definition slice_bound (len : nat) (i : Z) : nat :=
  if (i <? 0)%Z then Z.to_nat (Z.max 0 (i + Z.of_nat len))
  else Z.to_nat (Z.min i (Z.of_nat len)).

(** [a[lo:hi]] for Python integers. *)
Definition py_slice {A} (l : list A) (lo hi : Z) : list A :=
  slice l (slice_bound (length l) lo) (slice_bound (length l) hi).

(** [np.argmax]: the first position of the maximum, a NaN being maximal;
    [ValueError] on an empty array.  The scan keeps the running maximum
    [mp] and its position, replaces them when [not (x <= mp)], and stops
    at the first NaN. *)
Fixpoint argmax_scan (mp : float) (best i : nat) (l : list float) : nat :=
  match l with
  | [] => best
  | x :: l' =>
      if negb (x <=? mp)%f64 then
        if isnan x then i else argmax_scan x i (S i) l'
      else argmax_scan mp best (S i) l'
  end.

Definition np_argmax (l : list float) : res nat :=
  match l with
  | [] => Raise ValueError
  | x :: l' => Ok (if isnan x then 0 else argmax_scan x 0 1 l')
  end.

(** [np.argmin], with [not (x >= mp)]. *)
Fixpoint argmin_scan (mp : float) (best i : nat) (l : list float) : nat :=
  match l with
  | [] => best
  | x :: l' =>
      if negb (x >=? mp)%f64 then
        if isnan x then i else argmin_scan x i (S i) l'
      else argmin_scan mp best (S i) l'
  end.

Definition np_argmin (l : list float) : res nat :=
  match l with
  | [] => Raise ValueError
  | x :: l' => Ok (if isnan x then 0 else argmin_scan x 0 1 l')
  end.

(** [np.gradient(f)] of a one-dimensional array with unit spacing: central
    differences inside, one-sided differences at the two ends;
    [ValueError] when the array has fewer than two entries. *)
Definition np_gradient (f : list float) : res (list float) :=
  let n := length f in
  if n <? 2 then Raise ValueError
  else
    Ok (map (fun i =>
               if i =? 0 then
                 ((nth 1 f nan - nth 0 f nan) / f_1)%f64
               else if i =? n - 1 then
                 ((nth (n - 1) f nan - nth (n - 2) f nan) / f_1)%f64
               else
                 ((nth (i + 1) f nan - nth (i - 1) f nan) / (f_2 * f_1))%f64)
            (range 0 n)).

(** [np.diff(a)]: [a[i+1] - a[i]]. *)
Fixpoint np_diff (a : list float) : list float :=
  match a with
  | x :: ((y :: _) as a') => (y - x)%f64 :: np_diff a'
  | _ => []
  end.

(** [np.max] of a non-empty array; a NaN entry makes the result NaN. *)
Definition np_max (l : list float) : res float :=
  match l with
  | [] => Raise ValueError
  | x :: l' => Ok (fold_left np_maximum l' x)
  end.

(** [np.cumsum] *)
Fixpoint cumsum_from (acc : float) (l : list float) : list float :=
  match l with
  | [] => []
  | x :: l' => let acc' := (acc + x)%f64 in acc' :: cumsum_from acc' l'
  end.

Definition np_cumsum (l : list float) : list float :=
  match l with
  | [] => []
  | x :: l' => x :: cumsum_from x l'
  end.

(** The builtin [sum] of a list of floats: the additions are made from
    left to right, starting from the integer [0]. *)
Definition py_sum (l : list float) : float := fold_left fadd l fzero.

(* ================================================================== *)
(** * The NumPy operations taken as given *)
(* ================================================================== *)

Class Numpy : Type := {
  (** reductions over an array *)
  np_mean : list float -> float;
  np_var : list float -> float;
  np_std : list float -> float;
  np_nanmean : list float -> float;
  np_nanstd : list float -> float;
  np_nanmedian : list float -> float;
  (** [np.convolve(a, v, mode='same')]; [ValueError] on an empty argument *)
  np_convolve_same : list float -> list float -> res (list float);
  (** elementary functions *)
  np_exp : float -> float;
  np_power : float -> Z -> float;
  np_hypot : float -> float -> float;
  (** the global generator of [np.random]: its state, seeding, and a
      draw of [randn] *)
  rng : Type;
  np_random_seed : Z -> res rng;
  np_random_randn : rng -> float * rng;
  np_random_randint : Z -> Z -> rng -> res (Z * rng);
  np_random_uniform : float -> float -> rng -> float * rng;

  (** [np.nanmedian] of an array without a valid entry is NaN. *)
  np_nanmedian_all_nan :
    forall l, Forall (fun x => isnan x = true) l -> np_nanmedian l = nan;
  (** [np.convolve] raises exactly on an empty argument, returns
      [max(len a, len v)] entries in mode ['same'], and every entry is
      NaN when every entry of [a] is. *)
  np_convolve_same_empty :
    forall a v, a = [] \/ v = [] -> np_convolve_same a v = Raise ValueError;
  np_convolve_same_length :
    forall a v, a <> [] -> v <> [] ->
      exists r, np_convolve_same a v = Ok r /\
                length r = Nat.max (length a) (length v);
  np_convolve_same_all_nan :
    forall a v r, np_convolve_same a v = Ok r ->
      Forall (fun x => isnan x = true) a ->
      Forall (fun x => isnan x = true) r
}.

(* ================================================================== *)
(** * detectors/nucleation_detectors.py *)
(* ================================================================== *)

Inductive DetectorType : Type :=
| VARIANCE_RATIO
| VARIANCE_DERIVATIVE
| VARIANCE_INFLECTION
| ENSEMBLE
| ROLLING_ZSCORE
| CUSUM
| CHANGE_POINT.

Definition DetectorType_eqb (a b : DetectorType) : bool :=
  match a, b with
  | VARIANCE_RATIO, VARIANCE_RATIO
  | VARIANCE_DERIVATIVE, VARIANCE_DERIVATIVE
  | VARIANCE_INFLECTION, VARIANCE_INFLECTION
  | ENSEMBLE, ENSEMBLE
  | ROLLING_ZSCORE, ROLLING_ZSCORE
  | CUSUM, CUSUM
  | CHANGE_POINT, CHANGE_POINT => true
  | _, _ => false
  end.

(** The values of the [metadata] dictionary. *)
Inductive MetaValue : Type :=
| MInt (z : Z)
| MFloat (x : float)
| MStr (s : string)
| MResults (rows : list (DetectorType * bool * option Z * float)).

Record DetectionResult : Type := {
  detected : bool;
  detection_index : option Z;
  confidence : float;
  detector_type : DetectorType;
  signal : list float;
  threshold : float;
  metadata : list (string * MetaValue)
}.

(** The [direction] argument: ["below"], or anything else. *)
Inductive Direction : Type := Below | Above.

(** The [mode] argument of [find_peak]: ["max"], or anything else. *)
Inductive PeakMode : Type := ModeMax | ModeMin.

Section BaseDetector.
Context {NP : Numpy}.

(** [BaseDetector.compute_rolling_variance]: entry [i] is the variance of
    the [w] samples before [i], for [w <= i < n], and NaN before. *)
Definition compute_rolling_variance (sig : list float) (w : nat)
  : list float :=
  map (fun i => if i <? w then nan else np_var (slice sig (i - w) i))
      (range 0 (length sig)).

(** [BaseDetector.compute_rolling_mean] *)
Definition compute_rolling_mean (sig : list float) (w : nat)
  : list float :=
  map (fun i => if i <? w then nan else np_mean (slice sig (i - w) i))
      (range 0 (length sig)).

(** The directional test of one sample. *)
Definition crosses (direction : Direction) (thr x : float) : bool :=
  match direction with
  | Below => (x <? thr)%f64
  | Above => (x >? thr)%f64
  end.

(** The body of the loop of [find_sustained_crossing] at position [i]:
    [Some i] when it returns, [None] when it goes on. *)
Definition sustained_at (sig : list float) (thr : float)
    (direction : Direction) (sustain_count i : nat) : option nat :=
  let valid := map (fun x => negb (isnan x)) sig in
  if negb (nth i valid false) then None
  else
    let check := map (crosses direction thr)
                     (slice sig i (i + sustain_count)) in
    if count_valid (slice sig i (i + sustain_count)) <? sustain_count / 2
    then None
    else if (mean_bool check >? f_0_7)%f64 then Some i
    else None.

(** [BaseDetector.find_sustained_crossing] *)
Definition find_sustained_crossing (sig : list float) (thr : float)
    (direction : Direction) (sustain_count start_idx : nat) : option nat :=
  let n := length sig in
  first_return (sustained_at sig thr direction sustain_count)
               (range (Nat.max start_idx sustain_count) (n - sustain_count)).

(** [BaseDetector.find_peak], with the default [start_frac = 0.15] and
    [end_frac = 0.85] that every caller uses. *)
Definition find_peak (sig : list float) (mode : PeakMode)
  : res (option Z) :=
  let n := length sig in
  (start <- py_int (of_nat n * f_0_15)%f64 ;;
   stop <- py_int (of_nat n * f_0_85)%f64 ;;
   let sub := py_slice sig start stop in
   let valid := map (fun x => negb (isnan x)) sub in
   if negb (py_any valid) then Ok None
   else
     let fill := np_nanmean sub in
     let subsignal := map (fun x => if isnan x then fill else x) sub in
     idx <- match mode with
            | ModeMax => np_argmax subsignal
            | ModeMin => np_argmin subsignal
            end ;;
     Ok (Some (start + Z.of_nat idx)%Z))%res.
End BaseDetector.

(** ** The six base detectors *)

Module Lit2.
Import PrimFloat.
Definition f_0_4 : spec_float := Eval vm_compute in lit 0.4.
Definition f_0_3 : spec_float := Eval vm_compute in lit 0.3.
Definition f_0_2 : spec_float := Eval vm_compute in lit 0.2.
Definition f_4   : spec_float := Eval vm_compute in lit 4.
Definition f_0_8 : spec_float := Eval vm_compute in lit 0.8.
Definition f_1_5 : spec_float := Eval vm_compute in lit 1.5.
Definition f_1_2 : spec_float := Eval vm_compute in lit 1.2.
Definition f_1_3 : spec_float := Eval vm_compute in lit 1.3.
End Lit2.
Export Lit2.

Record VarianceRatioDetector : Type := {
  vr_window : nat;
  vr_baseline_window : nat;
  vr_threshold : float;
  vr_sustain : nat
}.

Record VarianceDerivativeDetector : Type := {
  vd_window : nat;
  vd_derivative_window : nat;
  vd_threshold : float
}.

Record VarianceInflectionDetector : Type := {
  vi_window : nat;
  vi_smooth_window : nat;
  vi_threshold : float
}.

Record RollingZScoreDetector : Type := {
  zs_window : nat;
  zs_zscore_window : nat;
  zs_threshold : float;
  zs_sustain : nat
}.

Record CUSUMDetector : Type := {
  cu_window : nat;
  cu_drift : float;
  cu_threshold : float
}.

Record ChangePointDetector : Type := {
  cp_window : nat;
  cp_min_segment : nat;
  cp_threshold : float
}.

(** The constructors' default arguments, for a given [window]. *)
Definition VarianceRatioDetector_init (window : nat) :=
  {| vr_window := window; vr_baseline_window := 80;
     vr_threshold := f_0_4; vr_sustain := 15 |}.
Definition VarianceDerivativeDetector_init (window : nat) :=
  {| vd_window := window; vd_derivative_window := 25;
     vd_threshold := f_0_3 |}.
Definition VarianceInflectionDetector_init (window : nat) :=
  {| vi_window := window; vi_smooth_window := 20; vi_threshold := f_0_2 |}.
Definition RollingZScoreDetector_init (window : nat) :=
  {| zs_window := window; zs_zscore_window := 80;
     zs_threshold := f_2; zs_sustain := 10 |}.
Definition CUSUMDetector_init (window : nat) :=
  {| cu_window := window; cu_drift := f_0_3; cu_threshold := f_4 |}.
Definition ChangePointDetector_init (window : nat) :=
  {| cp_window := window; cp_min_segment := 50; cp_threshold := f_0_3 |}.

Section Detectors.
Context {NP : Numpy}.

(** [VarianceRatioDetector.detect] *)
Definition vr_baseline (d : VarianceRatioDetector) (variance : list float)
  : list float :=
  let n := length variance in
  let w := vr_window d in
  let bw := vr_baseline_window d in
  let baseline :=
    map (fun i => if i <? bw + w then nan
                  else np_nanmean (slice variance (i - bw) (i - w / 2)))
        (range 0 n) in
  let fill := np_nanmedian (drop_nan variance) in
  let baseline := map (fun b => if isnan b then fill else b) baseline in
  map (fun b => np_maximum b f_1e_10) baseline.

Definition vr_ratio (d : VarianceRatioDetector) (sig : list float)
  : list float :=
  let variance := compute_rolling_variance sig (vr_window d) in
  map (fun vb => (fst vb / snd vb)%f64)
      (combine variance (vr_baseline d variance)).

Definition vr_idx_low (d : VarianceRatioDetector) (sig : list float)
  : option nat :=
  find_sustained_crossing (vr_ratio d sig) (vr_threshold d) Below
                          (vr_sustain d) (vr_baseline_window d).

(** The second search, for a threshold that is not zero: [1.0 /
    self.threshold] is then the float quotient. *)
Definition vr_idx_high (d : VarianceRatioDetector) (sig : list float)
  : option nat :=
  find_sustained_crossing (vr_ratio d sig) (f_1 / vr_threshold d)%f64 Above
                          (vr_sustain d) (vr_baseline_window d).

(** [[i for i in [idx_low, idx_high] if i is not None]] *)
Definition vr_candidates (d : VarianceRatioDetector) (sig : list float)
  : list nat :=
  match vr_idx_low d sig with Some i => [i] | None => [] end ++
  match vr_idx_high d sig with Some i => [i] | None => [] end.

Definition vr_metadata (d : VarianceRatioDetector) :=
  [("window"%string, MInt (Z.of_nat (vr_window d)));
   ("baseline_window"%string, MInt (Z.of_nat (vr_baseline_window d)));
   ("sustain"%string, MInt (Z.of_nat (vr_sustain d)))].

(** [detect]: the quotient [1.0 / self.threshold], an argument of the
    second search, raises on a zero threshold. *)
Definition VarianceRatioDetector_detect (d : VarianceRatioDetector)
    (sig : list float) : res DetectionResult :=
  let ratio := vr_ratio d sig in
  (_ <- py_fdiv f_1 (vr_threshold d) ;;
   match vr_candidates d sig with
   | c :: cs =>
       let detection_idx := fold_left Nat.min cs c in
       x <- py_get ratio (Z.of_nat detection_idx) ;;
       let r := if negb (isnan x) then x else f_1 in
       let confidence := SFabs (f_1 - r)%f64 in
       Ok {| detected := true;
             detection_index := Some (Z.of_nat detection_idx);
             confidence := py_min f_1 confidence;
             detector_type := VARIANCE_RATIO;
             signal := ratio;
             threshold := vr_threshold d;
             metadata := vr_metadata d |}
   | [] =>
       Ok {| detected := false;
             detection_index := None;
             confidence := py_min f_1 fzero;
             detector_type := VARIANCE_RATIO;
             signal := ratio;
             threshold := vr_threshold d;
             metadata := vr_metadata d |}
   end)%res.

(** [VarianceDerivativeDetector.detect] *)
Definition vd_derivative (d : VarianceDerivativeDetector)
    (variance : list float) : list float :=
  let dw := vd_derivative_window d in
  map (fun i =>
         if i <? dw + vd_window d then nan
         else if isnan (nth i variance nan)
                 || isnan (nth (i - dw) variance nan) then nan
         else
           let mean_var := np_nanmean (slice variance (i - dw) (i + 1)) in
           if (mean_var >? f_1e_10)%f64 then
             ((nth i variance nan - nth (i - dw) variance nan) / mean_var)%f64
           else nan)
      (range 0 (length variance)).

Definition vd_metadata (d : VarianceDerivativeDetector) :=
  [("window"%string, MInt (Z.of_nat (vd_window d)));
   ("derivative_window"%string, MInt (Z.of_nat (vd_derivative_window d)))].

Definition vd_result (d : VarianceDerivativeDetector)
    (derivative : list float) (hit : option (Z * float))
  : DetectionResult :=
  {| detected := match hit with Some _ => true | None => false end;
     detection_index := match hit with Some (i, _) => Some i | None => None end;
     confidence := match hit with Some (_, c) => c | None => fzero end;
     detector_type := VARIANCE_DERIVATIVE;
     signal := derivative;
     threshold := vd_threshold d;
     metadata := vd_metadata d |}.

Definition VarianceDerivativeDetector_detect
    (d : VarianceDerivativeDetector) (sig : list float)
  : res DetectionResult :=
  let variance := compute_rolling_variance sig (vd_window d) in
  let derivative := vd_derivative d variance in
  let abs_deriv := map SFabs derivative in
  (peak <- find_peak abs_deriv ModeMax ;;
   match peak with
   | Some peak_idx =>
       v <- py_get abs_deriv peak_idx ;;
       if negb (isnan v) then
         if (v >? vd_threshold d)%f64 then
           Ok (vd_result d derivative
                 (Some (peak_idx, py_min f_1 (v / vd_threshold d)%f64)))
         else Ok (vd_result d derivative None)
       else Ok (vd_result d derivative None)
   | None => Ok (vd_result d derivative None)
   end)%res.

(** [VarianceInflectionDetector.detect] *)
Definition vi_metadata (d : VarianceInflectionDetector) :=
  [("window"%string, MInt (Z.of_nat (vi_window d)));
   ("smooth_window"%string, MInt (Z.of_nat (vi_smooth_window d)))].

Definition vi_result (d : VarianceInflectionDetector)
    (inflection_signal : list float) (hit : option (Z * float))
  : DetectionResult :=
  {| detected := match hit with Some _ => true | None => false end;
     detection_index := match hit with Some (i, _) => Some i | None => None end;
     confidence := match hit with Some (_, c) => c | None => fzero end;
     detector_type := VARIANCE_INFLECTION;
     signal := inflection_signal;
     threshold := vi_threshold d;
     metadata := vi_metadata d |}.

Definition vi_inflection_signal (d : VarianceInflectionDetector)
    (sig : list float) : res (list float) :=
  let variance := compute_rolling_variance sig (vi_window d) in
  let sw := vi_smooth_window d in
  let kernel := map (fun one => (one / of_nat sw)%f64) (np_full sw f_1) in
  let fill := np_nanmedian variance in
  let valid_var := map (fun v => if isnan v then fill else v) variance in
  (smoothed <- np_convolve_same valid_var kernel ;;
   d1 <- np_gradient smoothed ;;
   d2 <- np_gradient d1 ;;
   Ok (map SFabs d2))%res.

Definition VarianceInflectionDetector_detect
    (d : VarianceInflectionDetector) (sig : list float)
  : res DetectionResult :=
  (inflection_signal <- vi_inflection_signal d sig ;;
   peak <- find_peak inflection_signal ModeMax ;;
   match peak with
   | Some peak_idx =>
       score <- py_get inflection_signal peak_idx ;;
       let typical := np_nanstd inflection_signal in
       let normalized_score :=
         if (typical >? f_1e_10)%f64 then (score / typical)%f64
         else fzero in
       if (normalized_score >? vi_threshold d)%f64 then
         Ok (vi_result d inflection_signal
               (Some (peak_idx,
                      py_min f_1 (normalized_score
                                  / (vi_threshold d * f_3))%f64)))
       else Ok (vi_result d inflection_signal None)
   | None => Ok (vi_result d inflection_signal None)
   end)%res.

(** [RollingZScoreDetector.detect] *)
Definition zs_zscore (d : RollingZScoreDetector) (variance : list float)
  : list float :=
  let zw := zs_zscore_window d in
  let w := zs_window d in
  map (fun i =>
         if i <? zw + w then nan
         else
           let window_data := slice variance (i - zw) (i - w / 2) in
           let valid_data := drop_nan window_data in
           if 10 <? length valid_data then
             let mean := np_mean valid_data in
             let std := np_std valid_data in
             if (std >? f_1e_10)%f64 && negb (isnan (nth i variance nan))
             then ((nth i variance nan - mean) / std)%f64
             else nan
           else nan)
      (range 0 (length variance)).

Definition zs_metadata (d : RollingZScoreDetector) :=
  [("window"%string, MInt (Z.of_nat (zs_window d)));
   ("zscore_window"%string, MInt (Z.of_nat (zs_zscore_window d)));
   ("sustain"%string, MInt (Z.of_nat (zs_sustain d)))].

Definition RollingZScoreDetector_detect (d : RollingZScoreDetector)
    (sig : list float) : res DetectionResult :=
  let variance := compute_rolling_variance sig (zs_window d) in
  let zscore := zs_zscore d variance in
  let abs_zscore := map SFabs zscore in
  let detection_idx :=
    find_sustained_crossing abs_zscore (zs_threshold d) Above
                            (zs_sustain d) (zs_zscore_window d) in
  Ok {| detected := match detection_idx with Some _ => true | None => false end;
        detection_index := option_map Z.of_nat detection_idx;
        confidence :=
          match detection_idx with
          | Some i =>
              py_min f_1 (np_nanmean (slice abs_zscore i (i + zs_sustain d))
                          / zs_threshold d)%f64
          | None => fzero
          end;
        detector_type := ROLLING_ZSCORE;
        signal := zscore;
        threshold := zs_threshold d;
        metadata := zs_metadata d |}.

(** [CUSUMDetector.detect] *)

(** The two recurrences, from the values at the previous position. *)
Fixpoint cusum_loop (drift : float) (pos neg : float)
    (standardized : list float) : list (float * float) :=
  match standardized with
  | [] => []
  | s :: rest =>
      let pos' := py_max fzero (pos + s - drift)%f64 in
      let neg' := py_min fzero (neg + s + drift)%f64 in
      (pos', neg') :: cusum_loop drift pos' neg' rest
  end.

(** [cusum_pos] and [cusum_neg], paired: both start at [0.0] and the
    loop fills positions [1, ..., len - 1]. *)
Definition cusum_pos_neg (drift : float) (standardized : list float)
  : list (float * float) :=
  match standardized with
  | [] => []
  | _ :: rest => (fzero, fzero) :: cusum_loop drift fzero fzero rest
  end.

(** [out = np.full(n, nan); out[mask] = values] *)
Fixpoint scatter (mask : list bool) (values : list float) : list float :=
  match mask with
  | [] => []
  | true :: mask' =>
      match values with
      | v :: values' => v :: scatter mask' values'
      | [] => nan :: scatter mask' []
      end
  | false :: mask' => nan :: scatter mask' values
  end.

(** [np.where(mask)[0]] *)
Definition np_where (mask : list bool) : list nat :=
  map fst (filter (fun ib => snd ib)
                  (combine (range 0 (length mask)) mask)).

Definition cu_std (valid_variance : list float) : float :=
  let baseline_n := Nat.max 10 (length valid_variance / 3) in
  let std := np_std (firstn baseline_n valid_variance) in
  let std := if (std <? f_1e_10)%f64 then np_std valid_variance else std in
  if (std <? f_1e_10)%f64 then f_1 else std.

Definition cu_mean (valid_variance : list float) : float :=
  let baseline_n := Nat.max 10 (length valid_variance / 3) in
  np_mean (firstn baseline_n valid_variance).

Definition cu_cusum_abs (d : CUSUMDetector) (valid_variance : list float)
  : list float :=
  let mean := cu_mean valid_variance in
  let std := cu_std valid_variance in
  let standardized := map (fun v => ((v - mean) / std)%f64) valid_variance in
  map (fun pn => np_maximum (fst pn) (SFabs (snd pn)))
      (cusum_pos_neg (cu_drift d) standardized).

Definition CUSUMDetector_detect (d : CUSUMDetector) (sig : list float)
  : res DetectionResult :=
  let variance := compute_rolling_variance sig (cu_window d) in
  let n := length variance in
  let valid_mask := map (fun x => negb (isnan x)) variance in
  if count_true valid_mask <? 20 then
    Ok {| detected := false; detection_index := None; confidence := fzero;
          detector_type := CUSUM;
          signal := np_full n nan; threshold := cu_threshold d;
          metadata := [("error"%string, MStr "insufficient_data")] |}
  else
    let valid_variance := drop_nan variance in
    let cusum_abs := cu_cusum_abs d valid_variance in
    let cusum_combined := scatter valid_mask cusum_abs in
    let valid_indices := np_where valid_mask in
    match first_return
            (fun ci : float * nat =>
               if (fst ci >? cu_threshold d)%f64 then Some ci else None)
            (combine cusum_abs valid_indices) with
    | Some (c, idx) =>
        Ok {| detected := true;
              detection_index := Some (Z.of_nat idx);
              confidence := py_min f_1 (c / cu_threshold d)%f64;
              detector_type := CUSUM;
              signal := cusum_combined; threshold := cu_threshold d;
              metadata :=
                [("drift"%string, MFloat (cu_drift d));
                 ("baseline_mean"%string, MFloat (cu_mean valid_variance));
                 ("baseline_std"%string, MFloat (cu_std valid_variance))] |}
    | None =>
        Ok {| detected := false; detection_index := None;
              confidence := fzero;
              detector_type := CUSUM;
              signal := cusum_combined; threshold := cu_threshold d;
              metadata := [("drift"%string, MFloat (cu_drift d))] |}
    end.

(** [ChangePointDetector.detect] *)
Definition cp_llr (d : ChangePointDetector) (variance : list float)
  : list float :=
  let n := length variance in
  let w := cp_window d in
  let ms := cp_min_segment d in
  map (fun i =>
         if (i <? ms + w) || negb (i <? n - ms) then fzero
         else
           let left_valid := drop_nan (slice variance w i) in
           let right_valid := drop_nan (slice variance i n) in
           if (length left_valid <? 10) || (length right_valid <? 10)
           then fzero
           else
             let var_left := np_var left_valid in
             let var_right := np_var right_valid in
             let var_all := np_var (drop_nan (slice variance w n)) in
             if (var_all >? f_1e_10)%f64 then
               let weighted_within :=
                 ((of_nat (length left_valid) * var_left
                   + of_nat (length right_valid) * var_right)
                  / of_nat (length left_valid + length right_valid))%f64 in
               (f_1 - weighted_within / var_all)%f64
             else fzero)
      (range 0 n).

Definition cp_result (d : ChangePointDetector) (llr : list float)
    (hit : option (Z * float)) : DetectionResult :=
  {| detected := match hit with Some _ => true | None => false end;
     detection_index := match hit with Some (i, _) => Some i | None => None end;
     confidence := match hit with Some (_, c) => c | None => fzero end;
     detector_type := CHANGE_POINT;
     signal := llr;
     threshold := cp_threshold d;
     metadata := [("min_segment"%string,
                   MInt (Z.of_nat (cp_min_segment d)))] |}.

Definition ChangePointDetector_detect (d : ChangePointDetector)
    (sig : list float) : res DetectionResult :=
  let variance := compute_rolling_variance sig (cp_window d) in
  let n := length variance in
  if count_valid variance <? 2 * cp_min_segment d then
    Ok {| detected := false; detection_index := None; confidence := fzero;
          detector_type := CHANGE_POINT;
          signal := np_full n fzero; threshold := cp_threshold d;
          metadata := [("error"%string, MStr "insufficient_data")] |}
  else
    let llr := cp_llr d variance in
    (peak <- find_peak llr ModeMax ;;
     match peak with
     | Some peak_idx =>
         v <- py_get llr peak_idx ;;
         if (v >? cp_threshold d)%f64 then
           Ok (cp_result d llr (Some (peak_idx, py_min f_1 v)))
         else Ok (cp_result d llr None)
     | None => Ok (cp_result d llr None)
     end)%res.
End Detectors.

(** ** The ensemble *)

(** A detector of the bank: one of the six base detectors. *)
Inductive BaseDetector : Type :=
| DVarianceRatio (d : VarianceRatioDetector)
| DVarianceDerivative (d : VarianceDerivativeDetector)
| DVarianceInflection (d : VarianceInflectionDetector)
| DRollingZScore (d : RollingZScoreDetector)
| DCUSUM (d : CUSUMDetector)
| DChangePoint (d : ChangePointDetector).

(** The [window] attribute of [BaseDetector]. *)
Definition window_of (d : BaseDetector) : nat :=
  match d with
  | DVarianceRatio d => vr_window d
  | DVarianceDerivative d => vd_window d
  | DVarianceInflection d => vi_window d
  | DRollingZScore d => zs_window d
  | DCUSUM d => cu_window d
  | DChangePoint d => cp_window d
  end.

(** A dictionary from detector types to floats, in insertion order. *)
Definition weight_dict : Type := list (DetectorType * float).

(** [weights.get(key, default)] *)
Fixpoint dict_get (w : weight_dict) (key : DetectorType) (default : float)
  : float :=
  match w with
  | [] => default
  | (k, v) :: w' => if DetectorType_eqb k key then v else dict_get w' key default
  end.

Definition default_weights : weight_dict :=
  [(VARIANCE_RATIO, f_1_5); (VARIANCE_DERIVATIVE, f_1_2);
   (VARIANCE_INFLECTION, f_1); (ROLLING_ZSCORE, f_0_8);
   (CUSUM, f_1); (CHANGE_POINT, f_1_3)].

Record EnsembleDetector : Type := {
  en_window : nat;
  en_threshold : float;
  en_weights : weight_dict
}.

(** [self.detectors], as [__init__] builds it. *)
Definition en_detectors (e : EnsembleDetector) : list BaseDetector :=
  [DVarianceRatio (VarianceRatioDetector_init (en_window e));
   DVarianceDerivative (VarianceDerivativeDetector_init (en_window e));
   DVarianceInflection (VarianceInflectionDetector_init (en_window e));
   DRollingZScore (RollingZScoreDetector_init (en_window e));
   DCUSUM (CUSUMDetector_init (en_window e));
   DChangePoint (ChangePointDetector_init (en_window e))].

(** An entry of the list [detections]. *)
Record Vote : Type := {
  vote_type : DetectorType;
  vote_index : Z;
  vote_confidence : float;
  vote_weight : float
}.

(** Insertion of [x] in a list sorted by vote index, after the entries
    with the same index. *)
Fixpoint insert_by_index (x : Vote) (l : list Vote) : list Vote :=
  match l with
  | [] => [x]
  | y :: l' =>
      if (vote_index x <? vote_index y)%Z then x :: l
      else y :: insert_by_index x l'
  end.

(** The votes in the order [np.argsort(indices)] gives. *)
Definition sort_by_index (l : list Vote) : list Vote :=
  fold_left (fun acc x => insert_by_index x acc) l [].

(** NumPy's order on floats for sorting and searching: NaN is last. *)
Definition np_less (a b : float) : bool :=
  (a <? b)%f64 || (isnan b && negb (isnan a)).

(** The bisection of [np.searchsorted(arr, key)] (side ['left']) on the
    positions [lo, ..., hi - 1]. *)
Fixpoint bisect_left (fuel : nat) (arr : list float) (key : float)
    (lo hi : nat) : nat :=
  match fuel with
  | 0 => lo
  | S fuel' =>
      if lo <? hi then
        let mid := lo + (hi - lo) / 2 in
        if np_less (nth mid arr nan) key
        then bisect_left fuel' arr key (mid + 1) hi
        else bisect_left fuel' arr key lo mid
      else lo
  end.

Definition np_searchsorted (arr : list float) (key : float) : nat :=
  bisect_left (S (length arr)) arr key 0 (length arr).

(** [combined += t], with NumPy's broadcasting of a one-entry [t]. *)
Definition np_iadd (combined t : list float) : res (list float) :=
  if length t =? length combined then
    Ok (map (fun ab => (fst ab + snd ab)%f64) (combine combined t))
  else
    match t with
    | [x] => Ok (map (fun c => (c + x)%f64) combined)
    | _ => Raise ValueError
    end.

(** [[f(x) for x in l]] when [f] can raise. *)
Fixpoint map_res {A B} (f : A -> res B) (l : list A) : res (list B) :=
  match l with
  | [] => Ok []
  | a :: l' =>
      (b <- f a ;; bs <- map_res f l' ;; Ok (b :: bs))%res
  end.

(** A [for] loop that updates an accumulator and can raise. *)
Fixpoint fold_res {A B} (f : B -> A -> res B) (l : list A) (b : B) : res B :=
  match l with
  | [] => Ok b
  | a :: l' => (b' <- f b a ;; fold_res f l' b')%res
  end.

Section Ensemble.
Context {NP : Numpy}.

(** [detector.detect(signal)], dispatched on the detector's class. *)
Definition detect (d : BaseDetector) (sig : list float)
  : res DetectionResult :=
  match d with
  | DVarianceRatio d => VarianceRatioDetector_detect d sig
  | DVarianceDerivative d => VarianceDerivativeDetector_detect d sig
  | DVarianceInflection d => VarianceInflectionDetector_detect d sig
  | DRollingZScore d => RollingZScoreDetector_detect d sig
  | DCUSUM d => CUSUMDetector_detect d sig
  | DChangePoint d => ChangePointDetector_detect d sig
  end.

(** The list [detections]: one entry per result that fired with an
    index. *)
Definition en_detections (w : weight_dict) (results : list DetectionResult)
  : list Vote :=
  flat_map
    (fun r =>
       match detected r, detection_index r with
       | true, Some i =>
           [{| vote_type := detector_type r;
               vote_index := i;
               vote_confidence := confidence r;
               vote_weight := dict_get w (detector_type r) f_1 |}]
       | _, _ => []
       end)
    results.

(** [len(detections) / len(self.detectors)] *)
Definition en_vote_fraction (e : EnsembleDetector) (detections : list Vote)
  : float :=
  (of_nat (length detections) / of_nat (length (en_detectors e)))%f64.

(** The weighted median of the voters' indices. *)
Definition en_weighted_median (detections : list Vote) : res Z :=
  let sorted := sort_by_index detections in
  let sorted_indices := map vote_index sorted in
  let sorted_weights := map vote_weight sorted in
  let cumsum := np_cumsum sorted_weights in
  (total <- py_get cumsum (-1) ;;
   let half := (total / f_2)%f64 in
   let median_pos := np_searchsorted cumsum half in
   py_get sorted_indices
          (Z.of_nat (Nat.min median_pos (length sorted_indices - 1))))%res.

(** The combined confidence, a quotient of Python floats. *)
Definition en_weighted_conf (detections : list Vote) : res float :=
  let total_weight := py_sum (map vote_weight detections) in
  py_fdiv
    (py_sum (map (fun v => (vote_confidence v * vote_weight v)%f64)
                 detections))
    total_weight.

(** The combined diagnostic trace. *)
Definition en_combined (e : EnsembleDetector) (n : nat)
    (results : list DetectionResult) : res (list float) :=
  (combined <-
     fold_res
       (fun combined r =>
          if py_any (map (fun x => negb (isnan x)) (signal r)) then
            let s := map (fun x => if isnan x then fzero else x) (signal r) in
            smax <- np_max (map SFabs s) ;;
            let s := if (smax >? fzero)%f64
                     then map (fun x => (x / smax)%f64) s else s in
            let w := dict_get (en_weights e) (detector_type r) f_1 in
            np_iadd combined (map (fun x => (x * w)%f64) s)
          else Ok combined)
       results (np_full n fzero) ;;
   let total := py_sum (map snd (en_weights e)) in
   Ok (map (fun c => (c / total)%f64) combined))%res.

Definition en_rows (results : list DetectionResult) :=
  map (fun r => (detector_type r, detected r, detection_index r,
                 confidence r)) results.

(** [EnsembleDetector.detect] *)
Definition EnsembleDetector_detect (e : EnsembleDetector)
    (sig : list float) : res DetectionResult :=
  (results <- map_res (fun d => detect d sig) (en_detectors e) ;;
   let detections := en_detections (en_weights e) results in
   let n_detectors := MInt (Z.of_nat (length (en_detectors e))) in
   match detections with
   | [] =>
       Ok {| detected := false; detection_index := None;
             confidence := fzero; detector_type := ENSEMBLE;
             signal := np_full (length sig) fzero;
             threshold := en_threshold e;
             metadata := [("votes"%string, MInt 0);
                          ("detectors"%string, n_detectors)] |}
   | _ :: _ =>
       let vote_fraction := en_vote_fraction e detections in
       let votes := MInt (Z.of_nat (length detections)) in
       if negb (vote_fraction >=? en_threshold e)%f64 then
         Ok {| detected := false; detection_index := None;
               confidence := fzero; detector_type := ENSEMBLE;
               signal := np_full (length sig) fzero;
               threshold := en_threshold e;
               metadata := [("votes"%string, votes);
                            ("detectors"%string, n_detectors);
                            ("vote_fraction"%string, MFloat vote_fraction)] |}
       else
         detection_idx <- en_weighted_median detections ;;
         weighted_conf <- en_weighted_conf detections ;;
         combined <- en_combined e (length sig) results ;;
         Ok {| detected := true;
               detection_index := Some detection_idx;
               confidence := weighted_conf;
               detector_type := ENSEMBLE;
               signal := combined;
               threshold := en_threshold e;
               metadata := [("votes"%string, votes);
                            ("detectors"%string, n_detectors);
                            ("vote_fraction"%string, MFloat vote_fraction);
                            ("individual_results"%string,
                             MResults (en_rows results))] |}
   end)%res.
End Ensemble.

(** Every detector [create_detector] can build: the six base detectors
    and the ensemble. *)
Inductive Detector : Type :=
| Base (d : BaseDetector)
| Ensemble (e : EnsembleDetector).

Definition Detector_detect {NP : Numpy} (d : Detector) (sig : list float)
  : res DetectionResult :=
  match d with
  | Base d => detect d sig
  | Ensemble e => EnsembleDetector_detect e sig
  end.

(* ================================================================== *)
(** * simulators/phase_transitions.py *)
(* ================================================================== *)

Inductive TransitionType : Type :=
| PITCHFORK
| SADDLE_NODE
| HOPF
| TRANSCRITICAL
| NUCLEATION
| COMMITMENT.

(** [list(TransitionType)] *)
Definition all_transition_types : list TransitionType :=
  [PITCHFORK; SADDLE_NODE; HOPF; TRANSCRITICAL; NUCLEATION; COMMITMENT].

(** [duration] is the size of the arrays the simulators allocate. *)
Record SimulationConfig : Type := {
  transition_type : TransitionType;
  duration : nat;
  dt : float;
  noise_level : float;
  transition_fraction : float;
  seed : option Z
}.

Record SimulationResult : Type := {
  time : list float;
  state : list float;
  control_param : list float;
  transition_index : Z;
  result_transition_type : TransitionType;
  config : SimulationConfig;
  variance_trajectory : list float
}.

(** The [method] argument of [find_transition_index]. *)
Inductive Method : Type := Derivative | VariancePeak | StateThreshold.

Module Lit3.
Import PrimFloat.
Definition f_0_1   : spec_float := Eval vm_compute in lit 0.1.
Definition f_0_01  : spec_float := Eval vm_compute in lit 0.01.
Definition f_0_001 : spec_float := Eval vm_compute in lit 0.001.
Definition f_0_002 : spec_float := Eval vm_compute in lit 0.002.
Definition f_0_05  : spec_float := Eval vm_compute in lit 0.05.
Definition f_0_5   : spec_float := Eval vm_compute in lit 0.5.
Definition f_2_5   : spec_float := Eval vm_compute in lit 2.5.
Definition f_5     : spec_float := Eval vm_compute in lit 5.
Definition f_30    : spec_float := Eval vm_compute in lit 30.
End Lit3.
Export Lit3.

(** [np.linspace(start, stop, num)] *)
Definition np_linspace (start stop : float) (num : nat) : list float :=
  let div := num - 1 in
  let delta := (stop - start)%f64 in
  let y := map of_nat (range 0 num) in
  let y :=
    if 0 <? div then
      let step := (delta / of_nat div)%f64 in
      if SFeqb step fzero
      then map (fun v => (v / of_nat div * delta)%f64) y
      else map (fun v => (v * step)%f64) y
    else map (fun v => (v * delta)%f64) y in
  let y := map (fun v => (v + start)%f64) y in
  if 1 <? num then removelast y ++ [stop] else y.

(** [np.clip(x, lo, hi)] *)
Definition np_clip (x lo hi : float) : float :=
  np_minimum (np_maximum x lo) hi.

(** [a / b] on two Python integers. *)
Definition py_truediv (a b : Z) : float := (of_Z a / of_Z b)%f64.

(** Complex numbers: the real and the imaginary part. *)
Definition complex : Type := float * float.

Definition c_of_float (x : float) : complex := (x, fzero).
Definition cadd (a b : complex) : complex :=
  ((fst a + fst b)%f64, (snd a + snd b)%f64).
Definition csub (a b : complex) : complex :=
  ((fst a - fst b)%f64, (snd a - snd b)%f64).
Definition cmul (a b : complex) : complex :=
  ((fst a * fst b - snd a * snd b)%f64,
   (fst a * snd b + snd a * fst b)%f64).

(** NumPy's quotient of two complex numbers. *)
Definition cdiv (a b : complex) : complex :=
  if (SFabs (fst b) >=? SFabs (snd b))%f64 then
    let rat := (snd b / fst b)%f64 in
    let scl := (f_1 / (fst b + snd b * rat))%f64 in
    (((fst a + snd a * rat) * scl)%f64, ((snd a - fst a * rat) * scl)%f64)
  else
    let rat := (fst b / snd b)%f64 in
    let scl := (f_1 / (snd b + fst b * rat))%f64 in
    (((fst a * rat + snd a) * scl)%f64, ((snd a * rat - fst a) * scl)%f64).

Definition c_i : complex := (fzero, f_1).

Section Simulators.
Context {NP : Numpy}.

(** A computation that reads and updates the generator of [np.random],
    and can raise. *)
Definition sim (A : Type) : Type := rng -> res (A * rng).

(** [compute_variance_trajectory(state, window)] *)
Definition compute_variance_trajectory (st : list float) (window : nat)
  : list float :=
  map (fun i => if i <? window then nan
                else np_var (slice st (i - window) i))
      (range 0 (length st)).

(** [find_transition_index(state, method)], with the default
    [window = 30] and [exclude_edges = 0.1]. *)
Definition fti_derivative (st : list float) (start stop : Z) : res Z :=
  let n := length st in
  let smooth_window := Nat.min 20 (n / 20) in
  (smoothed <-
     (if 1 <? smooth_window then
        let kernel := map (fun one => (one / of_nat smooth_window)%f64)
                          (np_full smooth_window f_1) in
        np_convolve_same st kernel
      else Ok st) ;;
   let derivative := map SFabs (np_diff smoothed) in
   peak_idx <-
     (if (start <? stop)%Z then
        i <- np_argmax (py_slice derivative start stop) ;;
        Ok (start + Z.of_nat i)%Z
      else Ok (Z.of_nat (n / 2))) ;;
   Ok (Z.min peak_idx (Z.of_nat n - 1)))%res.

Definition fti_variance_peak (st : list float) (window : nat)
    (start stop : Z) : res Z :=
  let n := length st in
  let var_traj := compute_variance_trajectory st window in
  let valid := map (fun x => negb (isnan x)) var_traj in
  if negb (py_any (py_slice valid start stop)) then Ok (Z.of_nat (n / 2))
  else
    let lo := slice_bound n start in
    let hi := slice_bound n stop in
    let var_in_range :=
      map (fun iv : nat * float =>
             let (i, v) := iv in
             if (i <? lo) || (hi <=? i) || isnan v then fzero else v)
          (combine (range 0 n) var_traj) in
    (i <- np_argmax var_in_range ;; Ok (Z.of_nat i))%res.

Definition fti_state_threshold (st : list float) (start stop : Z) : res Z :=
  let n := length st in
  let baseline_end := Z.max start (Z.of_nat (n / 5)) in
  let baseline := py_slice st 0 baseline_end in
  let mean := np_mean baseline in
  let std := np_std baseline in
  let std := if (std <? f_1e_10)%f64 then (np_std st / f_3)%f64 else std in
  let thr := (f_2_5 * std)%f64 in
  let crossings :=
    np_where (map (fun x => (SFabs (x - mean) >? thr)%f64)
                  (py_slice st start stop)) in
  match crossings with
  | c :: _ => Ok (start + Z.of_nat c)%Z
  | [] => Ok (Z.of_nat (n / 2))
  end.

Definition find_transition_index (st : list float) (method : Method)
  : res Z :=
  let n := length st in
  (start <- py_int (of_nat n * f_0_1)%f64 ;;
   stop <- py_int (of_nat n * (f_1 - f_0_1))%f64 ;;
   match method with
   | Derivative => fti_derivative st start stop
   | VariancePeak => fti_variance_peak st 30 start stop
   | StateThreshold => fti_state_threshold st start stop
   end)%res.

(** [if config.seed is not None: np.random.seed(config.seed)] *)
Definition reseed (cfg : SimulationConfig) : sim unit :=
  fun g =>
    match seed cfg with
    | Some s => (g' <- np_random_seed s ;; Ok (tt, g'))%res
    | None => Ok (tt, g)
    end.

(** The integration loop [for i in range(i, i + count)]: each step
    computes the entry [i] from the entry [i - 1] and draws from the
    generator. *)
Fixpoint sde_loop {St : Type} (step : nat -> St -> rng -> St * rng)
    (i count : nat) (prev : St) (g : rng) : list St * rng :=
  match count with
  | 0 => ([], g)
  | S count' =>
      let (x, g') := step i prev g in
      let (xs, g'') := sde_loop step (S i) count' x g' in
      (x :: xs, g'')
  end.

(** [np.arange(n) * dt] *)
Definition time_axis (n : nat) (step : float) : list float :=
  map (fun i => (of_nat i * step)%f64) (range 0 n).

(** The common ending of the simulators: the transition index found on
    [observed], the variance of [x], and the result. *)
Definition finish (cfg : SimulationConfig) (ttype : TransitionType)
    (x control observed : list float) (method : Method) (g : rng)
  : res (SimulationResult * rng) :=
  (trans_idx <- find_transition_index observed method ;;
   let var_traj := compute_variance_trajectory x 50 in
   Ok ({| time := time_axis (duration cfg) (dt cfg);
          state := x;
          control_param := control;
          transition_index := trans_idx;
          result_transition_type := ttype;
          config := cfg;
          variance_trajectory := var_traj |}, g))%res.

(** [simulate_pitchfork] *)
Definition simulate_pitchfork_seeded (cfg : SimulationConfig)
  : sim SimulationResult :=
  fun g =>
    let n := duration cfg in
    let sigma := noise_level cfg in
    let r := np_linspace (- f_1)%f64 f_1 n in
    let (z0, g) := np_random_randn g in
    if n =? 0 then Raise IndexError
    else
      let x0 := (z0 * f_0_01)%f64 in
      let step i prev g :=
        let drift := (nth (i - 1) r nan * prev - np_power prev 3)%f64 in
        let (z, g') := np_random_randn g in
        let diffusion := (sigma * fsqrt (dt cfg) * z)%f64 in
        ((prev + drift * dt cfg + diffusion)%f64, g') in
      let (xs, g) := sde_loop step 1 (n - 1) x0 g in
      finish cfg PITCHFORK (x0 :: xs) r (x0 :: xs) Derivative g.

Definition simulate_pitchfork (cfg : SimulationConfig)
  : sim SimulationResult :=
  fun g => ('(_, g) <- reseed cfg g ;; simulate_pitchfork_seeded cfg g)%res.

(** [simulate_saddle_node] *)
Definition simulate_saddle_node_seeded (cfg : SimulationConfig)
  : sim SimulationResult :=
  fun g =>
    let n := duration cfg in
    let sigma := noise_level cfg in
    let r := np_linspace (- f_1)%f64 f_0_1 n in
    let (z0, g) := np_random_randn g in
    if n =? 0 then Raise IndexError
    else
      let x0 := (- f_1 + z0 * f_0_01)%f64 in
      let step i prev g :=
        let drift := (nth (i - 1) r nan + np_power prev 2)%f64 in
        let (z, g') := np_random_randn g in
        let diffusion := (sigma * fsqrt (dt cfg) * z)%f64 in
        (np_clip (prev + drift * dt cfg + diffusion)%f64 (- f_5)%f64 f_5, g') in
      let (xs, g) := sde_loop step 1 (n - 1) x0 g in
      finish cfg SADDLE_NODE (x0 :: xs) r (x0 :: xs) Derivative g.

Definition simulate_saddle_node (cfg : SimulationConfig)
  : sim SimulationResult :=
  fun g => ('(_, g) <- reseed cfg g ;; simulate_saddle_node_seeded cfg g)%res.

(** [simulate_hopf] *)
Definition simulate_hopf_seeded (cfg : SimulationConfig)
  : sim SimulationResult :=
  fun g =>
    let n := duration cfg in
    let sigma := noise_level cfg in
    let omega := f_2 in
    let r := np_linspace (- f_0_5)%f64 f_0_5 n in
    if n =? 0 then Raise IndexError
    else
      let z0 : complex := (f_0_01, f_0_01) in
      let step i (prev : complex) g :=
        let modulus := np_hypot (fst prev) (snd prev) in
        let drift :=
          cmul (csub (cadd (c_of_float (nth (i - 1) r nan))
                           (cmul c_i (c_of_float omega)))
                     (c_of_float (np_power modulus 2)))
               prev in
        let (noise_re, g') := np_random_randn g in
        let (noise_im, g'') := np_random_randn g' in
        let diffusion :=
          cdiv (cmul (c_of_float (sigma * fsqrt (dt cfg))%f64)
                     (cadd (c_of_float noise_re)
                           (cmul c_i (c_of_float noise_im))))
               (c_of_float (fsqrt f_2)) in
        (cadd (cadd prev (cmul drift (c_of_float (dt cfg)))) diffusion, g'') in
      let (zs, g) := sde_loop step 1 (n - 1) z0 g in
      let z := z0 :: zs in
      let x := map fst z in
      finish cfg HOPF x r
             (map (fun c : complex => np_hypot (fst c) (snd c)) z)
             VariancePeak g.

Definition simulate_hopf (cfg : SimulationConfig) : sim SimulationResult :=
  fun g => ('(_, g) <- reseed cfg g ;; simulate_hopf_seeded cfg g)%res.

(** [simulate_transcritical] *)
Definition simulate_transcritical_seeded (cfg : SimulationConfig)
  : sim SimulationResult :=
  fun g =>
    let n := duration cfg in
    let sigma := noise_level cfg in
    let r := np_linspace (- f_0_5)%f64 f_0_5 n in
    if n =? 0 then Raise IndexError
    else
      let x0 := f_0_01 in
      let step i prev g :=
        let drift := (nth (i - 1) r nan * prev - np_power prev 2)%f64 in
        let (z, g') := np_random_randn g in
        let diffusion := (sigma * fsqrt (dt cfg) * z)%f64 in
        (np_clip (prev + drift * dt cfg + diffusion)%f64 (- f_3)%f64 f_3, g') in
      let (xs, g) := sde_loop step 1 (n - 1) x0 g in
      finish cfg TRANSCRITICAL (x0 :: xs) r (x0 :: xs) Derivative g.

Definition simulate_transcritical (cfg : SimulationConfig)
  : sim SimulationResult :=
  fun g => ('(_, g) <- reseed cfg g ;; simulate_transcritical_seeded cfg g)%res.

(** [simulate_nucleation] *)

(** [x[target:] += 0.3 * (1 - np.exp(-np.arange(n - target) / 30))] *)
Definition force_transition (x : list float) (target : Z)
  : res (list float) :=
  let n := length x in
  let lo := slice_bound n target in
  let pull :=
    map (fun j => (f_0_3 * (f_1 - np_exp (of_Z (- Z.of_nat j) / f_30)))%f64)
        (range 0 (Z.to_nat (Z.of_nat n - target))) in
  (tail <- np_iadd (skipn lo x) pull ;; Ok (firstn lo x ++ tail))%res.

Definition simulate_nucleation_seeded (cfg : SimulationConfig)
  : sim SimulationResult :=
  fun g =>
    let n := duration cfg in
    let sigma := noise_level cfg in
    (trans_target <- py_int (of_nat n * transition_fraction cfg)%f64 ;;
     if n =? 0 then Raise IndexError
     else
       let x0 := (- f_1)%f64 in
       let step i prev g :=
         let drift :=
           (of_Z (-4) * prev * (np_power prev 2 - f_1))%f64 in
         let drift :=
           (drift + f_0_001 * py_truediv (Z.of_nat i) (Z.of_nat n))%f64 in
         let dist_to_trans :=
           py_truediv (Z.abs (Z.of_nat i - trans_target)) (Z.of_nat n) in
         let commitment_factor :=
           py_max f_0_2 (py_min f_1 (dist_to_trans * f_4)%f64) in
         let (z, g') := np_random_randn g in
         let diffusion :=
           (sigma * commitment_factor * fsqrt (dt cfg) * z)%f64 in
         ((prev + drift * dt cfg + diffusion)%f64, g') in
       let (xs, g) := sde_loop step 1 (n - 1) x0 g in
       let x := x0 :: xs in
       at_target <- py_get x trans_target ;;
       x <- (if (at_target <? fzero)%f64 then force_transition x trans_target
             else Ok x) ;;
       finish cfg NUCLEATION x (np_linspace fzero f_1 n) x Derivative g)%res.

Definition simulate_nucleation (cfg : SimulationConfig)
  : sim SimulationResult :=
  fun g => ('(_, g) <- reseed cfg g ;; simulate_nucleation_seeded cfg g)%res.

(** [simulate_commitment]: the loop carries the commitment level and the
    state. *)
Definition simulate_commitment_seeded (cfg : SimulationConfig)
  : sim SimulationResult :=
  fun g =>
    let n := duration cfg in
    let sigma := noise_level cfg in
    (trans_target <- py_int (of_nat n * transition_fraction cfg)%f64 ;;
     let step i (prev : float * float) g :=
       let (c_prev, x_prev) := prev in
       let c :=
         py_min f_1 (c_prev + f_0_001
                     + f_0_002 * py_truediv (Z.of_nat i) (Z.of_nat n))%f64 in
       let noise_factor := (f_1 - f_0_85 * c)%f64 in
       let drift :=
         if (c <? f_0_7)%f64 then (- f_0_05 * x_prev)%f64
         else (f_0_3 * (f_1 - x_prev))%f64 in
       let (z, g') := np_random_randn g in
       let diffusion := (sigma * noise_factor * fsqrt (dt cfg) * z)%f64 in
       ((c, (x_prev + drift * dt cfg + diffusion)%f64), g') in
     let (cxs, g) := sde_loop step 1 (n - 1) (fzero, fzero) g in
     let cxs := match n with 0 => [] | S _ => (fzero, fzero) :: cxs end in
     let x := map snd cxs in
     finish cfg COMMITMENT x (map fst cxs) x Derivative g)%res.

Definition simulate_commitment (cfg : SimulationConfig)
  : sim SimulationResult :=
  fun g => ('(_, g) <- reseed cfg g ;; simulate_commitment_seeded cfg g)%res.

(** [simulate]: the dispatch on the archetype. *)
Definition simulate (cfg : SimulationConfig) : sim SimulationResult :=
  match transition_type cfg with
  | PITCHFORK => simulate_pitchfork cfg
  | SADDLE_NODE => simulate_saddle_node cfg
  | HOPF => simulate_hopf cfg
  | TRANSCRITICAL => simulate_transcritical cfg
  | NUCLEATION => simulate_nucleation cfg
  | COMMITMENT => simulate_commitment cfg
  end.

(** [generate_dataset], for given lists of archetypes and noise levels and
    a given range of durations: simulation [i] takes the archetype and the
    noise level of rank [i] modulo the lengths, draws its duration and its
    transition fraction, and is seeded with [seed + i]. *)
Definition generate_one (transition_types : list TransitionType)
    (noise_levels : list float) (durations : Z * Z) (seed0 : option Z)
    (i : nat) : sim SimulationResult :=
  fun g =>
    match transition_types, noise_levels with
    | [], _ | _, [] => Raise ZeroDivisionError
    | t0 :: _, nl0 :: _ =>
        let ttype := nth (i mod length transition_types) transition_types t0 in
        let noise := nth (i mod length noise_levels) noise_levels nl0 in
        ('(d, g) <- np_random_randint (fst durations) (snd durations) g ;;
         let (frac, g) := np_random_uniform f_0_4 f_0_7 g in
         if (d <? 0)%Z then Raise ValueError
         else
           simulate {| transition_type := ttype;
                       duration := Z.to_nat d;
                       dt := f_0_01;
                       noise_level := noise;
                       transition_fraction := frac;
                       seed := option_map (fun s => (s + Z.of_nat i)%Z) seed0 |}
                    g)%res
    end.

Fixpoint generate_loop (one : nat -> sim SimulationResult) (ids : list nat)
  : sim (list SimulationResult) :=
  fun g =>
    match ids with
    | [] => Ok ([], g)
    | i :: ids' =>
        ('(r, g) <- one i g ;;
         '(rs, g) <- generate_loop one ids' g ;;
         Ok (r :: rs, g))%res
    end.

Definition generate_dataset (n_simulations : nat)
    (transition_types : list TransitionType) (noise_levels : list float)
    (durations : Z * Z) (seed0 : option Z) : sim (list SimulationResult) :=
  fun g =>
    (g <- match seed0 with
          | Some s => np_random_seed s
          | None => Ok g
          end ;;
     generate_loop (generate_one transition_types noise_levels durations seed0)
                   (range 0 n_simulations) g)%res.
End Simulators.

(* ================================================================== *)
(** * evaluation/harness.py *)
(* ================================================================== *)

(** The four counts of [EvaluationMetrics].  The statistics that
    [run_experiment] derives at the end of a run (means, deviations,
    medians, a correlation) are NumPy reductions of the lists recorded in
    [HarnessState]. *)
Record EvaluationMetrics : Type := {
  em_detector_type : DetectorType;
  true_positives : nat;
  false_positives : nat;
  false_negatives : nat;
  true_negatives : nat
}.

Definition EvaluationMetrics_init (dtype : DetectorType) : EvaluationMetrics :=
  {| em_detector_type := dtype;
     true_positives := 0; false_positives := 0;
     false_negatives := 0; true_negatives := 0 |}.

(** The properties [precision], [recall], [f1_score] and [accuracy].  The
    quotient [a / b] of two Python integers is the float nearest to the
    exact quotient; it is the quotient of the floats of [a] and [b] for
    counts below [2^53], which floats hold exactly. *)
Definition precision (m : EvaluationMetrics) : float :=
  let denom := true_positives m + false_positives m in
  if 0 <? denom then (of_nat (true_positives m) / of_nat denom)%f64
  else fzero.

Definition recall (m : EvaluationMetrics) : float :=
  let denom := true_positives m + false_negatives m in
  if 0 <? denom then (of_nat (true_positives m) / of_nat denom)%f64
  else fzero.

Definition f1_score (m : EvaluationMetrics) : float :=
  let p := precision m in
  let r := recall m in
  if ((p + r) >? fzero)%f64 then (f_2 * p * r / (p + r))%f64 else fzero.

Definition accuracy (m : EvaluationMetrics) : float :=
  let total := true_positives m + false_positives m
               + true_negatives m + false_negatives m in
  if 0 <? total
  then (of_nat (true_positives m + true_negatives m) / of_nat total)%f64
  else fzero.

(** The fields of [ExperimentConfig] that the evaluation reads.
    [detector_params] maps a type to the detector its keyword arguments
    build. *)
Record ExperimentConfig : Type := {
  detector_types : list DetectorType;
  detector_params : list (DetectorType * Detector);
  n_simulations : nat;
  transition_types : option (list TransitionType);
  noise_levels : list float;
  durations : Z * Z;
  detection_tolerance : Z;
  experiment_seed : Z
}.

(** [create_detector(dtype)] with the defaults of each class. *)
Definition create_detector_default (dtype : DetectorType) : Detector :=
  match dtype with
  | VARIANCE_RATIO => Base (DVarianceRatio (VarianceRatioDetector_init 40))
  | VARIANCE_DERIVATIVE =>
      Base (DVarianceDerivative (VarianceDerivativeDetector_init 40))
  | VARIANCE_INFLECTION =>
      Base (DVarianceInflection (VarianceInflectionDetector_init 40))
  | ROLLING_ZSCORE => Base (DRollingZScore (RollingZScoreDetector_init 40))
  | CUSUM => Base (DCUSUM (CUSUMDetector_init 40))
  | CHANGE_POINT => Base (DChangePoint (ChangePointDetector_init 40))
  | ENSEMBLE =>
      Ensemble {| en_window := 40; en_threshold := f_0_4;
                  en_weights := default_weights |}
  end.

(** A dictionary keyed by detector types, in insertion order. *)
Definition dict (V : Type) : Type := list (DetectorType * V).

Fixpoint dict_lookup {V} (d : dict V) (k : DetectorType) : option V :=
  match d with
  | [] => None
  | (k', v) :: d' => if DetectorType_eqb k' k then Some v else dict_lookup d' k
  end.

(** [d[k] = v]: replaces the value of an existing key, at its place, and
    appends a new key. *)
Fixpoint dict_set {V} (d : dict V) (k : DetectorType) (v : V) : dict V :=
  match d with
  | [] => [(k, v)]
  | (k', v') :: d' =>
      if DetectorType_eqb k' k then (k', v) :: d'
      else (k', v') :: dict_set d' k v
  end.

(** [d[k] = f(d[k])] for a key of [d]. *)
Fixpoint dict_update {V} (d : dict V) (k : DetectorType) (f : V -> V)
  : dict V :=
  match d with
  | [] => []
  | (k', v) :: d' =>
      if DetectorType_eqb k' k then (k', f v) :: d'
      else (k', v) :: dict_update d' k f
  end.

(** [{k: f(k) for k in keys}] *)
Definition dict_comprehension {V} (keys : list DetectorType)
    (f : DetectorType -> V) : dict V :=
  fold_left (fun d k => dict_set d k (f k)) keys [].

(** [EvaluationHarness.__init__]: the dictionary [self.detectors]. *)
Definition harness_detectors (cfg : ExperimentConfig) : dict Detector :=
  dict_comprehension (detector_types cfg)
    (fun dtype =>
       match dict_lookup (detector_params cfg) dtype with
       | Some d => d
       | None => create_detector_default dtype
       end).

(** An entry of [sim_result["detections"]]. *)
Record DetectionRecord : Type := {
  rec_detected : bool;
  rec_index : option Z;
  rec_confidence : float;
  rec_error : option Z
}.

(** An entry of [detailed_results]. *)
Record SimRecord : Type := {
  simulation_id : nat;
  rec_transition_type : TransitionType;
  true_transition_index : Z;
  rec_duration : nat;
  rec_noise_level : float;
  detections : list (DetectorType * DetectionRecord)
}.

(** What [run_experiment] accumulates while it iterates. *)
Record HarnessState : Type := {
  metrics : dict EvaluationMetrics;
  detection_errors : dict (list Z);
  confidences : dict (list (float * bool));
  per_type_errors : dict (TransitionType -> list Z);
  detailed_results : list SimRecord
}.

Definition TransitionType_eqb (a b : TransitionType) : bool :=
  match a, b with
  | PITCHFORK, PITCHFORK | SADDLE_NODE, SADDLE_NODE | HOPF, HOPF
  | TRANSCRITICAL, TRANSCRITICAL | NUCLEATION, NUCLEATION
  | COMMITMENT, COMMITMENT => true
  | _, _ => false
  end.

(** The truth value of an optional index: [None] and [0] are false. *)
Definition truthy (i : option Z) : bool :=
  match i with
  | Some i => negb (i =? 0)%Z
  | None => false
  end.

(** The entry recorded for one detection. *)
Definition detection_record (detection : DetectionResult) (true_idx : Z)
  : DetectionRecord :=
  {| rec_detected := detected detection;
     rec_index := detection_index detection;
     rec_confidence := confidence detection;
     rec_error :=
       if truthy (detection_index detection) then
         option_map (fun i => (i - true_idx)%Z) (detection_index detection)
       else None |}.

Definition add_tp (m : EvaluationMetrics) : EvaluationMetrics :=
  {| em_detector_type := em_detector_type m;
     true_positives := true_positives m + 1;
     false_positives := false_positives m;
     false_negatives := false_negatives m;
     true_negatives := true_negatives m |}.

Definition add_fp (m : EvaluationMetrics) : EvaluationMetrics :=
  {| em_detector_type := em_detector_type m;
     true_positives := true_positives m;
     false_positives := false_positives m + 1;
     false_negatives := false_negatives m;
     true_negatives := true_negatives m |}.

Definition add_fn (m : EvaluationMetrics) : EvaluationMetrics :=
  {| em_detector_type := em_detector_type m;
     true_positives := true_positives m;
     false_positives := false_positives m;
     false_negatives := false_negatives m + 1;
     true_negatives := true_negatives m |}.

(** The scoring of one detection: the updates of the accumulators made
    for the pair (simulation, detector). *)
Definition score (tolerance : Z) (dtype : DetectorType)
    (ttype : TransitionType) (true_idx : Z) (detection : DetectionResult)
    (st : HarnessState) : HarnessState :=
  match detected detection, detection_index detection with
  | true, Some idx =>
      let error := (idx - true_idx)%Z in
      if (Z.abs error <=? tolerance)%Z then
        {| metrics := dict_update (metrics st) dtype add_tp;
           detection_errors :=
             dict_update (detection_errors st) dtype (fun l => l ++ [error]);
           confidences :=
             dict_update (confidences st) dtype
                         (fun l => l ++ [(confidence detection, true)]);
           per_type_errors :=
             dict_update (per_type_errors st) dtype
               (fun f t => if TransitionType_eqb t ttype
                           then f t ++ [error] else f t);
           detailed_results := detailed_results st |}
      else
        {| metrics := dict_update (metrics st) dtype add_fp;
           detection_errors := detection_errors st;
           confidences :=
             dict_update (confidences st) dtype
                         (fun l => l ++ [(confidence detection, false)]);
           per_type_errors := per_type_errors st;
           detailed_results := detailed_results st |}
  | _, _ =>
      {| metrics := dict_update (metrics st) dtype add_fn;
         detection_errors := detection_errors st;
         confidences :=
           dict_update (confidences st) dtype (fun l => l ++ [(fzero, false)]);
         per_type_errors := per_type_errors st;
         detailed_results := detailed_results st |}
  end.

Section Harness.
Context {NP : Numpy}.

(** The loop over [self.detectors.items()] for one simulation: the state
    and the [detections] of the simulation's record. *)
Fixpoint evaluate_detectors (tolerance : Z) (sim_ : SimulationResult)
    (detectors : dict Detector)
    (acc : HarnessState * list (DetectorType * DetectionRecord))
  : res (HarnessState * list (DetectorType * DetectionRecord)) :=
  match detectors with
  | [] => Ok acc
  | (dtype, detector) :: rest =>
      (detection <- Detector_detect detector (state sim_) ;;
       let st := score tolerance dtype (result_transition_type sim_)
                       (transition_index sim_) detection (fst acc) in
       let entry := (dtype, detection_record detection (transition_index sim_)) in
       evaluate_detectors tolerance sim_ rest (st, snd acc ++ [entry]))%res
  end.

(** The loop over [enumerate(dataset)]. *)
Fixpoint evaluate_dataset (tolerance : Z) (detectors : dict Detector)
    (i : nat) (dataset : list SimulationResult) (st : HarnessState)
  : res HarnessState :=
  match dataset with
  | [] => Ok st
  | sim_ :: rest =>
      ('(st, dets) <- evaluate_detectors tolerance sim_ detectors (st, []) ;;
       let record :=
         {| simulation_id := i;
            rec_transition_type := result_transition_type sim_;
            true_transition_index := transition_index sim_;
            rec_duration := duration (config sim_);
            rec_noise_level := noise_level (config sim_);
            detections := dets |} in
       evaluate_dataset tolerance detectors (S i) rest
         {| metrics := metrics st;
            detection_errors := detection_errors st;
            confidences := confidences st;
            per_type_errors := per_type_errors st;
            detailed_results := detailed_results st ++ [record] |})%res
  end.

Definition initial_state (cfg : ExperimentConfig) : HarnessState :=
  {| metrics := dict_comprehension (detector_types cfg) EvaluationMetrics_init;
     detection_errors := dict_comprehension (detector_types cfg) (fun _ => []);
     confidences := dict_comprehension (detector_types cfg) (fun _ => []);
     per_type_errors :=
       dict_comprehension (detector_types cfg) (fun _ _ => []);
     detailed_results := [] |}.

(** The evaluation of [run_experiment] on a corpus. *)
Definition evaluate_corpus (cfg : ExperimentConfig)
    (dataset : list SimulationResult) : res HarnessState :=
  evaluate_dataset (detection_tolerance cfg) (harness_detectors cfg) 0
                   dataset (initial_state cfg).

End Harness.

(** ** The comparison of the detectors *)




(* ================================================================== *)
(** * data/loaders.py *)
(* ================================================================== *)

(** The fields of [RealWorldDataset] that [evaluate_on_real_data]
    reads. *)
Record RealWorldDataset : Type := {
  ds_name : string;
  values : list float;
  known_transitions : list Z
}.

(** An entry of [results["per_dataset"]]. *)
Record DatasetResult : Type := {
  dr_name : string;
  n_transitions : nat;
  detected_indices : list Z;
  true_indices : list Z;
  hits : nat;
  misses : Z
}.

(** The dictionary [results] while the loop runs; [rw_detected] and
    [rw_detection_errors] are its keys ["detected"] and
    ["detection_errors"]. *)
Record RealDataCounts : Type := {
  total_transitions : nat;
  rw_detected : nat;
  false_alarms : nat;
  rw_detection_errors : list Z;
  per_dataset : list DatasetResult
}.

(** The dictionary returned: the counts and the summary.  [rw_recall] is
    a float, or the integer [0] when there is no transition. *)
Record RealDataResults : Type := {
  counts : RealDataCounts;
  mean_error : option float;
  std_error : option float;
  rw_recall : MetaValue
}.

(** The loop over [dataset.known_transitions]: it stops at the first
    true index within the tolerance of the detection. *)
Definition first_match (det_idx tolerance : Z) (known : list Z) : option Z :=
  find (fun true_idx => (Z.abs (det_idx - true_idx) <=? tolerance)%Z) known.

Section Loaders.
Context {NP : Numpy}.

(** The body of the loop over [datasets], for a detector given by its
    method [detect]. *)
Definition evaluate_one (detect_ : list float -> res DetectionResult)
    (tolerance : Z) (acc : RealDataCounts) (dataset : RealWorldDataset)
  : res RealDataCounts :=
  match known_transitions dataset with
  | [] => Ok acc
  | _ :: _ =>
      (detection <- detect_ (values dataset) ;;
       let n := length (known_transitions dataset) in
       let entry det_indices h m :=
         {| dr_name := ds_name dataset;
            n_transitions := n;
            detected_indices := det_indices;
            true_indices := known_transitions dataset;
            hits := h;
            misses := m |} in
       match detected detection, detection_index detection with
       | true, Some det_idx =>
           match first_match det_idx tolerance (known_transitions dataset) with
           | Some true_idx =>
               Ok {| total_transitions := total_transitions acc + n;
                     rw_detected := rw_detected acc + 1;
                     false_alarms := false_alarms acc;
                     rw_detection_errors :=
                       rw_detection_errors acc ++ [(det_idx - true_idx)%Z];
                     per_dataset :=
                       per_dataset acc
                       ++ [entry [det_idx] 1 (Z.of_nat n - 1)%Z] |}
           | None =>
               Ok {| total_transitions := total_transitions acc + n;
                     rw_detected := rw_detected acc;
                     false_alarms := false_alarms acc + 1;
                     rw_detection_errors := rw_detection_errors acc;
                     per_dataset :=
                       per_dataset acc
                       ++ [entry [det_idx] 0 (Z.of_nat n - 0)%Z] |}
           end
       | _, _ =>
           Ok {| total_transitions := total_transitions acc + n;
                 rw_detected := rw_detected acc;
                 false_alarms := false_alarms acc;
                 rw_detection_errors := rw_detection_errors acc;
                 per_dataset := per_dataset acc ++ [entry [] 0 (Z.of_nat n)] |}
       end)%res
  end.

(** [evaluate_on_real_data(datasets, detector, tolerance)] *)
Definition evaluate_on_real_data (datasets : list RealWorldDataset)
    (detect_ : list float -> res DetectionResult) (tolerance : Z)
  : res RealDataResults :=
  (c <- fold_res (evaluate_one detect_ tolerance) datasets
          {| total_transitions := 0; rw_detected := 0; false_alarms := 0;
             rw_detection_errors := []; per_dataset := [] |} ;;
   let errors := map of_Z (rw_detection_errors c) in
   Ok {| counts := c;
         mean_error := if 0 <? rw_detected c then Some (np_mean errors)
                       else None;
         std_error := if 0 <? rw_detected c then Some (np_std errors)
                      else None;
         rw_recall :=
           if 0 <? total_transitions c
           then MFloat (py_truediv (Z.of_nat (rw_detected c))
                                   (Z.of_nat (total_transitions c)))
           else MInt 0 |})%res.
End Loaders.

(* ================================================================== *)
(** * A reference implementation of the NumPy operations *)
(* ================================================================== *)

(** The reductions below add from left to right.  NumPy adds in another
    order (pairwise, by blocks), so the two agree bit for bit on the
    inputs whose partial sums are all exact, which is the case of the
    integer-valued signals on which the statements of the specification
    are refuted below, and agree up to rounding elsewhere.  The random
    generator is a stand-in: the runs that use it illustrate statements
    proved for every instance of [Numpy]. *)
Module Ref.
Definition sum (l : list float) : float := fold_left fadd l fzero.

Definition mean (l : list float) : float :=
  (sum l / of_nat (length l))%f64.

Definition var (l : list float) : float :=
  let m := mean l in
  mean (map (fun x => ((x - m) * (x - m))%f64) l).

Definition std (l : list float) : float := fsqrt (var l).

Definition nanmean (l : list float) : float := mean (drop_nan l).

Definition nanstd (l : list float) : float := std (drop_nan l).

Fixpoint insert (x : float) (l : list float) : list float :=
  match l with
  | [] => [x]
  | y :: l' => if (x <? y)%f64 then x :: l else y :: insert x l'
  end.

Definition sort (l : list float) : list float :=
  fold_left (fun acc x => insert x acc) l [].

Definition nanmedian (l : list float) : float :=
  let v := sort (drop_nan l) in
  let n := length v in
  if n =? 0 then nan
  else if Nat.odd n then nth (n / 2) v nan
  else ((nth (n / 2 - 1) v nan + nth (n / 2) v nan) / f_2)%f64.

(** Entry [t] of the full convolution: the sum of [a[i] * v[t - i]]
    over the positions that exist. *)
Definition conv_at (a v : list float) (t : nat) : float :=
  fold_left
    (fun acc i =>
       if (i <=? t) && (t - i <? length v)
       then (acc + nth i a nan * nth (t - i) v nan)%f64
       else acc)
    (range 0 (length a)) fzero.

Definition convolve_same (a v : list float) : res (list float) :=
  match a, v with
  | [], _ | _, [] => Raise ValueError
  | _, _ =>
      let m := Nat.max (length a) (length v) in
      let k := Nat.min (length a) (length v) in
      Ok (map (fun i => conv_at a v (i + (k - 1) / 2)) (range 0 m))
  end.

(** [x ** k] by repeated multiplication. *)
Fixpoint pow_nat (x : float) (k : nat) : float :=
  match k with
  | 0 => f_1
  | 1 => x
  | S k' => (pow_nat x k' * x)%f64
  end.

Definition power (x : float) (k : Z) : float := pow_nat x (Z.to_nat k).

Definition hypot (x y : float) : float := fsqrt (x * x + y * y)%f64.

(** A stand-in for [exp]: exact at [0] and NaN elsewhere, so that no
    run can rest on a value it does not know. *)
Definition exp (x : float) : float :=
  match x with
  | S754_zero _ => f_1
  | _ => nan
  end.

(** A small congruential generator over [0, 2^16), and draws that are
    multiples of [2^-8] in [-128, 128). *)
Definition seed (s : Z) : res Z :=
  if ((0 <=? s) && (s <? 2 ^ 32))%Z then Ok (s mod 65536)%Z
  else Raise ValueError.

Definition randn (g : Z) : float * Z :=
  let g' := ((g * 25173 + 13849) mod 65536)%Z in
  (SFldexp 53 1024 (of_Z (g' - 32768)%Z) (-8), g').

Definition randint (lo hi : Z) (g : Z) : res (Z * Z) :=
  let g' := ((g * 25173 + 13849) mod 65536)%Z in
  if (lo <? hi)%Z then Ok ((lo + g' mod (hi - lo))%Z, g')
  else Raise ValueError.

Definition uniform (lo hi : float) (g : Z) : float * Z :=
  let g' := ((g * 25173 + 13849) mod 65536)%Z in
  ((lo + (hi - lo) * SFldexp 53 1024 (of_Z g') (-16))%f64, g').
End Ref.

(* ================================================================== *)
(** * Properties stated about the detector bank *)
(* ================================================================== *)

(** The window of [k] samples that starts at position [i]. *)
Definition window_at (sig : list float) (i k : nat) : list float :=
  slice sig i (i + k).

(** The test [find_sustained_crossing] applies at position [i]: the
    sample at [i] is not NaN, at least [k // 2] samples of the window are
    not NaN, and the number of samples of the window that pass the
    directional test, divided by [k], exceeds [0.7] (a NaN sample does not
    pass: a comparison with NaN is false). *)
Definition sustained_ok (sig : list float) (thr : float)
    (direction : Direction) (k i : nat) : bool :=
  negb (isnan (nth i sig nan))
  && (k / 2 <=? count_valid (window_at sig i k))
  && (of_nat (count_true (map (crosses direction thr) (window_at sig i k)))
      / of_nat k >? f_0_7)%f64.



(** The earlier of two optional indices. *)
Definition earliest (a b : option nat) : option nat :=
  match a, b with
  | Some x, Some y => Some (Nat.min x y)
  | Some x, None => Some x
  | None, Some y => Some y
  | None, None => None
  end.

(** The specification's reading of the confidence of
    [VarianceRatioDetector]: [|1 - ratio|] at the reported index. *)
Definition VarianceRatio_confidence_is_deviation {NP : Numpy} : Prop :=
  forall d sig r i,
    VarianceRatioDetector_detect d sig = Ok r ->
    detection_index r = Some (Z.of_nat i) ->
    confidence r = SFabs (f_1 - nth i (vr_ratio d sig) nan)%f64.

(** The specification's reading of graceful degradation: on a signal
    shorter than three windows a base detector returns, and does not
    fire. *)
Definition degrades_below_three_windows {NP : Numpy} : Prop :=
  forall d sig,
    length sig < 3 * window_of d ->
    exists r, detect d sig = Ok r /\ detected r = false.

(** The parameters for which the constructors are meant: a threshold
    whose inverse exists, a smoothing kernel of at least two taps (and a
    size NumPy can allocate), and a positive minimum segment. *)
Definition detector_ok (d : BaseDetector) : Prop :=
  match d with
  | DVarianceRatio d => is_zero (vr_threshold d) = false
  | DVarianceInflection d =>
      2 <= vi_smooth_window d /\
      (Z.of_nat (vi_smooth_window d) < 2 ^ 63)%Z
  | DChangePoint d => 1 <= cp_min_segment d
  | _ => True
  end.

(** [a, -a, a, ...]: [n] samples of alternating sign. *)
Fixpoint alternating (a : Z) (n : nat) : list Z :=
  match n with
  | 0 => []
  | S n' => a :: alternating (- a) n'
  end.

(** 130 samples alternating between 5 and -5, then 70 samples alternating
    between 10 and -10: the variance of a window of 40 goes from 25 to
    100. *)
Definition signal_variance_up : list float :=
  map of_Z (alternating 5 130 ++ alternating 10 70).

(** 60 samples alternating between 5 and -5, then 59 zeros: 119 samples,
    the variance of a window of 40 goes from 25 to 0. *)
Definition signal_variance_down : list float :=
  map of_Z (alternating 5 60 ++ repeat 0%Z 59).

(** ** The ensemble's vote *)

(** A sub-detector votes when it fired with an index. *)
Definition voted (r : DetectionResult) : bool :=
  detected r &&
  match detection_index r with Some _ => true | None => false end.

(** The number of votes among the sub-detectors' results. *)
Definition votes (results : list DetectionResult) : nat :=
  length (filter voted results).

(** The least integer that is not below [z * 2^e]. *)
Definition ceil_scaled (z e : Z) : Z :=
  if (0 <=? e)%Z then (z * 2 ^ e)%Z else (- ((- z) / 2 ^ (- e)))%Z.

(** [math.ceil(x)] *)
Definition py_ceil (x : float) : res Z :=
  match x with
  | S754_zero _ => Ok 0%Z
  | S754_finite s m e => Ok (ceil_scaled (if s then Zneg m else Zpos m) e)
  | S754_infinity _ => Raise OverflowError
  | S754_nan => Raise ValueError
  end.

(** The floats of Python are the binary64 values. *)
Definition is_float64 (x : float) : bool := valid_binary 53 1024 x.

(* ================================================================== *)
(** * Properties stated about the harness *)
(* ================================================================== *)

(** The three outcomes of a pair (simulation, detector). *)
Inductive Outcome : Type := TruePositive | FalsePositive | FalseNegative.

(** The outcome at tolerance [T] of a detection against the true index. *)
Definition classify (T : Z) (detection : DetectionResult) (true_idx : Z)
  : Outcome :=
  match detected detection, detection_index detection with
  | true, Some idx =>
      if (Z.abs (idx - true_idx) <=? T)%Z then TruePositive
      else FalsePositive
  | _, _ => FalseNegative
  end.

(** The configuration [cfg] with another tolerance. *)
Definition with_tolerance (cfg : ExperimentConfig) (T : Z) : ExperimentConfig :=
  {| detector_types := detector_types cfg;
     detector_params := detector_params cfg;
     n_simulations := n_simulations cfg;
     transition_types := transition_types cfg;
     noise_levels := noise_levels cfg;
     durations := durations cfg;
     detection_tolerance := T;
     experiment_seed := experiment_seed cfg |}.

(** [a/b <= c/d] for counts, a quotient with a zero denominator being
    [0] as in [precision] and [recall]. *)
Definition ratio_le (a b c d : nat) : Prop :=
  (if b =? 0 then 0 else a) * (if d =? 0 then 1 else d)
  <= (if d =? 0 then 0 else c) * (if b =? 0 then 1 else b).

(* ================================================================== *)
(** * Sample inputs *)
(* ================================================================== *)

(** 16 samples alternating between 5 and -5, then 14 zeros. *)
Definition signal_small : list float :=
  map of_Z (alternating 5 16 ++ repeat 0%Z 14).

(** A variance-ratio detector and an ensemble with windows of 4 samples. *)
Definition vr_small : VarianceRatioDetector :=
  {| vr_window := 4; vr_baseline_window := 8;
     vr_threshold := f_0_4; vr_sustain := 2 |}.

Definition en_small : EnsembleDetector :=
  {| en_window := 4; en_threshold := f_0_3; en_weights := default_weights |}.

(** A seeded pitchfork simulation of 6 steps. *)
Definition cfg_small : SimulationConfig :=
  {| transition_type := PITCHFORK; duration := 6; dt := f_0_01;
     noise_level := f_0_1; transition_fraction := f_0_5;
     seed := Some 42%Z |}.

(** A simulation result whose state is [signal_small], with its
    transition at 12. *)
Definition sim_small : SimulationResult :=
  {| time := time_axis 30 f_0_01;
     state := signal_small;
     control_param := np_linspace fzero f_1 30;
     transition_index := 12;
     result_transition_type := COMMITMENT;
     config := cfg_small;
     variance_trajectory := [] |}.

(** An experiment of two simulations of 30 to 39 steps, evaluated with
    the two detectors above. *)
Definition exp_small : ExperimentConfig :=
  {| detector_types := [VARIANCE_RATIO; ENSEMBLE];
     detector_params := [(VARIANCE_RATIO, Base (DVarianceRatio vr_small));
                         (ENSEMBLE, Ensemble en_small)];
     n_simulations := 2;
     transition_types := Some [PITCHFORK; COMMITMENT];
     noise_levels := [f_0_1];
     durations := (30, 40)%Z;
     detection_tolerance := 3;
     experiment_seed := 42 |}.

(** Seeded simulations of 6 steps of the saddle-node and commitment
    archetypes, and a commitment simulation of no step. *)
Definition cfg_saddle_node : SimulationConfig :=
  {| transition_type := SADDLE_NODE; duration := 6; dt := f_0_01;
     noise_level := f_0_1; transition_fraction := f_0_5;
     seed := Some 42%Z |}.

Definition cfg_commitment : SimulationConfig :=
  {| transition_type := COMMITMENT; duration := 6; dt := f_0_01;
     noise_level := f_0_1; transition_fraction := f_0_5;
     seed := Some 42%Z |}.

Definition cfg_empty : SimulationConfig :=
  {| transition_type := COMMITMENT; duration := 0; dt := f_0_01;
     noise_level := f_0_1; transition_fraction := f_0_5;
     seed := Some 42%Z |}.

(** Counts of a detector: 3 true positives, 1 false positive, 2 false
    negatives. *)
Definition metrics_small : EvaluationMetrics :=
  {| em_detector_type := CUSUM;
     true_positives := 3; false_positives := 1;
     false_negatives := 2; true_negatives := 0 |}.

(** Three datasets on [signal_small]: two known transitions, none, and
    one. *)
Definition datasets_small : list RealWorldDataset :=
  [{| ds_name := "a"; values := signal_small;
      known_transitions := [3; 17]%Z |};
   {| ds_name := "b"; values := signal_small; known_transitions := [] |};
   {| ds_name := "c"; values := signal_small;
      known_transitions := [25]%Z |}].

(* ================================================================== *)
(** * Predicates used in the proofs *)
(* ================================================================== *)

(** A float that is [+0] or positive and finite, below [2^B]. *)
Definition fbound (x : float) (B : Z) : Prop :=
  match x with
  | S754_zero false => True
  | S754_finite false m e => (Zdigits2 (Z.pos m) + e <= B)%Z
  | _ => False
  end.

(** A float that is a zero, or positive (finite or not). *)
Definition fnonneg (x : float) : Prop :=
  match x with
  | S754_zero _ | S754_infinity false | S754_finite false _ _ => True
  | _ => False
  end.

(** The location of a remainder [r] of a division by [D]: exact, or
    below, at or above the half. *)
Definition locn (r D : Z) : location :=
  if (r =? 0)%Z then loc_Exact else loc_Inexact (2 * r ?= D)%Z.

(** The integer nearest to [N / D], ties to even. *)
Definition rne (N D : Z) : Z :=
  round_nearest_even (N / D) (locn (N mod D) D).

(** A shift record that stands for the quotient [N / D]. *)
Definition repr (mrs : shr_record) (N D : Z) : Prop :=
  (0 <= N)%Z /\ (0 < D)%Z /\
  shr_m mrs = (N / D)%Z /\ loc_of_shr_record mrs = locn (N mod D) D.

(** An input of the rounding in the normal range: the mantissa [m] has at
    least 53 digits, and the exponent of the result is that of a normal
    number. *)
Definition normal_input (m e : Z) : Prop :=
  (53 <= Zdigits2 m /\ -1074 <= Zdigits2 m + e - 53 <= 970)%Z.

(** A float with a full mantissa. *)
Definition normal_float (m : positive) (e : Z) : Prop :=
  (Zdigits2 (Z.pos m) = 53 /\ -500 <= e <= 400)%Z.

(** The quotient of two counts, [0.0] when the second is zero: the
    shape of [precision] and of [recall]. *)
Definition count_ratio (a b : nat) : float :=
  if 0 <? b then (of_nat a / of_nat b)%f64 else fzero.

(** What is checked on each of the six quotients [k / 6], of mantissa
    [mq] and exponent [eq]: the ceiling of six times the quotient, and of
    six times the floats just below it, is at most [k]. *)
Definition ceil_side (k : Z) (mq : positive) (eq : Z) : bool :=
  ((1 <=? k) && (k <=? 8) && (eq <=? 0))%Z &&
  match py_ceil (S754_finite false mq eq * of_nat 6)%f64 with
  | Ok c => (c <=? k)%Z
  | Raise _ => false
  end &&
  ((Z.pos mq - 1) * 6755399441055744 <? k * 2 ^ (50 - eq))%Z &&
  (2 ^ 53 * 6755399441055744 <=? k * 2 ^ (51 - eq))%Z.

(** The index is present if and only if the detector fired. *)
Definition index_iff (r : DetectionResult) : Prop :=
  detection_index r <> None <-> detected r = true.

(** The counter incremented for an outcome. *)
Definition bump (o : Outcome) : EvaluationMetrics -> EvaluationMetrics :=
  match o with
  | TruePositive => add_tp
  | FalsePositive => add_fp
  | FalseNegative => add_fn
  end.

(** The number of pairs a metrics record has counted. *)
Definition pairs_counted (m : EvaluationMetrics) : nat :=
  true_positives m + false_positives m + false_negatives m.

(** Membership of a key in a dictionary, as a boolean. *)
Definition has_key {V} (d : dict V) (k : DetectorType) : bool :=
  existsb (fun kv => DetectorType_eqb (fst kv) k) d.


(** The counts of a detector at a tolerance and at a wider one. *)
Definition widened (m1 m2 : EvaluationMetrics) : Prop :=
  true_positives m1 <= true_positives m2 /\
  false_positives m2 <= false_positives m1 /\
  false_negatives m1 = false_negatives m2 /\
  true_positives m1 + false_positives m1
  = true_positives m2 + false_positives m2.

Definition widened_opt (o1 o2 : option EvaluationMetrics) : Prop :=
  match o1, o2 with
  | Some m1, Some m2 => widened m1 m2
  | None, None => True
  | _, _ => False
  end.

(** The statement of the length invariants for one archetype. *)
Definition keeps_lengths {NP : Numpy}
    (simulator : SimulationConfig -> sim SimulationResult) : Prop :=
  forall cfg g r g',
    0 < duration cfg ->
    simulator cfg g = Ok (r, g') ->
    length (time r) = duration cfg /\
    length (state r) = duration cfg /\
    length (control_param r) = duration cfg /\
    length (variance_trajectory r) = duration cfg /\
    (0 <= transition_index r < Z.of_nat (duration cfg))%Z.

(* ================================================================== *)
(** * Predicates of the further properties *)
(* ================================================================== *)

(** A number of samples below which a base detector cannot fire. *)
Definition min_samples (d : BaseDetector) : nat :=
  match d with
  | DVarianceRatio d =>
      Nat.max (Nat.max (vr_baseline_window d) (vr_sustain d)) (vr_window d)
      + vr_sustain d + 1
  | DVarianceDerivative d => vd_derivative_window d + vd_window d + 1
  | DVarianceInflection d => vi_window d + 1
  | DRollingZScore d =>
      Nat.max (zs_zscore_window d + zs_window d) (zs_sustain d)
      + zs_sustain d + 1
  | DCUSUM d => cu_window d + 20
  | DChangePoint d => cp_window d + 2 * cp_min_segment d
  end.

(** A position before which a base detector reports no transition: the
    trace it thresholds is NaN there, or the search starts later. *)
Definition warm_up (d : BaseDetector) : nat :=
  match d with
  | DVarianceRatio d =>
      Nat.max (Nat.max (vr_baseline_window d) (vr_sustain d)) (vr_window d)
  | DVarianceDerivative d => vd_derivative_window d + vd_window d
  | DVarianceInflection d => 0
  | DRollingZScore d =>
      Nat.max (zs_zscore_window d + zs_window d) (zs_sustain d)
  | DCUSUM d => cu_window d
  | DChangePoint d => 0
  end.

(** The samples a sustained crossing needs after the reported index. *)
Definition sustain_of (d : BaseDetector) : nat :=
  match d with
  | DVarianceRatio d => vr_sustain d
  | DRollingZScore d => zs_sustain d
  | _ => 0
  end.

(** A float that is NaN or lies between [lo] and [hi]: what [np.clip]
    returns. *)
Definition clipped (lo hi x : float) : Prop :=
  isnan x = true \/ ((lo <=? x)%f64 = true /\ (x <=? hi)%f64 = true).

(** A float that is [+0] or positive (finite or not). *)
Definition fpos0 (x : float) : Prop :=
  match x with
  | S754_zero false | S754_infinity false | S754_finite false _ _ => True
  | _ => False
  end.

(** The number of errors recorded for a detector over the archetypes:
    the sum of the [n_correct] of the per-type breakdown. *)
Definition per_type_total (f : TransitionType -> list Z) : nat :=
  list_sum (map (fun t => length (f t)) all_transition_types).

(** What the lists recorded for a detector are, against its counts at
    tolerance [T]. *)
Definition lists_match_counts (T : Z) (m : EvaluationMetrics)
    (errs : list Z) (confs : list (float * bool))
    (pte : TransitionType -> list Z) : Prop :=
  length errs = true_positives m /\
  Forall (fun e => (Z.abs e <= T)%Z) errs /\
  length confs = pairs_counted m /\
  count_true (map snd confs) = true_positives m /\
  per_type_total pte = true_positives m.

(** The record made for the simulation of rank [k] by the detectors
    [ds]: the fields of the simulation, and one entry per detector, made
    from the result of that detector on the state of the simulation. *)
Definition record_of {NP : Numpy} (ds : dict Detector) (k : nat)
    (sim_ : SimulationResult) (rec : SimRecord) : Prop :=
  simulation_id rec = k /\
  rec_transition_type rec = result_transition_type sim_ /\
  true_transition_index rec = transition_index sim_ /\
  rec_duration rec = duration (config sim_) /\
  rec_noise_level rec = noise_level (config sim_) /\
  Forall2 (fun (kd : DetectorType * Detector)
               (e : DetectorType * DetectionRecord) =>
             fst e = fst kd /\
             exists detection,
               Detector_detect (snd kd) (state sim_) = Ok detection /\
               snd e = detection_record detection (transition_index sim_))
          ds (detections rec).

(** The lists recorded in a state for a key match its counts, at
    tolerance [T]. *)
Definition lists_ok (T : Z) (st : HarnessState) (dtype : DetectorType)
  : Prop :=
  forall m errs confs pte,
    dict_lookup (metrics st) dtype = Some m ->
    dict_lookup (detection_errors st) dtype = Some errs ->
    dict_lookup (confidences st) dtype = Some confs ->
    dict_lookup (per_type_errors st) dtype = Some pte ->
    lists_match_counts T m errs confs pte.

(** The four dictionaries of a state have the keys [keys]. *)
Definition same_keys (st : HarnessState) (keys : list DetectorType) : Prop :=
  map fst (metrics st) = keys /\ map fst (detection_errors st) = keys /\
  map fst (confidences st) = keys /\ map fst (per_type_errors st) = keys.

(** The datasets the loop does not skip. *)
Definition has_transitions (dataset : RealWorldDataset) : bool :=
  match known_transitions dataset with [] => false | _ :: _ => true end.

(** The entries of [per_dataset] made from a detection with an index. *)
Definition fired (dr : DatasetResult) : bool :=
  match detected_indices dr with [] => false | _ :: _ => true end.

(** What the loop keeps true of the counts, at tolerance [T]. *)
Definition counts_ok (T : Z) (c : RealDataCounts) : Prop :=
  total_transitions c = list_sum (map n_transitions (per_dataset c)) /\
  rw_detected c = list_sum (map hits (per_dataset c)) /\
  rw_detected c + false_alarms c
  = length (filter fired (per_dataset c)) /\
  length (rw_detection_errors c) = rw_detected c /\
  Forall (fun e => (Z.abs e <= T)%Z) (rw_detection_errors c) /\
  Forall (fun dr => hits dr <= 1 /\ 1 <= n_transitions dr /\
                    (Z.of_nat (hits dr) + misses dr
                     = Z.of_nat (n_transitions dr))%Z /\
                    n_transitions dr = length (true_indices dr) /\
                    length (detected_indices dr) <= 1 /\
                    (hits dr = 1 -> fired dr = true))
         (per_dataset c).

(* ================================================================== *)
(** * Facts about floats and arrays *)
(* ================================================================== *)

Lemma fadd_nan_l x : fadd nan x = nan.
Proof. reflexivity. Qed.

Lemma fadd_nan_r x : fadd x nan = nan.
Proof. destruct x; reflexivity. Qed.

Lemma fmul_nan_l x : fmul nan x = nan.
Proof. reflexivity. Qed.

Lemma fsub_nan_l x : fsub nan x = nan.
Proof. reflexivity. Qed.

Lemma fsub_nan_r x : fsub x nan = nan.
Proof. destruct x; reflexivity. Qed.

Lemma fdiv_nan_l x : fdiv nan x = nan.
Proof. reflexivity. Qed.

Lemma SFltb_nan_l x : SFltb nan x = false.
Proof. reflexivity. Qed.

Lemma SFltb_nan_r x : SFltb x nan = false.
Proof. destruct x; reflexivity. Qed.

Lemma SFleb_nan_l x : SFleb nan x = false.
Proof. reflexivity. Qed.

Lemma SFleb_nan_r x : SFleb x nan = false.
Proof. destruct x; reflexivity. Qed.

Lemma isnan_true x : isnan x = true -> x = nan.
Proof. destruct x; simpl; intros H; try discriminate H; reflexivity. Qed.

Lemma length_range lo hi : length (range lo hi) = hi - lo.
Proof. unfold range. apply length_seq. Qed.

Lemma in_range i lo hi : In i (range lo hi) <-> lo <= i < hi.
Proof. unfold range. rewrite in_seq. lia. Qed.

Lemma drop_nan_all_nan l :
  Forall (fun x => isnan x = true) l -> drop_nan l = [].
Proof.
  induction 1 as [|x l Hx _ IH]; simpl; [reflexivity|].
  rewrite Hx. exact IH.
Qed.

Lemma count_valid_all_nan l :
  Forall (fun x => isnan x = true) l -> count_valid l = 0.
Proof.
  intros H. unfold count_valid. fold (drop_nan l).
  now rewrite drop_nan_all_nan.
Qed.

(** ** Rounding does not overflow on bounded values *)

Section FloatBounds.
Local Open Scope Z_scope.

Lemma digits2_pos_size p : digits2_pos p = Pos.size p.
Proof. induction p; simpl; congruence. Qed.

Lemma Zdigits2_log2 m : 0 < m -> Zdigits2 m = Z.log2 m + 1.
Proof.
  destruct m as [|p|p]; try lia. intros _. simpl.
  rewrite digits2_pos_size. destruct p; simpl; lia.
Qed.

Lemma Zdigits2_nonneg m : 0 <= Zdigits2 m.
Proof. destruct m; simpl; lia. Qed.

(** A non-negative integer below [2^d] has at most [d] binary digits. *)
Lemma Zdigits2_le m d : 0 <= m -> 0 <= d -> m < 2 ^ d -> Zdigits2 m <= d.
Proof.
  intros Hm Hd Hlt. destruct (Z.eq_dec m 0) as [->|Hne]; [simpl; lia|].
  rewrite Zdigits2_log2 by lia.
  assert (Z.log2 m < d) by (apply Z.log2_lt_pow2; lia). lia.
Qed.

Lemma Zdigits2_gt m : 0 <= m -> m < 2 ^ Zdigits2 m.
Proof.
  intros Hm. destruct (Z.eq_dec m 0) as [->|Hne]; [simpl; lia|].
  rewrite Zdigits2_log2 by lia.
  apply Z.log2_spec. lia.
Qed.

Lemma shr_1_m mrs : 0 <= shr_m mrs -> shr_m (shr_1 mrs) = shr_m mrs / 2.
Proof.
  destruct mrs as [m r s]. simpl. intros Hm.
  destruct m as [|p|p]; try lia; [reflexivity|].
  destruct p as [p|p|]; simpl.
  - rewrite Pos2Z.inj_xI. symmetry.
    replace (2 * Z.pos p + 1) with (1 + Z.pos p * 2) by lia.
    rewrite Z.div_add by lia. reflexivity.
  - rewrite Pos2Z.inj_xO. symmetry.
    replace (2 * Z.pos p) with (Z.pos p * 2) by lia.
    apply Z.div_mul. lia.
  - reflexivity.
Qed.

Lemma iter_shr_1_m k : forall mrs,
  0 <= shr_m mrs ->
  shr_m (iter_pos shr_1 k mrs) = shr_m mrs / 2 ^ Z.pos k.
Proof.
  induction k as [k IH|k IH|]; intros mrs Hm; simpl iter_pos.
  - assert (H1 : 0 <= shr_m (shr_1 mrs))
      by (rewrite shr_1_m by exact Hm; apply Z.div_pos; lia).
    assert (H2 : 0 <= shr_m (iter_pos shr_1 k (shr_1 mrs)))
      by (rewrite IH by exact H1; apply Z.div_pos; lia).
    rewrite IH by exact H2. rewrite IH by exact H1. rewrite shr_1_m by exact Hm.
    rewrite !Z.div_div by lia.
    f_equal. change (Z.pos k~1) with (2 * Z.pos k + 1).
    replace (2 * Z.pos k + 1) with (1 + Z.pos k + Z.pos k) by lia.
    rewrite !Z.pow_add_r by lia. lia.
  - assert (H2 : 0 <= shr_m (iter_pos shr_1 k mrs))
      by (rewrite IH by exact Hm; apply Z.div_pos; lia).
    rewrite IH by exact H2. rewrite IH by exact Hm.
    rewrite Z.div_div by lia.
    f_equal. change (Z.pos k~0) with (2 * Z.pos k).
    replace (2 * Z.pos k) with (Z.pos k + Z.pos k) by lia.
    rewrite Z.pow_add_r by lia. lia.
  - rewrite shr_1_m by exact Hm. reflexivity.
Qed.

(** The mantissa and the exponent after [shr]. *)
Lemma shr_spec mrs e n :
  0 <= shr_m mrs ->
  shr_m (fst (shr mrs e n)) = shr_m mrs / 2 ^ Z.max n 0 /\
  snd (shr mrs e n) = e + Z.max n 0.
Proof.
  intros Hm. destruct n as [|p|p]; simpl.
  - rewrite Z.div_1_r. split; [reflexivity|lia].
  - rewrite iter_shr_1_m by exact Hm. split; reflexivity.
  - rewrite Z.div_1_r. split; [reflexivity|lia].
Qed.

Lemma fexp_eq x : fexp 53 1024 x = Z.max (x - 53) (-1074).
Proof. reflexivity. Qed.

Lemma div_pow2_lt m d a :
  0 <= m -> m < 2 ^ d -> 0 <= a -> 0 <= d ->
  m / 2 ^ a < 2 ^ Z.max (d - a) 0.
Proof.
  intros Hm Hlt Ha Hd.
  apply Z.div_lt_upper_bound; [apply Z.pow_pos_nonneg; lia|].
  rewrite <- Z.pow_add_r by lia.
  apply Z.lt_le_trans with (1 := Hlt).
  apply Z.pow_le_mono_r; lia.
Qed.

Lemma round_nearest_even_bounds m l :
  m <= round_nearest_even m l <= m + 1.
Proof.
  unfold round_nearest_even. destruct l as [|[]]; try lia.
  destruct (Z.even m); lia.
Qed.

Lemma shr_m_record_of_loc m l : shr_m (shr_record_of_loc m l) = m.
Proof. destruct l as [|[]]; reflexivity. Qed.

(** Rounding a non-negative mantissa below [2^B] cannot overflow. *)
Lemma binary_round_aux_fbound M E l B :
  0 <= M -> E <= 971 -> Zdigits2 M + E <= B -> -1074 <= B <= 1023 ->
  fbound (binary_round_aux 53 1024 false M E l) (B + 1).
Proof.
  intros HM HE HB HBr. unfold binary_round_aux, shr_fexp.
  set (k1 := fexp 53 1024 (Zdigits2 M + E) - E).
  pose proof (shr_spec (shr_record_of_loc M l) E k1) as H1.
  rewrite shr_m_record_of_loc in H1. specialize (H1 HM).
  destruct (shr (shr_record_of_loc M l) E k1) as [mrs' e'].
  cbn [fst snd] in H1. destruct H1 as [Hm1 He'].
  set (m2 := round_nearest_even (shr_m mrs') (loc_of_shr_record mrs')).
  pose proof (round_nearest_even_bounds (shr_m mrs') (loc_of_shr_record mrs'))
    as Hm2. fold m2 in Hm2.
  pose proof (Zdigits2_nonneg M) as HD.
  pose proof (Zdigits2_gt _ HM) as HMlt.
  assert (Ha : 0 <= Z.max k1 0) by lia.
  pose proof (div_pow2_lt _ _ _ HM HMlt Ha HD) as Hm1lt.
  rewrite <- Hm1 in Hm1lt.
  assert (Hm1nn : 0 <= shr_m mrs')
    by (rewrite Hm1; apply Z.div_pos; [lia|apply Z.pow_pos_nonneg; lia]).
  assert (Hm2nn : 0 <= m2) by lia.
  assert (Hd2 : Zdigits2 m2 <= Z.max (Zdigits2 M - Z.max k1 0) 0 + 1).
  { apply Zdigits2_le; [lia|lia|].
    rewrite Z.pow_add_r by lia. change (2 ^ 1) with 2. lia. }
  set (k2 := fexp 53 1024 (Zdigits2 m2 + e') - e').
  pose proof (shr_spec (shr_record_of_loc m2 loc_Exact) e' k2) as H2.
  rewrite shr_m_record_of_loc in H2. specialize (H2 Hm2nn).
  destruct (shr (shr_record_of_loc m2 loc_Exact) e' k2) as [mrs'' e''].
  cbn [fst snd] in H2. destruct H2 as [Hm3 He''].
  pose proof (Zdigits2_nonneg m2) as HD2.
  pose proof (Zdigits2_gt _ Hm2nn) as Hm2lt.
  assert (Hb : 0 <= Z.max k2 0) by lia.
  pose proof (div_pow2_lt _ _ _ Hm2nn Hm2lt Hb HD2) as Hm3lt.
  rewrite <- Hm3 in Hm3lt.
  assert (Hm3nn : 0 <= shr_m mrs'')
    by (rewrite Hm3; apply Z.div_pos; [lia|apply Z.pow_pos_nonneg; lia]).
  unfold k1, k2 in *. rewrite !fexp_eq in *.
  destruct (shr_m mrs'') as [|m3|m3] eqn:Em3; [exact I| |]. 2:{ exfalso. apply Hm3nn. reflexivity. }
  assert (Hpos : 0 < Zdigits2 m2 - Z.max (Z.max (Zdigits2 m2 + e' - 53) (-1074) - e') 0).
  { match goal with |- 0 < ?X => destruct (Z_lt_le_dec 0 X) as [Hlt|Hle] end;
      [exact Hlt|exfalso].
    rewrite Z.max_r in Hm3lt by exact Hle.
    change (2 ^ 0) with 1 in Hm3lt. lia. }
  assert (Hd3 : Zdigits2 (Z.pos m3)
                <= Zdigits2 m2 - Z.max (Z.max (Zdigits2 m2 + e' - 53) (-1074) - e') 0).
  { apply Zdigits2_le; [lia|lia|].
    rewrite Z.max_l in Hm3lt by lia. exact Hm3lt. }
  assert (He : e'' <= 971) by lia.
  apply Z.leb_le in He. change (1024 - 53) with 971. rewrite He.
  cbn [fbound]. lia.
Qed.

Lemma fbound_exponent x B :
  fbound x B -> match x with S754_finite _ _ e => e <= B - 1 | _ => True end.
Proof.
  destruct x as [s|s| |s m e]; try exact (fun _ => I).
  destruct s; cbn [fbound]; [contradiction|].
  intros H. assert (0 < Zdigits2 (Z.pos m)) by (simpl; lia). lia.
Qed.

Lemma Zdigits2_mul a b :
  0 <= a -> 0 <= b -> Zdigits2 (a * b) <= Zdigits2 a + Zdigits2 b.
Proof.
  intros Ha Hb.
  pose proof (Zdigits2_nonneg a). pose proof (Zdigits2_nonneg b).
  apply Zdigits2_le; [nia|lia|].
  rewrite Z.pow_add_r by lia.
  pose proof (Zdigits2_gt _ Ha). pose proof (Zdigits2_gt _ Hb). nia.
Qed.

(** The product of two bounded floats is bounded. *)
Lemma fmul_fbound x y B1 B2 :
  fbound x B1 -> fbound y B2 -> -1074 <= B1 + B2 <= 973 ->
  fbound (fmul x y) (B1 + B2 + 1).
Proof.
  intros Hx Hy HB.
  pose proof (fbound_exponent _ _ Hx) as Hex.
  pose proof (fbound_exponent _ _ Hy) as Hey.
  destruct x as [[]|[]| |[] mx ex]; try contradiction;
    destruct y as [[]|[]| |[] my ey]; try contradiction; try exact I.
  cbn [fbound] in Hx, Hy. unfold fmul. cbn [SFmul xorb].
  apply binary_round_aux_fbound; [lia|lia| |lia].
  rewrite Pos2Z.inj_mul.
  pose proof (Zdigits2_mul (Z.pos mx) (Z.pos my)). lia.
Qed.

Lemma Zpos_iter_xO m d : Z.pos (Pos.iter xO m d) = Z.pos m * 2 ^ Z.pos d.
Proof.
  induction d as [|d IH] using Pos.peano_ind.
  - simpl. lia.
  - rewrite Pos.iter_succ, Pos2Z.inj_xO, IH, Pos2Z.inj_succ.
    rewrite Z.pow_succ_r by lia. lia.
Qed.

(** [float(n)] of a natural number below [2^B] is bounded. *)
Lemma of_Z_fbound z B :
  0 <= z < 2 ^ B -> 0 <= B <= 1022 -> fbound (of_Z z) (B + 1).
Proof.
  intros Hz HB. unfold of_Z, binary_normalize.
  destruct z as [|p|p]; [exact I| |lia].
  unfold binary_round.
  assert (Hd : Zdigits2 (Z.pos p) <= B) by (apply Zdigits2_le; lia).
  change (Z.pos (digits2_pos p)) with (Zdigits2 (Z.pos p)).
  unfold shl_align.
  destruct (fexp 53 1024 (Zdigits2 (Z.pos p) + 0) - 0) as [|q|q] eqn:Eq.
  - apply binary_round_aux_fbound; lia.
  - apply binary_round_aux_fbound; lia.
  - apply binary_round_aux_fbound; [lia| | |lia].
    + rewrite fexp_eq in *. lia.
    + assert (Hq : Zdigits2 (Z.pos (Pos.iter xO p q)) <= Zdigits2 (Z.pos p) + Z.pos q).
      { pose proof (Zdigits2_nonneg (Z.pos p)).
        apply Zdigits2_le; [lia|lia|].
        rewrite Zpos_iter_xO, Z.pow_add_r by lia.
        pose proof (Zdigits2_gt (Z.pos p)).
        assert (0 < 2 ^ Z.pos q) by (apply Z.pow_pos_nonneg; lia). nia. }
      rewrite fexp_eq in *. lia.
Qed.

(** [int(x)] of a bounded float returns a non-negative integer. *)
Lemma py_int_fbound x B :
  fbound x B -> exists z, py_int x = Ok z /\ 0 <= z.
Proof.
  destruct x as [[]|[]| |[] m e]; try contradiction; intros _.
  - exists 0. split; [reflexivity|lia].
  - cbn [py_int]. eexists. split; [reflexivity|].
    destruct (0 <=? e) eqn:He.
    + apply Z.mul_nonneg_nonneg; [lia|]. apply Z.pow_nonneg. lia.
    + apply Z.div_pos; [lia|]. apply Z.pow_pos_nonneg; [lia|].
      apply Z.leb_gt in He. lia.
Qed.

Lemma fbound_f_0_15 : fbound f_0_15 0.
Proof. vm_compute. discriminate. Qed.

Lemma fbound_f_0_85 : fbound f_0_85 0.
Proof. vm_compute. discriminate. Qed.

(** [int(n * c)] returns, and is not negative, for the length [n] of a
    sequence and a constant [c] in [(0, 1)]. *)
Lemma py_int_scaled (n : nat) (c : float) :
  Z.of_nat n < 2 ^ 63 -> fbound c 0 ->
  exists z, py_int (of_nat n * c)%f64 = Ok z /\ 0 <= z.
Proof.
  intros Hn Hc. apply py_int_fbound with (B := 63 + 1 + 0 + 1).
  apply fmul_fbound; [|exact Hc|lia].
  apply of_Z_fbound; lia.
Qed.
End FloatBounds.

(** ** Rounding is monotone *)

Section RoundingOrder.
Local Open Scope Z_scope.

Lemma loc_of_shr_record_of_loc m l :
  loc_of_shr_record (shr_record_of_loc m l) = l.
Proof. destruct l as [|[]]; reflexivity. Qed.

Lemma repr_of_loc N D :
  0 <= N -> 0 < D ->
  repr (shr_record_of_loc (N / D) (locn (N mod D) D)) N D.
Proof.
  intros HN HD. unfold repr.
  rewrite shr_m_record_of_loc, loc_of_shr_record_of_loc. auto.
Qed.

Lemma shr_1_bits m r s :
  0 <= m ->
  shr_r (shr_1 (Build_shr_record m r s)) = Z.odd m /\
  shr_s (shr_1 (Build_shr_record m r s)) = r || s.
Proof.
  intros Hm. destruct m as [|p|p]; [split; reflexivity| |lia].
  destruct p; split; reflexivity.
Qed.

Lemma loc_bits m r s R D :
  0 <= R < D ->
  (loc_of_shr_record (Build_shr_record m r s) = locn R D <->
   r = (D <=? 2 * R) /\ s = negb (R =? 0) && negb (2 * R =? D)).
Proof.
  intros HR. unfold locn.
  destruct (Z.eqb_spec R 0) as [E0|E0];
    destruct (Z.leb_spec D (2 * R)) as [E1|E1];
    destruct (Z.eqb_spec (2 * R) D) as [E2|E2];
    destruct (Z.compare_spec (2 * R) D) as [E3|E3|E3]; try lia;
    destruct r, s; cbn; split; try discriminate; try reflexivity;
    try (intros [? ?]; discriminate); try (split; reflexivity).
Qed.

Lemma shr_1_repr mrs N D : repr mrs N D -> repr (shr_1 mrs) N (2 * D).
Proof.
  intros (HN & HD & Hm & Hl).
  assert (Hm0 : 0 <= shr_m mrs) by (rewrite Hm; apply Z.div_pos; lia).
  pose proof (shr_1_m mrs Hm0) as Hm'.
  destruct mrs as [m r s]. cbn [shr_m] in *.
  destruct (shr_1_bits m r s Hm0) as [Hr Hs].
  split; [exact HN|]. split; [lia|]. split.
  - rewrite Hm', Hm. rewrite Z.div_div by lia. f_equal. lia.
  - destruct (shr_1 {| shr_m := m; shr_r := r; shr_s := s |}) as [m' r' s'].
    cbn [shr_r shr_s shr_m] in *. subst r' s'.
    pose proof (Z.mod_pos_bound N D HD) as HR.
    pose proof (Z.mod_pos_bound N (2 * D) ltac:(lia)) as HR'.
    apply (loc_bits m r s _ _ HR) in Hl. destruct Hl as [Hr Hs].
    apply loc_bits; [exact HR'|].
    assert (E : N mod (2 * D) = N mod D + D * (if Z.odd m then 1 else 0)).
    { replace (2 * D) with (D * 2) by lia.
      rewrite Z.rem_mul_r by lia. rewrite <- Hm, Zmod_odd. reflexivity. }
    rewrite E in *. set (R := N mod D) in *. subst r s.
    destruct (Z.odd m);
      [replace (R + D * 1) with (R + D) by lia
      |replace (R + D * 0) with R by lia];
      repeat (match goal with
              | |- context [Z.leb ?a ?b] => destruct (Z.leb_spec a b)
              | |- context [Z.eqb ?a ?b] => destruct (Z.eqb_spec a b)
              end; try (exfalso; lia));
      split; reflexivity.
Qed.

Lemma iter_shr_1_repr p : forall mrs N D,
  repr mrs N D -> repr (iter_pos shr_1 p mrs) N (D * 2 ^ Z.pos p).
Proof.
  induction p as [p IH|p IH|]; intros mrs N D H; cbn [iter_pos].
  - apply shr_1_repr, IH, IH in H.
    replace (D * 2 ^ Z.pos p~1) with (2 * D * 2 ^ Z.pos p * 2 ^ Z.pos p);
      [exact H|].
    change (Z.pos p~1) with (2 * Z.pos p + 1).
    replace (2 * Z.pos p + 1) with (1 + Z.pos p + Z.pos p) by lia.
    rewrite !Z.pow_add_r by lia. lia.
  - apply IH, IH in H.
    replace (D * 2 ^ Z.pos p~0) with (D * 2 ^ Z.pos p * 2 ^ Z.pos p);
      [exact H|].
    change (Z.pos p~0) with (2 * Z.pos p).
    replace (2 * Z.pos p) with (Z.pos p + Z.pos p) by lia.
    rewrite !Z.pow_add_r by lia. lia.
  - apply shr_1_repr in H. replace (D * 2 ^ 1) with (2 * D) by lia. exact H.
Qed.

Lemma shr_repr mrs e n N D :
  repr mrs N D ->
  repr (fst (shr mrs e n)) N (D * 2 ^ Z.max n 0) /\
  snd (shr mrs e n) = e + Z.max n 0.
Proof.
  intros H. destruct n as [|p|p]; cbn [shr fst snd].
  - change (2 ^ Z.max 0 0) with 1. rewrite Z.mul_1_r. split; [exact H|lia].
  - rewrite Z.max_l by lia. split; [now apply iter_shr_1_repr|reflexivity].
  - rewrite Z.max_r by lia. change (2 ^ 0) with 1. rewrite Z.mul_1_r.
    split; [exact H|lia].
Qed.

(** Rounding to nearest even is monotone on quotients. *)
Lemma div_le_cross N1 D1 N2 D2 :
  0 <= N1 -> 0 < D1 -> 0 <= N2 -> 0 < D2 ->
  N1 * D2 <= N2 * D1 -> N1 / D1 <= N2 / D2.
Proof.
  intros H1 H2 H3 H4 H.
  apply Z.div_le_lower_bound; [exact H4|].
  pose proof (Z.mul_div_le N1 D1 H2) as Hq.
  assert (0 <= N1 / D1) by (apply Z.div_pos; lia).
  nia.
Qed.

Lemma rne_bounds N D : 0 < D -> N / D <= rne N D <= N / D + 1.
Proof. intros _. apply round_nearest_even_bounds. Qed.

Lemma rne_mono N1 D1 N2 D2 :
  0 <= N1 -> 0 < D1 -> 0 <= N2 -> 0 < D2 ->
  N1 * D2 <= N2 * D1 -> rne N1 D1 <= rne N2 D2.
Proof.
  intros H1 H2 H3 H4 H.
  pose proof (div_le_cross _ _ _ _ H1 H2 H3 H4 H) as Hq.
  pose proof (rne_bounds N1 D1 H2) as B1.
  pose proof (rne_bounds N2 D2 H4) as B2.
  destruct (Z.eq_dec (N1 / D1) (N2 / D2)) as [E|E]; [|lia].
  unfold rne in *. rewrite <- E in *.
  pose proof (Z.div_mod N1 D1 ltac:(lia)) as E1.
  pose proof (Z.div_mod N2 D2 ltac:(lia)) as E2.
  rewrite <- E in E2.
  pose proof (Z.mod_pos_bound N1 D1 H2) as R1.
  pose proof (Z.mod_pos_bound N2 D2 H4) as R2.
  set (q := N1 / D1) in *. set (r1 := N1 mod D1) in *.
  set (r2 := N2 mod D2) in *.
  assert (Hr : r1 * D2 <= r2 * D1) by nia.
  unfold locn, round_nearest_even.
  destruct (Z.eqb_spec r1 0) as [Z1|Z1]; destruct (Z.eqb_spec r2 0) as [Z2|Z2];
    destruct (Z.compare_spec (2 * r1) D1) as [C1|C1|C1];
    destruct (Z.compare_spec (2 * r2) D2) as [C2|C2|C2];
    destruct (Z.even q); try lia; try nia.
Qed.

Lemma Zdigits2_unique x k :
  0 <= k -> 2 ^ k <= x < 2 ^ (k + 1) -> Zdigits2 x = k + 1.
Proof.
  intros Hk Hx.
  assert (0 < 2 ^ k) by (apply Z.pow_pos_nonneg; lia).
  rewrite Zdigits2_log2 by lia.
  f_equal. apply Z.log2_unique; [exact Hk|]. rewrite <- Z.add_1_r. exact Hx.
Qed.

Lemma Zdigits2_lower x : 0 < x -> 2 ^ (Zdigits2 x - 1) <= x.
Proof.
  intros Hx. rewrite Zdigits2_log2 by exact Hx.
  replace (Z.log2 x + 1 - 1) with (Z.log2 x) by lia.
  apply Z.log2_spec. exact Hx.
Qed.

(** The result of rounding in the normal range: the rounded quotient,
    renormalised when it reaches [2^53]. *)
Lemma binary_round_aux_normal m e l N D :
  0 <= N -> 0 < D -> m = N / D -> l = locn (N mod D) D ->
  normal_input m e ->
  let E := Zdigits2 m + e - 53 in
  let R := rne N (D * 2 ^ (E - e)) in
  2 ^ 52 <= R <= 2 ^ 53 /\
  exists m3 e3,
    binary_round_aux 53 1024 false m e l = S754_finite false m3 e3 /\
    (if R =? 2 ^ 53 then Z.pos m3 = 2 ^ 52 /\ e3 = E + 1
     else Z.pos m3 = R /\ e3 = E).
Proof.
  intros HN HD Hm Hl [Hd HE] E R.
  assert (HRdef : R = rne N (D * 2 ^ (E - e))) by reflexivity.
  assert (HEdef : E = Zdigits2 m + e - 53) by reflexivity.
  clearbody R. clearbody E.
  assert (Hrep : repr (shr_record_of_loc m l) N D)
    by (subst m l; now apply repr_of_loc).
  unfold binary_round_aux, shr_fexp.
  set (k1 := fexp 53 1024 (Zdigits2 m + e) - e).
  assert (Hk1 : k1 = E - e) by (unfold k1; rewrite fexp_eq; lia).
  destruct (shr_repr _ e k1 _ _ Hrep) as [H1 He'].
  destruct (shr (shr_record_of_loc m l) e k1) as [mrs' e'].
  cbn [fst snd] in H1, He'.
  rewrite Hk1 in H1, He'.
  assert (Ha : 0 <= E - e) by lia.
  rewrite Z.max_l in H1, He' by exact Ha.
  assert (He'E : e' = E) by lia. clear He'. subst e'.
  destruct H1 as (_ & HD' & Hm1 & Hl1).
  assert (HR : round_nearest_even (shr_m mrs') (loc_of_shr_record mrs') = R)
    by (rewrite HRdef; unfold rne; now rewrite Hm1, Hl1).
  rewrite HR.
  assert (Hmpos : 0 < m).
  { assert (0 <= m) by (rewrite Hm; apply Z.div_pos; lia).
    destruct m as [|p|p]; cbn in Hd; lia. }
  pose proof (Zdigits2_lower m Hmpos) as Hlo.
  pose proof (Zdigits2_gt m ltac:(lia)) as Hhi.
  assert (Hpa : 0 < 2 ^ (E - e)) by (apply Z.pow_pos_nonneg; lia).
  assert (Hm1b : 2 ^ 52 <= N / (D * 2 ^ (E - e)) < 2 ^ 53).
  { rewrite <- Z.div_div by lia. rewrite <- Hm.
    replace (Zdigits2 m - 1) with (52 + (E - e)) in Hlo by lia.
    replace (Zdigits2 m) with (53 + (E - e)) in Hhi by lia.
    rewrite Z.pow_add_r in Hlo, Hhi by lia.
    split.
    - apply Z.div_le_lower_bound; [exact Hpa|lia].
    - apply Z.div_lt_upper_bound; [exact Hpa|lia]. }
  pose proof (rne_bounds N (D * 2 ^ (E - e)) HD') as HRb.
  rewrite <- HRdef in HRb.
  assert (HRr : 2 ^ 52 <= R <= 2 ^ 53) by lia.
  split; [exact HRr|].
  assert (Hrep2 : repr (shr_record_of_loc R loc_Exact) R 1).
  { unfold repr. rewrite shr_m_record_of_loc, loc_of_shr_record_of_loc.
    rewrite Z.div_1_r, Z.mod_1_r. repeat split; try lia. }
  set (k2 := fexp 53 1024 (Zdigits2 R + E) - E).
  destruct (shr_repr _ E k2 _ _ Hrep2) as [H2 He''].
  destruct (shr (shr_record_of_loc R loc_Exact) E k2) as [mrs'' e''].
  cbn [fst snd] in H2, He''. destruct H2 as (_ & _ & Hm3 & _).
  rewrite Z.mul_1_l in Hm3. cbv beta iota.
  destruct (Z.eqb_spec R (2 ^ 53)) as [E53|E53].
  - assert (Hd2 : Zdigits2 R = 54)
      by (apply (Zdigits2_unique R 53); [lia|rewrite E53; cbn; lia]).
    assert (Hk2 : k2 = 1) by (unfold k2; rewrite Hd2, fexp_eq; lia).
    rewrite Hk2 in Hm3, He''. rewrite E53 in Hm3.
    change (2 ^ 53 / 2 ^ Z.max 1 0) with (2 ^ 52) in Hm3.
    change (Z.max 1 0) with 1 in He''.
    rewrite Hm3. change (2 ^ 52) with (Z.pos (Z.to_pos (2 ^ 52))).
    cbv iota.
    assert (Hle : (e'' <=? 1024 - 53) = true) by (apply Z.leb_le; lia).
    rewrite Hle. eexists _, _. split; [reflexivity|]. split; [reflexivity|lia].
  - assert (Hd2 : Zdigits2 R = 53)
      by (apply (Zdigits2_unique R 52); [lia|cbn; lia]).
    assert (Hk2 : k2 = 0) by (unfold k2; rewrite Hd2, fexp_eq; lia).
    rewrite Hk2 in Hm3, He''.
    change (2 ^ Z.max 0 0) with 1 in Hm3. rewrite Z.div_1_r in Hm3.
    change (Z.max 0 0) with 0 in He''.
    rewrite Hm3.
    assert (HRpos : 0 < R) by lia.
    destruct R as [|p|p]; try lia.
    assert (Hle : (e'' <=? 1024 - 53) = true) by (apply Z.leb_le; lia).
    rewrite Hle. eexists _, _. split; [reflexivity|]. split; [reflexivity|lia].
Qed.

Lemma SFleb_finite m1 e1 m2 e2 :
  e1 < e2 \/ (e1 = e2 /\ Z.pos m1 <= Z.pos m2) ->
  SFleb (S754_finite false m1 e1) (S754_finite false m2 e2) = true.
Proof.
  intros H. unfold SFleb, SFcompare.
  destruct (Z.compare_spec e1 e2) as [E|E|E]; [|reflexivity|lia].
  rewrite Pos.compare_cont_spec. cbn [Pos.switch_Eq].
  destruct (Pos.compare_spec m1 m2) as [C|C|C]; try reflexivity. lia.
Qed.

(** Rounding in the normal range is monotone: the two inputs stand for
    [N1 / D1 * 2^e1] and [N2 / D2 * 2^e2], compared after scaling by
    [2^-c]. *)
Lemma binary_round_aux_le m1 e1 l1 N1 D1 m2 e2 l2 N2 D2 c :
  0 <= N1 -> 0 < D1 -> m1 = N1 / D1 -> l1 = locn (N1 mod D1) D1 ->
  normal_input m1 e1 ->
  0 <= N2 -> 0 < D2 -> m2 = N2 / D2 -> l2 = locn (N2 mod D2) D2 ->
  normal_input m2 e2 ->
  c <= e1 -> c <= e2 ->
  N1 * D2 * 2 ^ (e1 - c) <= N2 * D1 * 2 ^ (e2 - c) ->
  SFleb (binary_round_aux 53 1024 false m1 e1 l1)
        (binary_round_aux 53 1024 false m2 e2 l2) = true.
Proof.
  intros HN1 HD1 Hm1 Hl1 Hn1 HN2 HD2 Hm2 Hl2 Hn2 Hc1 Hc2 H.
  destruct (binary_round_aux_normal m1 e1 l1 N1 D1 HN1 HD1 Hm1 Hl1 Hn1)
    as (HR1 & m31 & e31 & -> & Hres1).
  destruct (binary_round_aux_normal m2 e2 l2 N2 D2 HN2 HD2 Hm2 Hl2 Hn2)
    as (HR2 & m32 & e32 & -> & Hres2).
  destruct Hn1 as [Hd1 HE1]. destruct Hn2 as [Hd2 HE2].
  set (E1 := Zdigits2 m1 + e1 - 53) in *.
  set (E2 := Zdigits2 m2 + e2 - 53) in *.
  assert (HE1def : E1 = Zdigits2 m1 + e1 - 53) by reflexivity.
  assert (HE2def : E2 = Zdigits2 m2 + e2 - 53) by reflexivity.
  clearbody E1 E2.
  set (R1 := rne N1 (D1 * 2 ^ (E1 - e1))) in *.
  set (R2 := rne N2 (D2 * 2 ^ (E2 - e2))) in *.
  assert (Hm1nn : 0 <= m1) by (rewrite Hm1; apply Z.div_pos; lia).
  assert (Hm2nn : 0 <= m2) by (rewrite Hm2; apply Z.div_pos; lia).
  assert (Hm1pos : 0 < m1) by (destruct m1; cbn in Hd1; lia).
  assert (Hm2pos : 0 < m2) by (destruct m2; cbn in Hd2; lia).
  pose proof (Zdigits2_lower m1 Hm1pos) as Lo1.
  pose proof (Zdigits2_gt m2 Hm2nn) as Hi2.
  pose proof (Z.mul_div_le N1 D1 HD1) as Fl1. rewrite <- Hm1 in Fl1.
  pose proof (Z.mul_succ_div_gt N2 D2 HD2) as Fl2. rewrite <- Hm2 in Fl2.
  set (A := 2 ^ (e1 - c)) in *. set (B := 2 ^ (e2 - c)) in *.
  assert (HA : 0 < A) by (apply Z.pow_pos_nonneg; lia).
  assert (HB : 0 < B) by (apply Z.pow_pos_nonneg; lia).
  (* the exponents are ordered as the values *)
  assert (HEle : E1 <= E2).
  { destruct (Z_le_gt_dec E1 E2) as [Hle|Hgt]; [exact Hle|exfalso].
    set (P1 := 2 ^ (Zdigits2 m1 - 1)) in *.
    set (Q2 := 2 ^ Zdigits2 m2) in *.
    assert (HPQ : Q2 * B <= P1 * A).
    { unfold Q2, B, P1, A. rewrite <- !Z.pow_add_r by lia.
      apply Z.pow_le_mono_r; lia. }
    assert (HP1 : 0 < P1) by (apply Z.pow_pos_nonneg; lia).
    assert (S1 : D1 * D2 * (P1 * A) <= N1 * D2 * A).
    { assert (D1 * P1 <= N1) by nia.
      assert (0 <= D2 * A) by nia. nia. }
    assert (S2 : N2 * D1 * B < D1 * D2 * (Q2 * B)).
    { assert (N2 < D2 * Q2) by nia.
      assert (0 < D1 * B) by nia. nia. }
    assert (S3 : D1 * D2 * (Q2 * B) <= D1 * D2 * (P1 * A)).
    { apply Z.mul_le_mono_nonneg_l; [nia|exact HPQ]. }
    lia. }
  apply SFleb_finite.
  destruct (Z.eq_dec E1 E2) as [Eeq|Ene].
  - (* same exponent: the mantissas are ordered *)
    assert (HR : R1 <= R2).
    { unfold R1, R2. 
      assert (Hp1 : 0 < 2 ^ (E1 - e1)) by (apply Z.pow_pos_nonneg; lia).
      assert (Hp2 : 0 < 2 ^ (E2 - e2)) by (apply Z.pow_pos_nonneg; lia).
      apply rne_mono; try lia; try nia.
      set (a1 := 2 ^ (E1 - e1)) in *. set (a2 := 2 ^ (E2 - e2)) in *.
      assert (HK : A * a1 = B * a2).
      { unfold A, a1, B, a2. rewrite <- !Z.pow_add_r by lia.
        f_equal. lia. }
      assert (T : (N1 * D2 * A) * (a1 * a2) <= (N2 * D1 * B) * (a1 * a2)).
      { apply Z.mul_le_mono_nonneg_r; [nia|exact H]. }
      assert (HKpos : 0 < A * a1) by nia.
      apply Z.mul_le_mono_pos_r with (p := A * a1); [exact HKpos|].
      replace (N1 * (D2 * a2) * (A * a1)) with (N1 * D2 * A * (a1 * a2))
        by ring.
      replace (N2 * (D1 * a1) * (A * a1)) with (N2 * D1 * (A * a1) * a1)
        by ring.
      rewrite HK.
      replace (N2 * D1 * (B * a2) * a1) with (N2 * D1 * B * (a1 * a2))
        by ring.
      exact T. }
    destruct (Z.eqb_spec R1 (2 ^ 53)) as [C1|C1];
      destruct (Z.eqb_spec R2 (2 ^ 53)) as [C2|C2];
      destruct Hres1 as [M1 X1]; destruct Hres2 as [M2 X2]; lia.
  - destruct (Z.eqb_spec R1 (2 ^ 53)) as [C1|C1];
      destruct (Z.eqb_spec R2 (2 ^ 53)) as [C2|C2];
      destruct Hres1 as [M1 X1]; destruct Hres2 as [M2 X2]; lia.
Qed.

Lemma new_location_locn D r :
  0 < D -> 0 <= r < D -> new_location D r = locn r D.
Proof.
  intros HD Hr. unfold new_location, new_location_even, new_location_odd, locn.
  destruct (Z.even D) eqn:Ev; [reflexivity|].
  destruct (Z.eqb_spec r 0) as [E0|E0]; [reflexivity|].
  pose proof (Zmod_even D) as Hmod. rewrite Ev in Hmod. cbv iota in Hmod.
  pose proof (Z.div_mod D 2 ltac:(lia)) as Hdm.
  f_equal.
  destruct (Z.compare_spec (2 * r + 1) D) as [C|C|C];
    destruct (Z.compare_spec (2 * r) D) as [C'|C'|C']; try reflexivity;
    exfalso; lia.
Qed.

Lemma normal_float_bounds m e :
  normal_float m e -> 2 ^ 52 <= Z.pos m < 2 ^ 53.
Proof.
  intros [Hd _]. split.
  - pose proof (Zdigits2_lower (Z.pos m) ltac:(lia)) as H.
    now rewrite Hd in H.
  - pose proof (Zdigits2_gt (Z.pos m) ltac:(lia)) as H.
    now rewrite Hd in H.
Qed.

(** The quotient of two floats with full mantissas, as a rounding. *)
Lemma fdiv_normal ma ea mb eb :
  normal_float ma ea -> normal_float mb eb ->
  let N := Z.pos ma * 2 ^ 53 in
  let D := Z.pos mb in
  fdiv (S754_finite false ma ea) (S754_finite false mb eb)
  = binary_round_aux 53 1024 false (N / D) (ea - eb - 53)
                     (locn (N mod D) D)
  /\ normal_input (N / D) (ea - eb - 53).
Proof.
  intros Ha Hb N D.
  pose proof (normal_float_bounds _ _ Ha) as Ba.
  pose proof (normal_float_bounds _ _ Hb) as Bb.
  destruct Ha as [Hda Hea]. destruct Hb as [Hdb Heb].
  assert (HD : 0 < D) by (unfold D; lia).
  split.
  - unfold fdiv, SFdiv, SFdiv_core_binary. cbn [xorb].
    rewrite Hda, Hdb, fexp_eq.
    replace (Z.min (Z.max (53 + ea - (53 + eb) - 53) (-1074)) (ea - eb))
      with (ea - eb - 53) by lia.
    replace (ea - eb - (ea - eb - 53)) with 53 by lia.
    cbv iota. rewrite Z.shiftl_mul_pow2 by lia. fold N. fold D.
    pose proof (Z.mod_pos_bound N D HD) as Hr.
    unfold Z.div, Z.modulo in *.
    destruct (Z.div_eucl N D) as [q r]. 
    rewrite (new_location_locn D r HD Hr). reflexivity.
  - assert (Hq1 : 2 ^ 52 <= N / D).
    { apply Z.div_le_lower_bound; [exact HD|]. unfold N, D.
      change (2 ^ 53) with (2 * 2 ^ 52) in *. nia. }
    assert (Hq2 : N / D < 2 ^ 54).
    { apply Z.div_lt_upper_bound; [exact HD|]. unfold N, D.
      change (2 ^ 54) with (2 * 2 ^ 53) in *.
      change (2 ^ 53) with (2 * 2 ^ 52) in *. nia. }
    assert (Hd1 : 53 <= Zdigits2 (N / D)).
    { destruct (Z_le_gt_dec 53 (Zdigits2 (N / D))) as [H|H]; [exact H|].
      exfalso. pose proof (Zdigits2_gt (N / D) ltac:(lia)) as Hgt.
      pose proof (Zdigits2_nonneg (N / D)).
      assert (2 ^ Zdigits2 (N / D) <= 2 ^ 52)
        by (apply Z.pow_le_mono_r; lia).
      lia. }
    assert (Hd2 : Zdigits2 (N / D) <= 54)
      by (apply Zdigits2_le; lia).
    split; [exact Hd1|lia].
Qed.

(** The floats of the integers from [1] to [2^53 - 1] are exact, with a
    full mantissa. *)
Lemma Zdigits2_shift p k :
  0 <= k -> Zdigits2 (Z.pos p * 2 ^ k) = Zdigits2 (Z.pos p) + k.
Proof.
  intros Hk.
  pose proof (Zdigits2_lower (Z.pos p) ltac:(lia)) as Lo.
  pose proof (Zdigits2_gt (Z.pos p) ltac:(lia)) as Hi.
  assert (H1 : 1 <= Zdigits2 (Z.pos p)) by (cbn; lia).
  assert (Hp : 0 < 2 ^ k) by (apply Z.pow_pos_nonneg; lia).
  replace (Zdigits2 (Z.pos p) + k) with (Zdigits2 (Z.pos p) - 1 + k + 1) by lia.
  apply Zdigits2_unique; [lia|].
  replace (Zdigits2 (Z.pos p) - 1 + k + 1) with (Zdigits2 (Z.pos p) + k) by lia.
  rewrite !Z.pow_add_r by lia. nia.
Qed.

Lemma of_Z_normal a :
  1 <= a < 2 ^ 53 ->
  exists m e, of_Z a = S754_finite false m e /\
              normal_float m e /\ Z.pos m = a * 2 ^ (- e) /\ e <= 0.
Proof.
  intros Ha. destruct a as [|p|p]; try lia.
  unfold of_Z, binary_normalize, binary_round.
  change (Z.pos (digits2_pos p)) with (Zdigits2 (Z.pos p)).
  assert (Hd : 1 <= Zdigits2 (Z.pos p) <= 53).
  { split; [cbn; lia|apply Zdigits2_le; lia]. }
  rewrite Z.add_0_r, fexp_eq.
  replace (Z.max (Zdigits2 (Z.pos p) - 53) (-1074))
    with (Zdigits2 (Z.pos p) - 53) by lia.
  set (k := 53 - Zdigits2 (Z.pos p)).
  assert (Hk : 0 <= k <= 52) by (unfold k; lia).
  assert (Hal : exists mz,
             shl_align p 0 (Zdigits2 (Z.pos p) - 53) = (mz, - k) /\
             Z.pos mz = Z.pos p * 2 ^ k).
  { unfold shl_align. rewrite Z.sub_0_r.
    destruct (Zdigits2 (Z.pos p) - 53) as [|d|d] eqn:Ed; try lia.
    - exists p. assert (k = 0) by (unfold k; lia).
      split; [f_equal; lia|]. replace k with 0 by lia. lia.
    - exists (Pos.iter xO p d). split; [f_equal; unfold k; lia|].
      rewrite Zpos_iter_xO. f_equal. f_equal. unfold k. lia. }
  destruct Hal as (mz & -> & Hmz).
  assert (Hdz : Zdigits2 (Z.pos mz) = 53).
  { rewrite Hmz, Zdigits2_shift by lia. unfold k. lia. }
  destruct (binary_round_aux_normal (Z.pos mz) (- k) loc_Exact (Z.pos mz) 1)
    as (HR & m3 & e3 & Hres & Hcase).
  - lia.
  - lia.
  - now rewrite Z.div_1_r.
  - rewrite Z.mod_1_r. reflexivity.
  - split; lia.
  - rewrite Hres. exists m3, e3. split; [reflexivity|].
    rewrite Hdz in Hcase.
    replace (53 + - k - 53 - - k) with 0 in Hcase by lia.
    change (1 * 2 ^ 0) with 1 in Hcase.
    unfold rne in Hcase. rewrite Z.div_1_r, Z.mod_1_r in Hcase.
    change (locn 0 1) with loc_Exact in Hcase.
    cbn [round_nearest_even] in Hcase.
    pose proof (Zdigits2_gt (Z.pos mz) ltac:(lia)) as Hlt.
    rewrite Hdz in Hlt.
    destruct (Z.eqb_spec (Z.pos mz) (2 ^ 53)) as [C|C]; [lia|].
    destruct Hcase as [Hm3 He3].
    assert (e3 = - k) by lia. subst e3.
    split; [split; [rewrite Hm3; exact Hdz|lia]|].
    split; [|lia]. rewrite Hm3, Hmz. f_equal. f_equal. lia.
Qed.

(** The float quotients of counts below [2^53] are ordered as the exact
    quotients. *)
Lemma fdiv_Z_le a b c d :
  1 <= a < 2 ^ 53 -> 1 <= b < 2 ^ 53 -> 1 <= c < 2 ^ 53 -> 1 <= d < 2 ^ 53 ->
  a * d <= c * b ->
  SFleb (fdiv (of_Z a) (of_Z b)) (fdiv (of_Z c) (of_Z d)) = true.
Proof.
  intros Ha Hb Hc Hd H.
  destruct (of_Z_normal a Ha) as (ma & ea & -> & Na & Va & Ea).
  destruct (of_Z_normal b Hb) as (mb & eb & -> & Nb & Vb & Eb).
  destruct (of_Z_normal c Hc) as (mc & ec & -> & Nc & Vc & Ec).
  destruct (of_Z_normal d Hd) as (md & ed & -> & Nd & Vd & Ed).
  destruct (fdiv_normal ma ea mb eb Na Nb) as [-> I1].
  destruct (fdiv_normal mc ec md ed Nc Nd) as [-> I2].
  pose proof (normal_float_bounds _ _ Na) as Ba.
  pose proof (normal_float_bounds _ _ Nb) as Bb.
  pose proof (normal_float_bounds _ _ Nc) as Bc.
  pose proof (normal_float_bounds _ _ Nd) as Bd.
  assert (Xa : -52 <= ea).
  { destruct (Z_le_gt_dec (-52) ea) as [G|G]; [exact G|exfalso].
    assert (2 ^ 53 <= 2 ^ (- ea)) by (apply Z.pow_le_mono_r; lia). nia. }
  assert (Xb : -52 <= eb).
  { destruct (Z_le_gt_dec (-52) eb) as [G|G]; [exact G|exfalso].
    assert (2 ^ 53 <= 2 ^ (- eb)) by (apply Z.pow_le_mono_r; lia). nia. }
  assert (Xc : -52 <= ec).
  { destruct (Z_le_gt_dec (-52) ec) as [G|G]; [exact G|exfalso].
    assert (2 ^ 53 <= 2 ^ (- ec)) by (apply Z.pow_le_mono_r; lia). nia. }
  assert (Xd : -52 <= ed).
  { destruct (Z_le_gt_dec (-52) ed) as [G|G]; [exact G|exfalso].
    assert (2 ^ 53 <= 2 ^ (- ed)) by (apply Z.pow_le_mono_r; lia). nia. }
  apply (binary_round_aux_le _ _ _ (Z.pos ma * 2 ^ 53) (Z.pos mb)
                             _ _ _ (Z.pos mc * 2 ^ 53) (Z.pos md) (-200));
    try reflexivity; try assumption; try lia.
  rewrite Va, Vb, Vc, Vd.
  assert (L : a * 2 ^ (- ea) * 2 ^ 53 * (d * 2 ^ (- ed))
              * 2 ^ (ea - eb - 53 - -200)
              = a * d * 2 ^ (200 - eb - ed)).
  { replace (a * 2 ^ (- ea) * 2 ^ 53 * (d * 2 ^ (- ed))
             * 2 ^ (ea - eb - 53 - -200))
      with (a * d * (2 ^ (- ea) * 2 ^ 53 * 2 ^ (- ed)
                     * 2 ^ (ea - eb - 53 - -200))) by ring.
    rewrite <- !Z.pow_add_r by lia. do 2 f_equal. lia. }
  assert (R : c * 2 ^ (- ec) * 2 ^ 53 * (b * 2 ^ (- eb))
              * 2 ^ (ec - ed - 53 - -200)
              = c * b * 2 ^ (200 - eb - ed)).
  { replace (c * 2 ^ (- ec) * 2 ^ 53 * (b * 2 ^ (- eb))
             * 2 ^ (ec - ed - 53 - -200))
      with (c * b * (2 ^ (- ec) * 2 ^ 53 * 2 ^ (- eb)
                     * 2 ^ (ec - ed - 53 - -200))) by ring.
    rewrite <- !Z.pow_add_r by lia. do 2 f_equal. lia. }
  rewrite L, R.
  apply Z.mul_le_mono_nonneg_r; [apply Z.pow_nonneg; lia|exact H].
Qed.

Lemma fdiv_Z_nonneg c d :
  1 <= c < 2 ^ 53 -> 1 <= d < 2 ^ 53 ->
  exists m e, fdiv (of_Z c) (of_Z d) = S754_finite false m e.
Proof.
  intros Hc Hd.
  destruct (of_Z_normal c Hc) as (mc & ec & -> & Nc & Vc & Ec).
  destruct (of_Z_normal d Hd) as (md & ed & -> & Nd & Vd & Ed).
  destruct (fdiv_normal mc ec md ed Nc Nd) as [-> I2].
  pose proof (normal_float_bounds _ _ Nd) as Bd.
  destruct (binary_round_aux_normal (Z.pos mc * 2 ^ 53 / Z.pos md)
              (ec - ed - 53)
              (locn ((Z.pos mc * 2 ^ 53) mod Z.pos md) (Z.pos md))
              (Z.pos mc * 2 ^ 53) (Z.pos md))
    as (_ & m3 & e3 & Hres & _); try reflexivity; try lia; try assumption.
  exists m3, e3. exact Hres.
Qed.

Lemma fdiv_Z_zero d :
  1 <= d < 2 ^ 53 -> fdiv (of_Z 0) (of_Z d) = S754_zero false.
Proof.
  intros Hd. destruct (of_Z_normal d Hd) as (md & ed & -> & _).
  reflexivity.
Qed.

Lemma count_ratio_le (a b c d : nat) :
  Z.of_nat b < 2 ^ 53 -> Z.of_nat d < 2 ^ 53 ->
  (a <= b)%nat -> (c <= d)%nat ->
  ((if (b =? 0)%nat then 0 else a) * (if (d =? 0)%nat then 1 else d)
   <= (if (d =? 0)%nat then 0 else c) * (if (b =? 0)%nat then 1 else b))%nat ->
  SFleb (count_ratio a b) (count_ratio c d) = true.
Proof.
  intros Hb Hd Hab Hcd H. unfold count_ratio, of_nat.
  destruct b as [|b]; destruct d as [|d]; cbn [Nat.ltb Nat.leb Nat.eqb] in *.
  - reflexivity.
  - destruct c as [|c].
    + rewrite fdiv_Z_zero by lia. reflexivity.
    + destruct (fdiv_Z_nonneg (Z.of_nat (S c)) (Z.of_nat (S d)))
        as (m & e & E); try lia.
      rewrite E. reflexivity.
  - destruct a as [|a]; [|exfalso; lia].
    rewrite fdiv_Z_zero by lia. reflexivity.
  - destruct a as [|a].
    + change (Z.of_nat 0) with 0.
      rewrite (fdiv_Z_zero (Z.of_nat (S b))) by lia.
      destruct c as [|c].
      * rewrite fdiv_Z_zero by lia. reflexivity.
      * destruct (fdiv_Z_nonneg (Z.of_nat (S c)) (Z.of_nat (S d)))
          as (m & e & E); try lia.
        rewrite E. reflexivity.
    + destruct c as [|c]; [exfalso; lia|].
      apply fdiv_Z_le; lia.
Qed.
End RoundingOrder.

(** ** The reference operations satisfy the facts taken as given *)

Lemma Ref_nanmedian_all_nan l :
  Forall (fun x => isnan x = true) l -> Ref.nanmedian l = nan.
Proof.
  intros H. unfold Ref.nanmedian. now rewrite drop_nan_all_nan.
Qed.

Lemma Ref_conv_fold_nan a v t l :
  fold_left
    (fun acc i =>
       if (i <=? t) && (t - i <? length v)
       then (acc + nth i a nan * nth (t - i) v nan)%f64
       else acc) l nan = nan.
Proof.
  induction l as [|i l IH]; cbn [fold_left]; [reflexivity|].
  destruct ((i <=? t) && (t - i <? length v)); [|exact IH].
  rewrite fadd_nan_l. exact IH.
Qed.

Lemma Ref_conv_fold_hits a v t l acc i0 :
  In i0 l -> i0 <= t -> t - i0 < length v -> nth i0 a nan = nan ->
  fold_left
    (fun acc i =>
       if (i <=? t) && (t - i <? length v)
       then (acc + nth i a nan * nth (t - i) v nan)%f64
       else acc) l acc = nan.
Proof.
  intros Hin Hle Hlt Hnan. revert acc.
  induction l as [|i l IH]; intros acc; [contradiction|].
  cbn [fold_left]. destruct Hin as [->|Hin].
  - apply Nat.leb_le in Hle. apply Nat.ltb_lt in Hlt.
    rewrite Hle, Hlt, Hnan. cbn [andb].
    rewrite fmul_nan_l, fadd_nan_r. apply Ref_conv_fold_nan.
  - apply IH. exact Hin.
Qed.

Lemma nth_all_nan a i :
  Forall (fun x => isnan x = true) a -> nth i a nan = nan.
Proof.
  intros H. destruct (Nat.lt_ge_cases i (length a)) as [Hi|Hi].
  - apply isnan_true. rewrite Forall_forall in H. apply H.
    now apply nth_In.
  - now apply nth_overflow.
Qed.

Lemma Ref_conv_at_all_nan a v t :
  Forall (fun x => isnan x = true) a ->
  a <> [] -> v <> [] -> t <= length a - 1 + (length v - 1) ->
  Ref.conv_at a v t = nan.
Proof.
  intros Ha Hna Hnv Ht. unfold Ref.conv_at.
  assert (0 < length a) by (destruct a; simpl; [congruence|lia]).
  assert (0 < length v) by (destruct v; simpl; [congruence|lia]).
  apply Ref_conv_fold_hits with (i0 := Nat.min t (length a - 1)).
  - apply in_range. lia.
  - lia.
  - lia.
  - now apply nth_all_nan.
Qed.

Lemma Ref_convolve_same_empty a v :
  a = [] \/ v = [] -> Ref.convolve_same a v = Raise ValueError.
Proof.
  intros [->| ->]; [reflexivity|]. destruct a; reflexivity.
Qed.

Lemma Ref_convolve_same_length a v :
  a <> [] -> v <> [] ->
  exists r, Ref.convolve_same a v = Ok r /\
            length r = Nat.max (length a) (length v).
Proof.
  intros Ha Hv. destruct a as [|x a]; [congruence|].
  destruct v as [|y v]; [congruence|].
  eexists. split; [reflexivity|].
  rewrite length_map, length_range. lia.
Qed.

Lemma Ref_convolve_same_ok a v :
  a <> [] -> v <> [] ->
  Ref.convolve_same a v =
  Ok (map (fun i => Ref.conv_at a v
                      (i + (Nat.min (length a) (length v) - 1) / 2))
          (range 0 (Nat.max (length a) (length v)))).
Proof.
  intros Ha Hv. destruct a; [congruence|]. destruct v; [congruence|].
  reflexivity.
Qed.

Lemma Ref_convolve_same_all_nan a v r :
  Ref.convolve_same a v = Ok r ->
  Forall (fun x => isnan x = true) a ->
  Forall (fun x => isnan x = true) r.
Proof.
  intros Hr Ha.
  assert (Hna : a <> []) by (intros ->; discriminate Hr).
  assert (Hnv : v <> []).
  { intros ->. rewrite Ref_convolve_same_empty in Hr by now right.
    discriminate Hr. }
  rewrite Ref_convolve_same_ok in Hr by assumption.
  assert (Hr' : r = map (fun i => Ref.conv_at a v
                      (i + (Nat.min (length a) (length v) - 1) / 2))
          (range 0 (Nat.max (length a) (length v)))) by congruence.
  subst r. clear Hr. apply Forall_forall. intros z Hz.
  apply in_map_iff in Hz. destruct Hz as [i [<- Hi]].
  apply in_range in Hi.
  rewrite Ref_conv_at_all_nan; [reflexivity|assumption..|].
  assert (0 < length a) by (destruct a; simpl; [congruence|lia]).
  assert (0 < length v) by (destruct v; simpl; [congruence|lia]).
  assert ((Nat.min (length a) (length v) - 1) / 2
          <= Nat.min (length a) (length v) - 1)
    by (apply Nat.Div0.div_le_upper_bound; lia).
  lia.
Qed.

#[export] Instance RefNumpy : Numpy := {|
  np_mean := Ref.mean;
  np_var := Ref.var;
  np_std := Ref.std;
  np_nanmean := Ref.nanmean;
  np_nanstd := Ref.nanstd;
  np_nanmedian := Ref.nanmedian;
  np_convolve_same := Ref.convolve_same;
  np_exp := Ref.exp;
  np_power := Ref.power;
  np_hypot := Ref.hypot;
  rng := Z;
  np_random_seed := Ref.seed;
  np_random_randn := Ref.randn;
  np_random_randint := Ref.randint;
  np_random_uniform := Ref.uniform;
  np_nanmedian_all_nan := Ref_nanmedian_all_nan;
  np_convolve_same_empty := Ref_convolve_same_empty;
  np_convolve_same_length := Ref_convolve_same_length;
  np_convolve_same_all_nan := Ref_convolve_same_all_nan
|}.

(* ================================================================== *)
(** * The sustained-crossing search *)
(* ================================================================== *)

Lemma length_slice {A} (l : list A) lo hi :
  length (slice l lo hi) = Nat.min (hi - lo) (length l - lo).
Proof. unfold slice. now rewrite length_firstn, length_skipn. Qed.

Lemma length_window_at sig i k :
  i + k <= length sig -> length (window_at sig i k) = k.
Proof. intros H. unfold window_at. rewrite length_slice. lia. Qed.

(** The first value a loop returns comes from the first element on which
    the body returns. *)
Lemma first_return_Some {A B} (body : A -> option B) l b :
  first_return body l = Some b ->
  exists l1 a l2, l = l1 ++ a :: l2 /\ body a = Some b /\
                  Forall (fun x => body x = None) l1.
Proof.
  induction l as [|a l IH]; simpl; [discriminate|].
  destruct (body a) as [b'|] eqn:Ha.
  - intros [= <-]. exists [], a, l. repeat split; auto.
  - intros H. destruct (IH H) as (l1 & a' & l2 & -> & Hb & Hl1).
    exists (a :: l1), a', l2. repeat split; auto.
Qed.

Lemma first_return_None {A B} (body : A -> option B) l :
  first_return body l = None -> Forall (fun x => body x = None) l.
Proof.
  induction l as [|a l IH]; simpl; [constructor|].
  destruct (body a) eqn:Ha; [discriminate|]. auto.
Qed.

(** A split of a range is a split of its positions. *)
Lemma range_split lo hi l1 a l2 :
  range lo hi = l1 ++ a :: l2 ->
  a = lo + length l1 /\ a < hi /\
  forall j, lo <= j < a -> In j l1.
Proof.
  unfold range. revert lo. induction l1 as [|x l1 IH]; intros lo H.
  - destruct (hi - lo) as [|m] eqn:Hm; [discriminate|].
    simpl in H. injection H as <- _. simpl. repeat split; lia.
  - destruct (hi - lo) as [|m] eqn:Hm; [discriminate|].
    simpl in H. injection H as <- H.
    replace m with (hi - S lo) in H by lia.
    destruct (IH _ H) as (-> & Hlt & Hin).
    simpl. repeat split; [lia|lia|].
    intros j Hj. destruct (Nat.eq_dec j lo) as [->|Hne]; [now left|].
    right. apply Hin. lia.
Qed.

Section SustainedCrossing.

(** Inside the searched range the loop body is the test [sustained_ok]. *)
Lemma sustained_at_ok sig thr direction k i :
  i + k <= length sig ->
  sustained_at sig thr direction k i =
  if sustained_ok sig thr direction k i then Some i else None.
Proof.
  intros Hi. unfold sustained_at, sustained_ok, mean_bool.
  fold (window_at sig i k).
  rewrite length_map, length_window_at by exact Hi.
  replace (nth i (map (fun x => negb (isnan x)) sig) false)
    with (negb (isnan (nth i sig nan))).
  2:{ change false with (negb (isnan nan)).
      now rewrite (map_nth (fun x => negb (isnan x))). }
  destruct (negb (isnan (nth i sig nan))); [|reflexivity].
  cbn [negb andb].
  rewrite Nat.ltb_antisym.
  destruct (k / 2 <=? count_valid (window_at sig i k)); [|reflexivity].
  cbn [negb andb]. reflexivity.
Qed.

Lemma sustained_at_index sig thr direction k i j :
  sustained_at sig thr direction k i = Some j -> j = i.
Proof.
  unfold sustained_at.
  repeat match goal with |- context [if ?c then _ else _] => destruct c end;
    congruence.
Qed.
End SustainedCrossing.

(** The search returns the first position of its range that passes
    [sustained_ok]. *)
Lemma find_sustained_crossing_char sig thr direction k start_idx :
  match find_sustained_crossing sig thr direction k start_idx with
  | Some i =>
      Nat.max start_idx k <= i < length sig - k /\
      sustained_ok sig thr direction k i = true /\
      forall j, Nat.max start_idx k <= j < i ->
                sustained_ok sig thr direction k j = false
  | None =>
      forall j, Nat.max start_idx k <= j < length sig - k ->
                sustained_ok sig thr direction k j = false
  end.
Proof.
  unfold find_sustained_crossing.
  destruct (first_return _ _) as [i|] eqn:Hf.
  - apply first_return_Some in Hf.
    destruct Hf as (l1 & a & l2 & Hsplit & Ha & Hl1).
    pose proof (sustained_at_index _ _ _ _ _ _ Ha) as ->.
    destruct (range_split _ _ _ _ _ Hsplit) as (Heq & Hlt & Hin).
    assert (Hi : a + k <= length sig) by lia.
    rewrite sustained_at_ok in Ha by exact Hi.
    split; [lia|]. split.
    + destruct (sustained_ok sig thr direction k a); congruence.
    + intros j Hj. rewrite Forall_forall in Hl1.
      specialize (Hl1 j (Hin j Hj)).
      rewrite sustained_at_ok in Hl1 by lia.
      destruct (sustained_ok sig thr direction k j); congruence.
  - apply first_return_None in Hf. rewrite Forall_forall in Hf.
    intros j Hj. specialize (Hf j (proj2 (in_range _ _ _) Hj)).
    rewrite sustained_at_ok in Hf by lia.
    destruct (sustained_ok sig thr direction k j); congruence.
Qed.



(* ================================================================== *)
(** * The shape of a detection result *)
(* ================================================================== *)

(** Case analysis on the steps of a call that returned. *)
Ltac res_ok H :=
  repeat match type of H with
  | res_bind ?m _ = Ok _ =>
      let E := fresh "E" in
      destruct m eqn:E; cbn [res_bind] in H; [|discriminate H]
  | (if ?c then _ else _) = Ok _ =>
      let E := fresh "E" in destruct c eqn:E
  | match ?x with _ => _ end = Ok _ =>
      let E := fresh "E" in destruct x eqn:E
  | Raise _ = Ok _ => discriminate H
  end.

Ltac index_iff_detected :=
  cbn [detected detection_index option_map];
  split; [intros Hn; try reflexivity; exfalso; apply Hn; reflexivity
         | intros Hd; try discriminate Hd; discriminate].

Section ResultShape.
Context {NP : Numpy}.

Lemma vd_result_shape d s hit : index_iff (vd_result d s hit).
Proof. unfold vd_result; destruct hit as [[i c]|]; index_iff_detected. Qed.

Lemma vi_result_shape d s hit : index_iff (vi_result d s hit).
Proof. unfold vi_result; destruct hit as [[i c]|]; index_iff_detected. Qed.

Lemma cp_result_shape d s hit : index_iff (cp_result d s hit).
Proof. unfold cp_result; destruct hit as [[i c]|]; index_iff_detected. Qed.

Lemma VarianceRatioDetector_shape d sig r :
  VarianceRatioDetector_detect d sig = Ok r -> index_iff r.
Proof.
  unfold VarianceRatioDetector_detect. intros H. res_ok H;
    injection H as <-; index_iff_detected.
Qed.

Lemma VarianceDerivativeDetector_shape d sig r :
  VarianceDerivativeDetector_detect d sig = Ok r -> index_iff r.
Proof.
  unfold VarianceDerivativeDetector_detect. intros H. res_ok H;
    injection H as <-; apply vd_result_shape.
Qed.

Lemma VarianceInflectionDetector_shape d sig r :
  VarianceInflectionDetector_detect d sig = Ok r -> index_iff r.
Proof.
  unfold VarianceInflectionDetector_detect. intros H. res_ok H;
    injection H as <-; apply vi_result_shape.
Qed.

Lemma RollingZScoreDetector_shape d sig r :
  RollingZScoreDetector_detect d sig = Ok r -> index_iff r.
Proof.
  unfold RollingZScoreDetector_detect. intros H. injection H as <-.
  destruct (find_sustained_crossing _ _ _ _ _); index_iff_detected.
Qed.

Lemma CUSUMDetector_shape d sig r :
  CUSUMDetector_detect d sig = Ok r -> index_iff r.
Proof.
  unfold CUSUMDetector_detect. intros H. res_ok H;
    injection H as <-; index_iff_detected.
Qed.

Lemma ChangePointDetector_shape d sig r :
  ChangePointDetector_detect d sig = Ok r -> index_iff r.
Proof.
  unfold ChangePointDetector_detect. intros H. res_ok H;
    injection H as <-; try apply cp_result_shape; index_iff_detected.
Qed.

Lemma detect_shape d sig r : detect d sig = Ok r -> index_iff r.
Proof.
  destruct d; cbn [detect].
  - apply VarianceRatioDetector_shape.
  - apply VarianceDerivativeDetector_shape.
  - apply VarianceInflectionDetector_shape.
  - apply RollingZScoreDetector_shape.
  - apply CUSUMDetector_shape.
  - apply ChangePointDetector_shape.
Qed.

Lemma EnsembleDetector_shape e sig r :
  EnsembleDetector_detect e sig = Ok r -> index_iff r.
Proof.
  unfold EnsembleDetector_detect. intros H. res_ok H;
    injection H as <-; index_iff_detected.
Qed.
End ResultShape.

(** C9.  For each of the seven detectors and every input signal, the
    result the detector returns has a [detection_index] that is not [None]
    if and only if [detected] is [True]. *)
Theorem detection_index_iff_detected {NP : Numpy} (d : Detector)
    (sig : list float) (r : DetectionResult) :
  Detector_detect d sig = Ok r ->
  (detection_index r <> None <-> detected r = true).
Proof.
  destruct d as [d|e]; cbn [Detector_detect].
  - apply detect_shape.
  - apply EnsembleDetector_shape.
Qed.

(* ================================================================== *)
(** * The ensemble's vote *)
(* ================================================================== *)

Section CeilBounds.
Local Open Scope Z_scope.

Lemma ceil_scaled_le z e k :
  e <= 0 -> z <= k * 2 ^ (- e) -> ceil_scaled z e <= k.
Proof.
  intros He Hz. unfold ceil_scaled. destruct (0 <=? e) eqn:E0.
  - apply Z.leb_le in E0. assert (e = 0) by lia. subst e.
    change (2 ^ (- 0)) with 1 in Hz. change (2 ^ 0) with 1. lia.
  - assert (Hp : 0 < 2 ^ (- e)) by (apply Z.pow_pos_nonneg; lia).
    assert (- k <= - z / 2 ^ (- e))
      by (apply Z.div_le_lower_bound; [exact Hp|nia]).
    lia.
Qed.

Lemma ceil_scaled_nonpos z e : z <= 0 -> ceil_scaled z e <= 0.
Proof.
  intros Hz. unfold ceil_scaled. destruct (0 <=? e) eqn:E0.
  - apply Z.leb_le in E0. pose proof (Z.pow_nonneg 2 e ltac:(lia)). nia.
  - apply Z.leb_gt in E0.
    assert (0 <= - z / 2 ^ (- e))
      by (apply Z.div_pos; [lia|apply Z.pow_pos_nonneg; lia]).
    lia.
Qed.

(** Rounding keeps the sign it is given. *)
Lemma binary_round_aux_sign s M E l :
  match binary_round_aux 53 1024 s M E l with
  | S754_zero s' | S754_infinity s' | S754_finite s' _ _ => s' = s
  | S754_nan => True
  end.
Proof.
  unfold binary_round_aux.
  destruct (shr_fexp 53 1024 M E l) as [mrs' e'].
  destruct (shr_fexp 53 1024 _ e' loc_Exact) as [mrs'' e''].
  destruct (shr_m mrs''); [reflexivity| |exact I].
  destruct (e'' <=? 1024 - 53); reflexivity.
Qed.

(** The rounding of a non-negative [M * 2^E] below an integer [k <= 8]
    has a ceiling of at most [k]. *)
Lemma binary_round_aux_ceil_le M E l k c :
  0 <= M -> 1 <= k <= 8 -> E <= 0 -> M < k * 2 ^ (- E) ->
  py_ceil (binary_round_aux 53 1024 false M E l) = Ok c -> c <= k.
Proof.
  intros HM Hk HE Hlt. unfold binary_round_aux, shr_fexp.
  set (k1 := fexp 53 1024 (Zdigits2 M + E) - E).
  pose proof (shr_spec (shr_record_of_loc M l) E k1) as H1.
  rewrite shr_m_record_of_loc in H1. specialize (H1 HM).
  destruct (shr (shr_record_of_loc M l) E k1) as [mrs' e'].
  cbn [fst snd] in H1. destruct H1 as [Hm1 He'].
  set (m2 := round_nearest_even (shr_m mrs') (loc_of_shr_record mrs')).
  pose proof (round_nearest_even_bounds (shr_m mrs') (loc_of_shr_record mrs'))
    as Hm2. fold m2 in Hm2.
  assert (HpE : 0 < 2 ^ (- E)) by (apply Z.pow_pos_nonneg; lia).
  assert (HMlt : M < 2 ^ (3 - E)).
  { replace (3 - E) with (3 + - E) by lia. rewrite Z.pow_add_r by lia.
    change (2 ^ 3) with 8. nia. }
  assert (HdM : Zdigits2 M <= 3 - E) by (apply Zdigits2_le; lia).
  unfold k1 in Hm1, He'. rewrite fexp_eq in Hm1, He'.
  set (a := Z.max (Z.max (Zdigits2 M + E - 53) (-1074) - E) 0) in *.
  assert (Ha : 0 <= a) by lia.
  assert (He'0 : e' <= 0) by lia.
  assert (Hpa : 0 < 2 ^ a) by (apply Z.pow_pos_nonneg; lia).
  assert (Hpe' : 0 < 2 ^ (- e')) by (apply Z.pow_pos_nonneg; lia).
  assert (Hm1lt : shr_m mrs' < k * 2 ^ (- e')).
  { rewrite Hm1. apply Z.div_lt_upper_bound; [exact Hpa|].
    replace (- E) with (a + - e') in Hlt by lia.
    rewrite Z.pow_add_r in Hlt by lia. lia. }
  assert (Hm1nn : 0 <= shr_m mrs')
    by (rewrite Hm1; apply Z.div_pos; lia).
  assert (Hm2nn : 0 <= m2) by lia.
  assert (Hm2le : m2 <= k * 2 ^ (- e')) by lia.
  assert (Hm2lt : m2 < 2 ^ (4 - e')).
  { replace (4 - e') with (4 + - e') by lia. rewrite Z.pow_add_r by lia.
    change (2 ^ 4) with 16. nia. }
  assert (Hd2 : Zdigits2 m2 <= 4 - e') by (apply Zdigits2_le; lia).
  set (k2 := fexp 53 1024 (Zdigits2 m2 + e') - e').
  pose proof (shr_spec (shr_record_of_loc m2 loc_Exact) e' k2) as H2.
  rewrite shr_m_record_of_loc in H2. specialize (H2 Hm2nn).
  destruct (shr (shr_record_of_loc m2 loc_Exact) e' k2) as [mrs'' e''].
  cbn [fst snd] in H2. destruct H2 as [Hm3 He''].
  unfold k2 in Hm3, He''. rewrite fexp_eq in Hm3, He''.
  set (b := Z.max (Z.max (Zdigits2 m2 + e' - 53) (-1074) - e') 0) in *.
  assert (Hb : 0 <= b) by lia.
  assert (He''0 : e'' <= 0) by lia.
  assert (Hpb : 0 < 2 ^ b) by (apply Z.pow_pos_nonneg; lia).
  assert (Hm3le : shr_m mrs'' <= k * 2 ^ (- e'')).
  { rewrite Hm3. apply Z.div_le_upper_bound; [exact Hpb|].
    replace (- e') with (b + - e'') in Hm2le by lia.
    rewrite Z.pow_add_r in Hm2le by lia. lia. }
  destruct (shr_m mrs'') as [|m3|m3].
  - cbn [py_ceil]. intros H. injection H as <-. lia.
  - destruct (e'' <=? 1024 - 53); [|discriminate].
    cbn [py_ceil]. intros H. injection H as <-.
    apply ceil_scaled_le; assumption.
  - discriminate.
Qed.

(** The float [6.0]. *)
Lemma of_nat_6 : of_nat 6 = S754_finite false 6755399441055744 (-50).
Proof. reflexivity. Qed.

Lemma is_float64_mantissa m e :
  is_float64 (S754_finite false m e) = true -> Z.pos m < 2 ^ 53.
Proof.
  unfold is_float64, valid_binary, bounded, canonical_mantissa.
  intros H. apply andb_prop in H. destruct H as [H _].
  apply Z.eqb_eq in H. rewrite fexp_eq in H.
  change (Z.pos (digits2_pos m)) with (Zdigits2 (Z.pos m)) in H.
  pose proof (Zdigits2_gt (Z.pos m) ltac:(lia)) as Hgt.
  apply Z.lt_le_trans with (1 := Hgt).
  apply Z.pow_le_mono_r; lia.
Qed.

(** A threshold that is at most the quotient [k / 6], times six, has a
    ceiling of at most [k]. *)
Lemma threshold_ceil_le t k mq eq c :
  is_float64 t = true ->
  SFleb t (S754_finite false mq eq) = true ->
  ceil_side k mq eq = true ->
  py_ceil (t * of_nat 6)%f64 = Ok c -> c <= k.
Proof.
  intros Hv Hle Hside.
  unfold ceil_side in Hside.
  repeat (apply andb_prop in Hside; destruct Hside as [Hside ?]).
  repeat match goal with
         | H : (_ <=? _) = true |- _ => apply Z.leb_le in H
         | H : (_ <? _) = true |- _ => apply Z.ltb_lt in H
         end.
  rewrite of_nat_6 in *.
  destruct t as [s|s| |s m e].
  - cbn. intros Hc. injection Hc as <-. lia.
  - destruct s; [discriminate|discriminate Hle].
  - discriminate Hle.
  - destruct s.
    + unfold fmul. cbn [SFmul xorb].
      pose proof (binary_round_aux_sign true
                    (Z.pos (m * 6755399441055744)) (e + -50) loc_Exact) as Hs.
      destruct (binary_round_aux 53 1024 true _ _ _) as [s'|s'| |s' m' e'];
        try discriminate; subst s'; cbn [py_ceil]; intros Hc;
        injection Hc as <-; [lia|].
      pose proof (ceil_scaled_nonpos (Z.neg m') e' ltac:(lia)). lia.
    + pose proof (is_float64_mantissa m e Hv) as Hm.
      unfold SFleb, SFcompare in Hle.
      unfold fmul. cbn [SFmul xorb].
      destruct (Z.compare_spec e eq) as [Heq|Hlt|Hgt].
      * subst e. rewrite Pos.compare_cont_spec in Hle. cbn [Pos.switch_Eq] in Hle.
        destruct (Pos.compare_spec m mq) as [Hmq|Hmq|Hmq].
        -- subst m. intros Hc.
           match goal with
           | H : match ?X with Ok _ => _ | Raise _ => _ end = true |- _ =>
               change X with (py_ceil (binary_round_aux 53 1024 false
                                (Z.pos (mq * 6755399441055744)) (eq + -50)
                                loc_Exact)) in H;
               rewrite Hc in H; apply Z.leb_le in H; exact H
           end.
        -- apply binary_round_aux_ceil_le; try lia.
           replace (- (eq + -50)) with (50 - eq) by lia.
           rewrite Pos2Z.inj_mul. nia.
        -- discriminate Hle.
      * apply binary_round_aux_ceil_le; try lia.
        replace (- (e + -50)) with (50 - e) by lia.
        assert (2 ^ (51 - eq) <= 2 ^ (50 - e))
          by (apply Z.pow_le_mono_r; lia).
        rewrite Pos2Z.inj_mul. nia.
      * discriminate Hle.
Qed.
End CeilBounds.

Lemma map_res_length {A B} (f : A -> res B) l : forall bs,
  map_res f l = Ok bs -> length bs = length l.
Proof.
  induction l as [|a l IH]; intros bs H; cbn [map_res] in H.
  - now injection H as <-.
  - destruct (f a) as [b|e]; cbn [res_bind] in H; [|discriminate H].
    destruct (map_res f l) as [bs'|e]; cbn [res_bind] in H; [|discriminate H].
    injection H as <-. cbn [length]. now rewrite (IH bs' eq_refl).
Qed.

Lemma length_en_detections w results :
  length (en_detections w results) = votes results.
Proof.
  unfold en_detections, votes, voted.
  induction results as [|r results IH]; [reflexivity|].
  cbn [flat_map filter]. rewrite length_app, IH.
  destruct (detected r), (detection_index r); reflexivity.
Qed.

Lemma votes_le_length results : votes results <= length results.
Proof. apply filter_length_le. Qed.

(** The six quotients [k / 6]. *)
Lemma vote_fraction_ceil_le t (k : nat) c :
  1 <= k <= 6 ->
  is_float64 t = true ->
  (of_nat k / of_nat 6 >=? t)%f64 = true ->
  py_ceil (t * of_nat 6)%f64 = Ok c -> (c <= Z.of_nat k)%Z.
Proof.
  intros Hk Hv Hle.
  assert (Hq : exists mq eq,
             (of_nat k / of_nat 6)%f64 = S754_finite false mq eq /\
             ceil_side (Z.of_nat k) mq eq = true).
  { destruct k as [|[|[|[|[|[|[|k]]]]]]]; try lia;
      eexists _, _; (split; [vm_compute; reflexivity|vm_compute; reflexivity]). }
  destruct Hq as (mq & eq & Hq & Hside). rewrite Hq in Hle.
  exact (threshold_ceil_le t (Z.of_nat k) mq eq c Hv Hle Hside).
Qed.

(** C3.  When the ensemble reports a detection, the number of
    sub-detectors that voted (fired with an index), out of six, is such
    that the float [votes / 6] is at least the threshold [t], and is at
    least [ceil(t * 6)], the product being the float product and the
    threshold a binary64 value. *)
Theorem ensemble_fires_with_enough_votes {NP : Numpy} (e : EnsembleDetector)
    (sig : list float) (r : DetectionResult) :
  is_float64 (en_threshold e) = true ->
  EnsembleDetector_detect e sig = Ok r ->
  detected r = true ->
  exists results,
    map_res (fun d => detect d sig) (en_detectors e) = Ok results /\
    length results = 6 /\
    (of_nat (votes results) / of_nat 6 >=? en_threshold e)%f64 = true /\
    forall c, py_ceil (en_threshold e * of_nat 6)%f64 = Ok c ->
              (c <= Z.of_nat (votes results))%Z.
Proof.
  intros Hv H Hd. unfold EnsembleDetector_detect in H.
  destruct (map_res (fun d => detect d sig) (en_detectors e))
    as [results|ex] eqn:Er; cbn [res_bind] in H; [|discriminate H].
  pose proof (map_res_length _ _ _ Er) as Hlen. cbn [en_detectors length] in Hlen.
  pose proof (length_en_detections (en_weights e) results) as Hvotes.
  pose proof (votes_le_length results) as Hle6.
  exists results. split; [reflexivity|]. split; [exact Hlen|].
  destruct (en_detections (en_weights e) results) as [|v vs] eqn:Ed.
  { injection H as <-. discriminate Hd. }
  unfold en_vote_fraction in H. cbn [en_detectors length] in H.
  change (S (length vs)) with (length (v :: vs)) in H.
  rewrite Hvotes in H.
  destruct (of_nat (votes results) / of_nat 6 >=? en_threshold e)%f64 eqn:Ef;
    cbn [negb] in H.
  2:{ injection H as <-. discriminate Hd. }
  split; [reflexivity|].
  intros c Hc. cbn [length] in Hvotes.
  apply (vote_fraction_ceil_le (en_threshold e) (votes results) c);
    [lia|exact Hv|exact Ef|exact Hc].
Qed.

(* ================================================================== *)
(** * VarianceRatioDetector *)
(* ================================================================== *)

Lemma py_get_nth {A} (l : list A) (i : nat) (d : A) :
  i < length l -> py_get l (Z.of_nat i) = Ok (nth i l d).
Proof.
  intros Hi. unfold py_get.
  destruct (Z.of_nat i <? 0)%Z eqn:Hneg; [apply Z.ltb_lt in Hneg; lia|].
  assert (H0 : (0 <=? Z.of_nat i)%Z = true) by (apply Z.leb_le; lia).
  assert (H1 : (Z.of_nat i <? Z.of_nat (length l))%Z = true)
    by (apply Z.ltb_lt; lia).
  rewrite H0, H1. cbn [andb]. rewrite Nat2Z.id.
  rewrite (nth_error_nth' l d Hi). reflexivity.
Qed.

Section VarianceRatio.
Context {NP : Numpy}.

Lemma length_compute_rolling_variance sig w :
  length (compute_rolling_variance sig w) = length sig.
Proof.
  unfold compute_rolling_variance.
  rewrite length_map, length_range. lia.
Qed.

Lemma length_vr_ratio d sig : length (vr_ratio d sig) = length sig.
Proof.
  unfold vr_ratio, vr_baseline.
  rewrite length_map, length_combine, !length_map, length_range,
    length_compute_rolling_variance. lia.
Qed.

(** A crossing found on the ratio is a position of the ratio that is not
    NaN. *)
Lemma crossing_valid ratio thr direction k start i :
  find_sustained_crossing ratio thr direction k start = Some i ->
  i < length ratio /\ isnan (nth i ratio nan) = false.
Proof.
  intros H.
  pose proof (find_sustained_crossing_char ratio thr direction k start) as Hc.
  rewrite H in Hc. destruct Hc as (Hr & Hok & _).
  split; [lia|].
  unfold sustained_ok in Hok.
  apply andb_prop in Hok. destruct Hok as [Hok _].
  apply andb_prop in Hok. destruct Hok as [Hok _].
  now apply negb_true_iff in Hok.
Qed.

(** The detector at a reported index [i]. *)
Lemma VarianceRatioDetector_at d sig c cs :
  is_zero (vr_threshold d) = false ->
  vr_candidates d sig = c :: cs ->
  let i := fold_left Nat.min cs c in
  i < length (vr_ratio d sig) ->
  isnan (nth i (vr_ratio d sig) nan) = false ->
  VarianceRatioDetector_detect d sig =
  Ok {| detected := true;
        detection_index := Some (Z.of_nat i);
        confidence :=
          py_min f_1 (SFabs (f_1 - nth i (vr_ratio d sig) nan)%f64);
        detector_type := VARIANCE_RATIO;
        signal := vr_ratio d sig;
        threshold := vr_threshold d;
        metadata := vr_metadata d |}.
Proof.
  intros Hz Hc i Hi Hnan. unfold VarianceRatioDetector_detect, py_fdiv.
  rewrite Hz. cbn [res_bind]. rewrite Hc. fold i.
  rewrite (py_get_nth _ _ nan Hi). cbn [res_bind].
  rewrite Hnan. reflexivity.
Qed.
End VarianceRatio.

(** C6 (as amended).  With a threshold that is not zero,
    [VarianceRatioDetector.detect] returns on every signal; it fires iff at least one of the two sustained crossings of
    the ratio exists (below [threshold], or above [1/threshold]); the
    reported index is the earlier of the crossings that exist; and the
    reported confidence is [min(1.0, |1 - ratio|)] at that index, where
    the ratio is not NaN. *)
Theorem VarianceRatioDetector_fires {NP : Numpy}
    (d : VarianceRatioDetector) (sig : list float) :
  is_zero (vr_threshold d) = false ->
  exists r,
    VarianceRatioDetector_detect d sig = Ok r /\
    (detected r = true <->
     vr_idx_low d sig <> None \/ vr_idx_high d sig <> None) /\
    detection_index r =
      option_map Z.of_nat (earliest (vr_idx_low d sig) (vr_idx_high d sig)) /\
    forall i, detection_index r = Some (Z.of_nat i) ->
      isnan (nth i (vr_ratio d sig) nan) = false /\
      confidence r =
        py_min f_1 (SFabs (f_1 - nth i (vr_ratio d sig) nan)%f64).
Proof.
  intros Hz.
  pose proof (crossing_valid (vr_ratio d sig) (vr_threshold d) Below
                (vr_sustain d) (vr_baseline_window d)) as Hlow.
  pose proof (crossing_valid (vr_ratio d sig) (f_1 / vr_threshold d)%f64 Above
                (vr_sustain d) (vr_baseline_window d)) as Hhigh.
  fold (vr_idx_low d sig) in Hlow. fold (vr_idx_high d sig) in Hhigh.
  assert (Hcand : vr_candidates d sig =
                  match vr_idx_low d sig with Some i => [i] | None => [] end ++
                  match vr_idx_high d sig with Some i => [i] | None => [] end)
    by reflexivity.
  assert (Hfired : forall c cs,
            vr_candidates d sig = c :: cs ->
            fold_left Nat.min cs c < length (vr_ratio d sig) ->
            isnan (nth (fold_left Nat.min cs c) (vr_ratio d sig) nan) = false ->
            earliest (vr_idx_low d sig) (vr_idx_high d sig)
              = Some (fold_left Nat.min cs c) ->
            vr_idx_low d sig <> None \/ vr_idx_high d sig <> None ->
            exists r,
              VarianceRatioDetector_detect d sig = Ok r /\
              (detected r = true <->
               vr_idx_low d sig <> None \/ vr_idx_high d sig <> None) /\
              detection_index r =
                option_map Z.of_nat
                  (earliest (vr_idx_low d sig) (vr_idx_high d sig)) /\
              forall i, detection_index r = Some (Z.of_nat i) ->
                isnan (nth i (vr_ratio d sig) nan) = false /\
                confidence r =
                  py_min f_1 (SFabs (f_1 - nth i (vr_ratio d sig) nan)%f64)).
  { intros c cs Hc Hi Hn He Hor.
    eexists. split; [exact (VarianceRatioDetector_at d sig c cs Hz Hc Hi Hn)|].
    cbn [detected detection_index confidence].
    split; [split; [intros _; exact Hor|reflexivity]|].
    split; [rewrite He; reflexivity|].
    intros i Hx. injection Hx as Hx. apply Nat2Z.inj in Hx. subst i.
    split; [exact Hn|reflexivity]. }
  destruct (vr_idx_low d sig) as [a|] eqn:Ea;
    destruct (vr_idx_high d sig) as [b|] eqn:Eb; cbn [app] in Hcand.
  - destruct (Hlow a eq_refl) as [Ha1 Ha2].
    destruct (Hhigh b eq_refl) as [Hb1 Hb2].
    apply (Hfired a [b] Hcand); cbn [fold_left earliest].
    + lia.
    + destruct (Nat.min_spec a b) as [[_ ->]|[_ ->]]; assumption.
    + reflexivity.
    + left; discriminate.
  - destruct (Hlow a eq_refl) as [Ha1 Ha2].
    apply (Hfired a [] Hcand); cbn [fold_left earliest]; auto.
    left; discriminate.
  - destruct (Hhigh b eq_refl) as [Hb1 Hb2].
    apply (Hfired b [] Hcand); cbn [fold_left earliest]; auto.
    right; discriminate.
  - unfold VarianceRatioDetector_detect, py_fdiv.
    rewrite Hz. cbn [res_bind]. rewrite Hcand.
    eexists. split; [reflexivity|].
    cbn [detected detection_index confidence earliest option_map].
    split; [split; [discriminate|intros [H|H]; congruence]|].
    split; [reflexivity|discriminate].
Qed.

(** C6 (as stated) fails on the confidence.  With the default parameters
    and the signal [[5, -5] * 65 + [10, -10] * 35], the ratio crosses
    [1 / 0.4] upwards; the reported index is 147, where the ratio is about
    2.27, and the reported confidence is [1.0], not [|1 - 2.27|].  Every
    sum the run makes is exact, so the order of the additions does not
    matter. *)
Lemma VarianceRatio_confidence_clamped :
  ~ @VarianceRatio_confidence_is_deviation RefNumpy.
Proof.
  intros H.
  assert (E : exists r,
             VarianceRatioDetector_detect (VarianceRatioDetector_init 40)
               signal_variance_up = Ok r /\
             detection_index r = Some (Z.of_nat 147) /\
             confidence r = f_1).
  { vm_compute. eexists. split; [reflexivity|split; reflexivity]. }
  destruct E as (r & E & Hi & Hc).
  specialize (H _ _ r 147 E Hi). rewrite Hc in H.
  vm_compute in H. discriminate H.
Qed.

(* ================================================================== *)
(** * Signals too short for a detector *)
(* ================================================================== *)

Abbreviation all_nan := (Forall (fun x : float => isnan x = true)).

Lemma in_firstn {A} (x : A) n l : In x (firstn n l) -> In x l.
Proof.
  revert l. induction n as [|n IH]; intros [|y l]; cbn [firstn];
    try contradiction.
  intros [->|H]; [now left|right; now apply IH].
Qed.

Lemma in_skipn {A} (x : A) n l : In x (skipn n l) -> In x l.
Proof.
  revert l. induction n as [|n IH]; intros [|y l]; cbn [skipn]; auto.
  intros H. right. now apply IH.
Qed.

Lemma all_nan_repeat n : all_nan (repeat nan n).
Proof. apply Forall_forall. intros x Hx. now rewrite (repeat_spec _ _ _ Hx). Qed.

Lemma all_nan_map_abs l : all_nan l -> all_nan (map SFabs l).
Proof.
  intros H. apply Forall_forall. intros y Hy.
  apply in_map_iff in Hy. destruct Hy as [x [<- Hx]].
  rewrite Forall_forall in H. rewrite (isnan_true _ (H x Hx)). reflexivity.
Qed.

Lemma all_nan_slice l lo hi : all_nan l -> all_nan (slice l lo hi).
Proof.
  intros H. apply Forall_forall. intros x Hx. unfold slice in Hx.
  apply in_firstn, in_skipn in Hx.
  rewrite Forall_forall in H. now apply H.
Qed.

Lemma map_range_nan (f : nat -> float) lo hi :
  (forall i, lo <= i < hi -> f i = nan) ->
  all_nan (map f (range lo hi)).
Proof.
  intros H. apply Forall_forall. intros y Hy.
  apply in_map_iff in Hy. destruct Hy as [i [<- Hi]].
  apply in_range in Hi. now rewrite H.
Qed.

Lemma py_any_all_nan l :
  all_nan l -> py_any (map (fun x => negb (isnan x)) l) = false.
Proof.
  induction 1 as [|x l Hx _ IH]; [reflexivity|].
  cbn [map py_any existsb]. rewrite Hx. exact IH.
Qed.

(** On an array without a valid entry the search finds nothing. *)
Lemma find_sustained_crossing_all_nan sig thr direction k start :
  all_nan sig -> find_sustained_crossing sig thr direction k start = None.
Proof.
  intros H.
  pose proof (find_sustained_crossing_char sig thr direction k start) as Hc.
  destruct (find_sustained_crossing sig thr direction k start) as [i|];
    [|reflexivity].
  destruct Hc as (_ & Hok & _). unfold sustained_ok in Hok.
  rewrite (nth_all_nan _ _ H) in Hok. discriminate Hok.
Qed.

Section ShortSignals.
Context {NP : Numpy}.

(** No window fits in a signal of at most [w] samples. *)
Lemma rolling_variance_short sig w :
  length sig <= w -> all_nan (compute_rolling_variance sig w).
Proof.
  intros H. unfold compute_rolling_variance. apply map_range_nan.
  intros i Hi. assert (Hlt : (i <? w) = true) by (apply Nat.ltb_lt; lia).
  now rewrite Hlt.
Qed.

(** On an array without a valid entry there is no peak. *)
Lemma find_peak_all_nan sig mode :
  all_nan sig -> (Z.of_nat (length sig) < 2 ^ 63)%Z ->
  find_peak sig mode = Ok None.
Proof.
  intros H Hlen. unfold find_peak.
  destruct (py_int_scaled (length sig) f_0_15 Hlen fbound_f_0_15)
    as (start & -> & _).
  destruct (py_int_scaled (length sig) f_0_85 Hlen fbound_f_0_85)
    as (stop & -> & _).
  cbn [res_bind]. unfold py_slice.
  rewrite py_any_all_nan by now apply all_nan_slice.
  reflexivity.
Qed.

Lemma vr_ratio_short d sig :
  length sig <= vr_window d -> all_nan (vr_ratio d sig).
Proof.
  intros H. unfold vr_ratio.
  pose proof (rolling_variance_short sig (vr_window d) H) as Hv.
  set (variance := compute_rolling_variance sig (vr_window d)) in *.
  apply Forall_forall. intros y Hy.
  apply in_map_iff in Hy. destruct Hy as [[v b] [<- Hvb]].
  apply in_combine_l in Hvb. rewrite Forall_forall in Hv.
  cbn [fst snd]. rewrite (isnan_true _ (Hv v Hvb)). reflexivity.
Qed.

Lemma VarianceRatioDetector_short d sig :
  length sig <= vr_window d -> is_zero (vr_threshold d) = false ->
  exists r, VarianceRatioDetector_detect d sig = Ok r /\
            detected r = false /\ detection_index r = None.
Proof.
  intros H Hz. unfold VarianceRatioDetector_detect, vr_candidates,
    vr_idx_low, vr_idx_high, py_fdiv. rewrite Hz. cbn [res_bind].
  rewrite !find_sustained_crossing_all_nan by now apply vr_ratio_short.
  cbn [app]. eexists. split; [reflexivity|split; reflexivity].
Qed.

Lemma VarianceDerivativeDetector_short d sig :
  length sig <= vd_window d -> (Z.of_nat (length sig) < 2 ^ 63)%Z ->
  exists r, VarianceDerivativeDetector_detect d sig = Ok r /\
            detected r = false /\ detection_index r = None.
Proof.
  intros H Hlen. unfold VarianceDerivativeDetector_detect.
  assert (Hd : all_nan
                 (vd_derivative d (compute_rolling_variance sig (vd_window d)))).
  { unfold vd_derivative. apply map_range_nan. intros i Hi.
    rewrite length_compute_rolling_variance in Hi.
    assert (Hlt : (i <? vd_derivative_window d + vd_window d) = true)
      by (apply Nat.ltb_lt; lia).
    now rewrite Hlt. }
  rewrite find_peak_all_nan.
  - cbn [res_bind]. eexists. split; [reflexivity|split; reflexivity].
  - now apply all_nan_map_abs.
  - unfold vd_derivative.
    now rewrite length_map, length_map, length_range,
      length_compute_rolling_variance, Nat.sub_0_r.
Qed.

Lemma RollingZScoreDetector_short d sig :
  length sig <= zs_window d ->
  exists r, RollingZScoreDetector_detect d sig = Ok r /\
            detected r = false /\ detection_index r = None.
Proof.
  intros H. unfold RollingZScoreDetector_detect.
  rewrite find_sustained_crossing_all_nan.
  - eexists. split; [reflexivity|split; reflexivity].
  - apply all_nan_map_abs. unfold zs_zscore. apply map_range_nan.
    intros i Hi. rewrite length_compute_rolling_variance in Hi.
    assert (Hlt : (i <? zs_zscore_window d + zs_window d) = true)
      by (apply Nat.ltb_lt; lia).
    now rewrite Hlt.
Qed.

Lemma count_true_valid_mask l :
  count_true (map (fun x => negb (isnan x)) l) = count_valid l.
Proof.
  unfold count_true, count_valid.
  induction l as [|x l IH]; [reflexivity|].
  cbn [map filter]. destruct (negb (isnan x)); cbn [length]; now rewrite IH.
Qed.

Lemma CUSUMDetector_short d sig :
  length sig <= cu_window d ->
  exists r, CUSUMDetector_detect d sig = Ok r /\
            detected r = false /\ detection_index r = None.
Proof.
  intros H. unfold CUSUMDetector_detect.
  rewrite count_true_valid_mask, count_valid_all_nan
    by now apply rolling_variance_short.
  cbn [Nat.ltb Nat.leb]. eexists. split; [reflexivity|split; reflexivity].
Qed.

Lemma ChangePointDetector_short d sig :
  length sig <= cp_window d -> 1 <= cp_min_segment d ->
  exists r, ChangePointDetector_detect d sig = Ok r /\
            detected r = false /\ detection_index r = None.
Proof.
  intros H Hms. unfold ChangePointDetector_detect.
  rewrite count_valid_all_nan by now apply rolling_variance_short.
  assert (Hlt : (0 <? 2 * cp_min_segment d) = true) by (apply Nat.ltb_lt; lia).
  rewrite Hlt. eexists. split; [reflexivity|split; reflexivity].
Qed.

(** The gradient of an array of NaN, when it has two entries or more. *)
Lemma np_gradient_all_nan f :
  all_nan f -> 2 <= length f ->
  exists g, np_gradient f = Ok g /\ all_nan g /\ length g = length f.
Proof.
  intros H Hlen. unfold np_gradient.
  assert (Hlt : (length f <? 2) = false) by (apply Nat.ltb_ge; lia).
  rewrite Hlt. eexists. split; [reflexivity|]. split.
  - apply map_range_nan. intros i _.
    rewrite !(nth_all_nan _ _ H).
    destruct (i =? 0); [reflexivity|].
    destruct (i =? length f - 1); reflexivity.
  - rewrite length_map, length_range. lia.
Qed.

Lemma VarianceInflectionDetector_short d sig :
  sig <> [] -> length sig <= vi_window d ->
  (Z.of_nat (length sig) < 2 ^ 63)%Z ->
  2 <= vi_smooth_window d -> (Z.of_nat (vi_smooth_window d) < 2 ^ 63)%Z ->
  exists r, VarianceInflectionDetector_detect d sig = Ok r /\
            detected r = false /\ detection_index r = None.
Proof.
  intros Hne H Hlen Hsw Hswlen.
  unfold VarianceInflectionDetector_detect, vi_inflection_signal.
  pose proof (rolling_variance_short sig (vi_window d) H) as Hv.
  pose proof (length_compute_rolling_variance sig (vi_window d)) as Hlv.
  set (variance := compute_rolling_variance sig (vi_window d)) in *.
  rewrite (np_nanmedian_all_nan variance Hv).
  set (valid_var := map (fun v => if isnan v then nan else v) variance).
  set (kernel := map (fun one => (one / of_nat (vi_smooth_window d))%f64)
                     (np_full (vi_smooth_window d) f_1)).
  assert (Hvv : all_nan valid_var).
  { apply Forall_forall. intros y Hy.
    apply in_map_iff in Hy. destruct Hy as [x [<- Hx]].
    rewrite Forall_forall in Hv. now rewrite (Hv x Hx). }
  assert (Hlvv : length valid_var = length sig)
    by (unfold valid_var; now rewrite length_map).
  assert (Hlk : length kernel = vi_smooth_window d)
    by (unfold kernel, np_full; now rewrite length_map, repeat_length).
  assert (Hn1 : valid_var <> []).
  { intros E. rewrite E in Hlvv. destruct sig; [congruence|discriminate]. }
  assert (Hn2 : kernel <> []).
  { intros E. rewrite E in Hlk. cbn [length] in Hlk. lia. }
  destruct (np_convolve_same_length valid_var kernel Hn1 Hn2)
    as (smoothed & Es & Hls).
  rewrite Es. cbn [res_bind].
  pose proof (np_convolve_same_all_nan _ _ _ Es Hvv) as Hsm.
  destruct (np_gradient_all_nan smoothed Hsm ltac:(lia)) as (d1 & E1 & Hd1 & Hl1).
  rewrite E1. cbn [res_bind].
  destruct (np_gradient_all_nan d1 Hd1 ltac:(lia)) as (d2 & E2 & Hd2 & Hl2).
  rewrite E2. cbn [res_bind].
  rewrite find_peak_all_nan.
  - cbn [res_bind]. eexists. split; [reflexivity|split; reflexivity].
  - now apply all_nan_map_abs.
  - rewrite length_map, Hl2, Hl1, Hls, Hlvv, Hlk.
    destruct (Nat.max_spec (length sig) (vi_smooth_window d))
      as [[_ ->]|[_ ->]]; assumption.
Qed.
End ShortSignals.

(** C2 (as amended).  On a non-empty signal with at most [window] samples,
    no rolling variance is defined and each of the six base detectors
    returns, without raising, a result with [detected = False] and
    [detection_index = None] (for a variance-ratio threshold that is not
    zero, a smoothing kernel of two taps or more and a minimum segment of
    one or more, as in the defaults; the lengths are those of Python
    sequences, below [2^63]). *)
Theorem short_signal_not_detected {NP : Numpy} (d : BaseDetector)
    (sig : list float) :
  sig <> [] ->
  length sig <= window_of d ->
  (Z.of_nat (length sig) < 2 ^ 63)%Z ->
  detector_ok d ->
  exists r, detect d sig = Ok r /\
            detected r = false /\ detection_index r = None.
Proof.
  intros Hne Hw Hlen Hok. destruct d as [d|d|d|d|d|d];
    cbn [detect window_of detector_ok] in *.
  - now apply VarianceRatioDetector_short.
  - now apply VarianceDerivativeDetector_short.
  - destruct Hok. now apply VarianceInflectionDetector_short.
  - now apply RollingZScoreDetector_short.
  - now apply CUSUMDetector_short.
  - now apply ChangePointDetector_short.
Qed.

(** The inflection detector on three samples. *)
Lemma short_signal_not_detected_witness :
  exists r,
    @detect RefNumpy (DVarianceInflection (VarianceInflectionDetector_init 40))
      (map of_Z [1; 2; 3]%Z) = Ok r /\
    detected r = false /\ detection_index r = None.
Proof.
  apply (@short_signal_not_detected RefNumpy
           (DVarianceInflection (VarianceInflectionDetector_init 40))
           (map of_Z [1; 2; 3]%Z)).
  - discriminate.
  - cbn. lia.
  - cbn. lia.
  - cbn. split; lia.
Defined.

(** C2 (as stated) fails.  The signal [[5, -5] * 30 + [0] * 59] has 119
    samples, fewer than [3 * 40], and [VarianceRatioDetector()] fires on
    it (at index 88): past index 80 the ratio of the variance to its
    median falls below [0.4] and stays there.  Every sum the run makes is
    exact. *)
Lemma VarianceRatio_fires_below_three_windows :
  ~ @degrades_below_three_windows RefNumpy.
Proof.
  intros H.
  destruct (H (DVarianceRatio (VarianceRatioDetector_init 40))
              signal_variance_down) as (r & E & Hd).
  { vm_compute. lia. }
  assert (E' : exists r',
             @detect RefNumpy (DVarianceRatio (VarianceRatioDetector_init 40))
               signal_variance_down = Ok r' /\
             detected r' = true).
  { vm_compute. eexists. split; reflexivity. }
  destruct E' as (r' & E' & Hd').
  rewrite E in E'. injection E' as ->. congruence.
Qed.

(* ================================================================== *)
(** * Dictionaries *)
(* ================================================================== *)

Lemma DetectorType_eqb_eq a b : DetectorType_eqb a b = true <-> a = b.
Proof. destruct a, b; cbn; split; congruence. Qed.

Lemma DetectorType_eqb_refl a : DetectorType_eqb a a = true.
Proof. now apply DetectorType_eqb_eq. Qed.

Lemma DetectorType_eqb_neq a b : DetectorType_eqb a b = false <-> a <> b.
Proof.
  destruct (DetectorType_eqb a b) eqn:E.
  - apply DetectorType_eqb_eq in E. split; congruence.
  - split; [|reflexivity]. intros _ H. apply DetectorType_eqb_eq in H.
    congruence.
Qed.

Section Dicts.
Context {V : Type}.

Lemma dict_lookup_update (d : dict V) k f k' :
  dict_lookup (dict_update d k f) k' =
  if DetectorType_eqb k k' then option_map f (dict_lookup d k')
  else dict_lookup d k'.
Proof.
  induction d as [|[k0 v] d IH]; cbn [dict_update dict_lookup option_map].
  - now destruct (DetectorType_eqb k k').
  - destruct (DetectorType_eqb k0 k) eqn:E0; cbn [dict_lookup].
    + apply DetectorType_eqb_eq in E0. subst k0.
      destruct (DetectorType_eqb k k'); reflexivity.
    + destruct (DetectorType_eqb k0 k') eqn:E1.
      * apply DetectorType_eqb_eq in E1. subst k0.
        apply DetectorType_eqb_neq in E0.
        assert (E2 : DetectorType_eqb k k' = false)
          by (apply DetectorType_eqb_neq; congruence).
        now rewrite E2.
      * exact IH.
Qed.

Lemma dict_lookup_set (d : dict V) k v k' :
  dict_lookup (dict_set d k v) k' =
  if DetectorType_eqb k k' then Some v else dict_lookup d k'.
Proof.
  induction d as [|[k0 v0] d IH]; cbn [dict_set dict_lookup].
  - reflexivity.
  - destruct (DetectorType_eqb k0 k) eqn:E0; cbn [dict_lookup].
    + apply DetectorType_eqb_eq in E0. subst k0.
      destruct (DetectorType_eqb k k'); reflexivity.
    + destruct (DetectorType_eqb k0 k') eqn:E1.
      * apply DetectorType_eqb_eq in E1. subst k0.
        apply DetectorType_eqb_neq in E0.
        assert (E2 : DetectorType_eqb k k' = false)
          by (apply DetectorType_eqb_neq; congruence).
        now rewrite E2.
      * exact IH.
Qed.

(** The keys of a dictionary are distinct when it is built by
    assignments. *)
Lemma dict_set_keys (d : dict V) k v :
  NoDup (map fst d) -> NoDup (map fst (dict_set d k v)).
Proof.
  induction d as [|[k0 v0] d IH]; cbn [dict_set map fst]; intros H.
  - constructor; [intros []|constructor].
  - destruct (DetectorType_eqb k0 k) eqn:E0; cbn [map fst]; [exact H|].
    inversion H as [|? ? Hn Hd]; subst. constructor; [|now apply IH].
    intros Hin. apply Hn.
    assert (Hk : forall (d : dict V), In k0 (map fst (dict_set d k v)) ->
                                 In k0 (map fst d)).
    { clear - E0. induction d as [|[k1 v1] d IH]; cbn [dict_set map fst].
      - intros [->|[]]. rewrite DetectorType_eqb_refl in E0. discriminate.
      - destruct (DetectorType_eqb k1 k); cbn [map fst]; [auto|].
        intros [->|H]; [now left|right; now apply IH]. }
    now apply Hk.
Qed.

Lemma dict_lookup_in (d : dict V) k :
  In k (map fst d) <-> exists v, dict_lookup d k = Some v.
Proof.
  induction d as [|[k0 v0] d IH]; cbn [map fst dict_lookup In].
  - split; [intros []|intros [v H]; discriminate].
  - destruct (DetectorType_eqb k0 k) eqn:E0.
    + apply DetectorType_eqb_eq in E0. split; [eauto|now left].
    + apply DetectorType_eqb_neq in E0. rewrite <- IH. tauto.
Qed.
End Dicts.

Lemma dict_comprehension_lookup {V} keys (f : DetectorType -> V) k :
  dict_lookup (dict_comprehension keys f) k =
  if existsb (fun k' => DetectorType_eqb k' k) keys then Some (f k) else None.
Proof.
  unfold dict_comprehension.
  assert (H : forall d,
             dict_lookup (fold_left (fun d k => dict_set d k (f k)) keys d) k =
             if existsb (fun k' => DetectorType_eqb k' k) keys
             then Some (f k) else dict_lookup d k).
  { induction keys as [|k0 keys IH]; intros d; cbn [fold_left existsb];
      [reflexivity|].
    rewrite IH, dict_lookup_set.
    destruct (DetectorType_eqb k0 k) eqn:E0; cbn [orb].
    - apply DetectorType_eqb_eq in E0. subst k0.
      now destruct (existsb _ keys).
    - reflexivity. }
  now rewrite H.
Qed.

Lemma dict_comprehension_keys {V} keys (f : DetectorType -> V) :
  NoDup (map fst (dict_comprehension keys f)).
Proof.
  unfold dict_comprehension.
  assert (H : forall d, NoDup (map fst d) ->
             NoDup (map fst (fold_left (fun d k => dict_set d k (f k)) keys d))).
  { induction keys as [|k0 keys IH]; intros d Hd; cbn [fold_left];
      [exact Hd|].
    apply IH. now apply dict_set_keys. }
  apply H. constructor.
Qed.

Lemma existsb_eqb_in keys k :
  existsb (fun k' => DetectorType_eqb k' k) keys = true <-> In k keys.
Proof.
  rewrite existsb_exists. split.
  - intros [x [Hx E]]. apply DetectorType_eqb_eq in E. now subst.
  - intros H. exists k. split; [exact H|apply DetectorType_eqb_refl].
Qed.

(* ================================================================== *)
(** * The harness *)
(* ================================================================== *)

Lemma score_metrics T dtype ttype true_idx detection st :
  metrics (score T dtype ttype true_idx detection st) =
  dict_update (metrics st) dtype (bump (classify T detection true_idx)).
Proof.
  unfold score, classify.
  destruct (detected detection); [|reflexivity].
  destruct (detection_index detection) as [idx|]; [|reflexivity].
  destruct (Z.abs (idx - true_idx) <=? T)%Z; reflexivity.
Qed.

Lemma score_detailed_results T dtype ttype true_idx detection st :
  detailed_results (score T dtype ttype true_idx detection st) =
  detailed_results st.
Proof.
  unfold score.
  destruct (detected detection); [|reflexivity].
  destruct (detection_index detection) as [idx|]; [|reflexivity].
  destruct (Z.abs (idx - true_idx) <=? T)%Z; reflexivity.
Qed.

Lemma bump_counts o m :
  pairs_counted (bump o m) = S (pairs_counted m) /\
  true_negatives (bump o m) = true_negatives m.
Proof. destruct o; unfold pairs_counted; cbn; split; lia. Qed.

Lemma has_key_in {V} (d : dict V) k :
  has_key d k = true <-> In k (map fst d).
Proof.
  unfold has_key. rewrite existsb_exists. split.
  - intros [[k0 v] [Hin E]]. apply DetectorType_eqb_eq in E. cbn in E.
    subst. now apply (in_map fst) in Hin.
  - intros H. apply in_map_iff in H. destruct H as [[k0 v] [E Hin]].
    cbn in E. subst. exists (k, v). split; [exact Hin|].
    apply DetectorType_eqb_refl.
Qed.

Section HarnessFacts.
Context {NP : Numpy}.

(** One pass over the detectors counts one more pair for each of them. *)
Lemma evaluate_detectors_counts T sim_ ds : forall st acc st' acc' k,
  NoDup (map fst ds) ->
  (forall dtype m, dict_lookup (metrics st) dtype = Some m ->
     true_negatives m = 0 /\
     pairs_counted m = if has_key ds dtype then k else S k) ->
  evaluate_detectors T sim_ ds (st, acc) = Ok (st', acc') ->
  forall dtype m, dict_lookup (metrics st') dtype = Some m ->
    true_negatives m = 0 /\ pairs_counted m = S k.
Proof.
  induction ds as [|[dtype0 det] rest IH]; intros st acc st' acc' k Hnd Hinv Hrun.
  - cbn in Hrun. injection Hrun as <- _. intros dtype m Hm.
    exact (Hinv dtype m Hm).
  - cbn [evaluate_detectors] in Hrun.
    destruct (Detector_detect det (state sim_)) as [detection|e];
      cbn [res_bind fst snd] in Hrun; [|discriminate Hrun].
    inversion Hnd as [|? ? Hnotin Hnd']; subst.
    refine (IH _ _ _ _ k Hnd' _ Hrun).
    intros dtype m Hm. rewrite score_metrics, dict_lookup_update in Hm.
    destruct (DetectorType_eqb dtype0 dtype) eqn:E.
    + apply DetectorType_eqb_eq in E. subst dtype.
      destruct (dict_lookup (metrics st) dtype0) as [m0|] eqn:E0;
        [|discriminate Hm].
      cbn [option_map] in Hm. injection Hm as <-.
      destruct (Hinv dtype0 m0 E0) as [Htn Hpc].
      cbn [has_key existsb fst] in Hpc.
      rewrite DetectorType_eqb_refl in Hpc. cbn [orb] in Hpc.
      destruct (bump_counts (classify T detection (transition_index sim_)) m0)
        as [Hb1 Hb2].
      assert (Hk : has_key rest dtype0 = false).
      { destruct (has_key rest dtype0) eqn:Ek; [|reflexivity].
        apply has_key_in in Ek. contradiction. }
      rewrite Hk. split; [congruence|lia].
    + destruct (Hinv dtype m Hm) as [Htn Hpc].
      cbn [has_key existsb fst] in Hpc. rewrite E in Hpc. cbn [orb] in Hpc.
      split; assumption.
Qed.

Lemma dict_update_keys {V} (d : dict V) k f :
  map fst (dict_update d k f) = map fst d.
Proof.
  induction d as [|[k0 v] d IH]; cbn [dict_update map fst]; [reflexivity|].
  destruct (DetectorType_eqb k0 k); cbn [map fst]; [reflexivity|].
  now rewrite IH.
Qed.

Lemma evaluate_detectors_keys T sim_ ds : forall st acc st' acc',
  evaluate_detectors T sim_ ds (st, acc) = Ok (st', acc') ->
  map fst (metrics st') = map fst (metrics st).
Proof.
  induction ds as [|[dtype0 det] rest IH]; intros st acc st' acc' Hrun.
  - cbn in Hrun. now injection Hrun as <- _.
  - cbn [evaluate_detectors] in Hrun.
    destruct (Detector_detect det (state sim_)) as [detection|e];
      cbn [res_bind fst snd] in Hrun; [|discriminate Hrun].
    apply IH in Hrun. rewrite Hrun, score_metrics. apply dict_update_keys.
Qed.

(** A pass over the corpus counts one pair per simulation for each
    detector. *)
Lemma evaluate_dataset_counts T ds dataset : forall i st st' k,
  NoDup (map fst ds) ->
  map fst (metrics st) = map fst ds ->
  (forall dtype m, dict_lookup (metrics st) dtype = Some m ->
     true_negatives m = 0 /\ pairs_counted m = k) ->
  evaluate_dataset T ds i dataset st = Ok st' ->
  map fst (metrics st') = map fst ds /\
  forall dtype m, dict_lookup (metrics st') dtype = Some m ->
    true_negatives m = 0 /\ pairs_counted m = k + length dataset.
Proof.
  induction dataset as [|sim_ rest IH]; intros i st st' k Hnd Hkeys Hinv Hrun.
  - cbn in Hrun. injection Hrun as <-. split; [exact Hkeys|].
    intros dtype m Hm. cbn [length]. rewrite Nat.add_0_r.
    exact (Hinv dtype m Hm).
  - cbn [evaluate_dataset] in Hrun.
    destruct (evaluate_detectors T sim_ ds (st, [])) as [[st1 dets]|e] eqn:E1;
      cbn [res_bind] in Hrun; [|discriminate Hrun].
    pose proof (evaluate_detectors_keys _ _ _ _ _ _ _ E1) as Hk1.
    assert (Hinv1 : forall dtype m,
               dict_lookup (metrics st1) dtype = Some m ->
               true_negatives m = 0 /\ pairs_counted m = S k).
    { refine (evaluate_detectors_counts _ _ _ _ _ _ _ k Hnd _ E1).
      intros dtype' m' Hm'. destruct (Hinv dtype' m' Hm') as [Htn Hpc].
      assert (Hin : has_key ds dtype' = true).
      { apply has_key_in. rewrite <- Hkeys.
        apply dict_lookup_in. eauto. }
      rewrite Hin. split; assumption. }
    apply (IH _ _ _ (S k) Hnd) in Hrun.
    + destruct Hrun as [Hk' Hc]. split; [exact Hk'|].
      intros dtype m Hm. cbn [length].
      replace (k + S (length rest)) with (S k + length rest) by lia.
      exact (Hc dtype m Hm).
    + cbn [metrics]. congruence.
    + cbn [metrics]. exact Hinv1.
Qed.

Lemma dict_comprehension_same_keys {V W} keys (f : DetectorType -> V)
    (g : DetectorType -> W) :
  map fst (dict_comprehension keys f) = map fst (dict_comprehension keys g).
Proof.
  unfold dict_comprehension.
  assert (H : forall (d : dict V) (d' : dict W),
             map fst d = map fst d' ->
             map fst (fold_left (fun d k => dict_set d k (f k)) keys d) =
             map fst (fold_left (fun d k => dict_set d k (g k)) keys d')).
  { induction keys as [|k0 keys IH]; intros d d' Hd; cbn [fold_left];
      [exact Hd|].
    apply IH. clear IH. revert d' Hd.
    induction d as [|[k1 v1] d IHd]; intros [|[k2 v2] d'] Hd;
      cbn [map fst] in Hd; try discriminate Hd; [reflexivity|].
    injection Hd as -> Hd. cbn [dict_set].
    destruct (DetectorType_eqb k2 k0); cbn [map fst]; [now rewrite Hd|].
    now rewrite (IHd d' Hd). }
  now apply H.
Qed.

(** The counts after the evaluation of a corpus. *)
Lemma evaluate_corpus_counts cfg dataset st :
  evaluate_corpus cfg dataset = Ok st ->
  forall dtype, In dtype (detector_types cfg) ->
    exists m, dict_lookup (metrics st) dtype = Some m /\
              true_negatives m = 0 /\
              pairs_counted m = length dataset.
Proof.
  unfold evaluate_corpus. intros Hrun dtype Hin.
  apply (evaluate_dataset_counts _ _ _ _ _ _ 0) in Hrun.
  - destruct Hrun as [Hkeys Hc].
    assert (Hk : In dtype (map fst (metrics st))).
    { rewrite Hkeys. apply dict_lookup_in.
      unfold harness_detectors. rewrite dict_comprehension_lookup.
      apply existsb_eqb_in in Hin. rewrite Hin. eauto. }
    apply dict_lookup_in in Hk. destruct Hk as [m Hm].
    exists m. split; [exact Hm|]. exact (Hc dtype m Hm).
  - apply dict_comprehension_keys.
  - apply dict_comprehension_same_keys.
  - intros dtype' m Hm. cbn [initial_state metrics] in Hm.
    rewrite dict_comprehension_lookup in Hm.
    destruct (existsb _ _); [|discriminate Hm].
    injection Hm as <-. split; reflexivity.
Qed.

Lemma evaluate_corpus_pairs cfg dataset st :
  evaluate_corpus cfg dataset = Ok st ->
  forall dtype m, dict_lookup (metrics st) dtype = Some m ->
    pairs_counted m = length dataset.
Proof.
  unfold evaluate_corpus. intros Hrun dtype m Hm.
  apply (evaluate_dataset_counts _ _ _ _ _ _ 0) in Hrun.
  - destruct Hrun as [_ Hc]. now destruct (Hc dtype m Hm).
  - apply dict_comprehension_keys.
  - apply dict_comprehension_same_keys.
  - intros dtype' m' Hm'. cbn [initial_state metrics] in Hm'.
    rewrite dict_comprehension_lookup in Hm'.
    destruct (existsb _ _); [|discriminate Hm'].
    injection Hm' as <-. split; reflexivity.
Qed.


End HarnessFacts.


(** ** The recorded error *)


Section RecordFacts.
Context {NP : Numpy}.


End RecordFacts.


(** ** Widening the tolerance *)

Lemma classify_true_positive_mono T1 T2 detection true_idx :
  (T1 <= T2)%Z ->
  classify T1 detection true_idx = TruePositive ->
  classify T2 detection true_idx = TruePositive.
Proof.
  unfold classify. intros HT.
  destruct (detected detection); [|discriminate].
  destruct (detection_index detection) as [idx|]; [|discriminate].
  destruct (Z.abs (idx - true_idx) <=? T1)%Z eqn:E1; [|discriminate].
  apply Z.leb_le in E1.
  assert (E2 : (Z.abs (idx - true_idx) <=? T2)%Z = true)
    by (apply Z.leb_le; lia).
  now rewrite E2.
Qed.

(** The outcomes of one detection at two tolerances. *)
Lemma classify_pairs T1 T2 detection true_idx :
  (T1 <= T2)%Z ->
  let o1 := classify T1 detection true_idx in
  let o2 := classify T2 detection true_idx in
  (o1 = FalseNegative /\ o2 = FalseNegative) \/
  (o1 = TruePositive /\ o2 = TruePositive) \/
  (o1 = FalsePositive /\ o2 = TruePositive) \/
  (o1 = FalsePositive /\ o2 = FalsePositive).
Proof.
  intros HT o1 o2.
  pose proof (classify_true_positive_mono T1 T2 detection true_idx HT) as Hm.
  fold o1 o2 in Hm. subst o1 o2. unfold classify in *.
  destruct (detected detection); [|now left].
  destruct (detection_index detection) as [idx|]; [|now left].
  destruct (Z.abs (idx - true_idx) <=? T1)%Z.
  - rewrite (Hm eq_refl). right; left; split; reflexivity.
  - destruct (Z.abs (idx - true_idx) <=? T2)%Z;
      right; right; [left|right]; split; reflexivity.
Qed.

Lemma widened_bump T1 T2 detection true_idx m1 m2 :
  (T1 <= T2)%Z -> widened m1 m2 ->
  widened (bump (classify T1 detection true_idx) m1)
          (bump (classify T2 detection true_idx) m2).
Proof.
  intros HT (H1 & H2 & H3 & H4).
  destruct (classify_pairs T1 T2 detection true_idx HT)
    as [[-> ->]|[[-> ->]|[[-> ->]|[-> ->]]]];
    unfold widened; cbn; repeat split; lia.
Qed.

Section ToleranceFacts.
Context {NP : Numpy}.

Lemma evaluate_detectors_widened T1 T2 sim_ ds :
  (T1 <= T2)%Z ->
  forall st1 st2 acc1 acc2 st1' st2' acc1' acc2',
  (forall dtype, widened_opt (dict_lookup (metrics st1) dtype)
                             (dict_lookup (metrics st2) dtype)) ->
  evaluate_detectors T1 sim_ ds (st1, acc1) = Ok (st1', acc1') ->
  evaluate_detectors T2 sim_ ds (st2, acc2) = Ok (st2', acc2') ->
  forall dtype, widened_opt (dict_lookup (metrics st1') dtype)
                            (dict_lookup (metrics st2') dtype).
Proof.
  intros HT.
  induction ds as [|[dtype0 det] rest IH];
    intros st1 st2 acc1 acc2 st1' st2' acc1' acc2' Hrel H1 H2.
  - cbn in H1, H2. injection H1 as <- _. injection H2 as <- _. exact Hrel.
  - cbn [evaluate_detectors] in H1, H2.
    destruct (Detector_detect det (state sim_)) as [detection|e];
      cbn [res_bind fst snd] in H1, H2; [|discriminate H1].
    refine (IH _ _ _ _ _ _ _ _ _ H1 H2).
    intros dtype. rewrite !score_metrics, !dict_lookup_update.
    specialize (Hrel dtype).
    destruct (DetectorType_eqb dtype0 dtype); [|exact Hrel].
    destruct (dict_lookup (metrics st1) dtype) as [m1|],
             (dict_lookup (metrics st2) dtype) as [m2|];
      cbn [option_map widened_opt] in *; try contradiction; [|exact I].
    now apply widened_bump.
Qed.

Lemma evaluate_dataset_widened T1 T2 ds dataset :
  (T1 <= T2)%Z ->
  forall i st1 st2 st1' st2',
  (forall dtype, widened_opt (dict_lookup (metrics st1) dtype)
                             (dict_lookup (metrics st2) dtype)) ->
  evaluate_dataset T1 ds i dataset st1 = Ok st1' ->
  evaluate_dataset T2 ds i dataset st2 = Ok st2' ->
  forall dtype, widened_opt (dict_lookup (metrics st1') dtype)
                            (dict_lookup (metrics st2') dtype).
Proof.
  intros HT.
  induction dataset as [|sim_ rest IH]; intros i st1 st2 st1' st2' Hrel H1 H2.
  - cbn in H1, H2. injection H1 as <-. injection H2 as <-. exact Hrel.
  - cbn [evaluate_dataset] in H1, H2.
    destruct (evaluate_detectors T1 sim_ ds (st1, [])) as [[s1 d1]|e] eqn:E1;
      cbn [res_bind] in H1; [|discriminate H1].
    destruct (evaluate_detectors T2 sim_ ds (st2, [])) as [[s2 d2]|e] eqn:E2;
      cbn [res_bind] in H2; [|discriminate H2].
    refine (IH _ _ _ _ _ _ H1 H2). cbn [metrics].
    exact (evaluate_detectors_widened T1 T2 sim_ ds HT _ _ _ _ _ _ _ _
             Hrel E1 E2).
Qed.
End ToleranceFacts.

Lemma widened_ratio_le m1 m2 :
  widened m1 m2 ->
  ratio_le (true_positives m1) (true_positives m1 + false_positives m1)
           (true_positives m2) (true_positives m2 + false_positives m2) /\
  ratio_le (true_positives m1) (true_positives m1 + false_negatives m1)
           (true_positives m2) (true_positives m2 + false_negatives m2).
Proof.
  intros (H1 & H2 & H3 & H4). unfold ratio_le. split.
  - rewrite <- H4.
    destruct (true_positives m1 + false_positives m1 =? 0) eqn:E; [lia|].
    nia.
  - rewrite <- H3.
    set (a := true_positives m1) in *. set (c := true_positives m2) in *.
    set (f := false_negatives m1) in *.
    destruct (Nat.eqb_spec (a + f) 0) as [E1|E1];
      destruct (Nat.eqb_spec (c + f) 0) as [E2|E2]; try lia.
    rewrite !Nat.mul_add_distr_l, (Nat.mul_comm c a).
    apply Nat.add_le_mono_l, Nat.mul_le_mono_r. exact H1.
Qed.

(** The floats that [precision] and [recall] return are ordered as the
    exact quotients, for counts that floats hold exactly. *)
Lemma widened_precision_recall m1 m2 :
  widened m1 m2 ->
  (Z.of_nat (pairs_counted m1) < 2 ^ 53)%Z ->
  (Z.of_nat (pairs_counted m2) < 2 ^ 53)%Z ->
  (precision m1 <=? precision m2)%f64 = true /\
  (recall m1 <=? recall m2)%f64 = true.
Proof.
  intros Hw B1 B2. destruct (widened_ratio_le m1 m2 Hw) as [Hp Hr].
  unfold pairs_counted in B1, B2. unfold ratio_le in Hp, Hr.
  split.
  - change (SFleb (count_ratio (true_positives m1)
                     (true_positives m1 + false_positives m1))
                  (count_ratio (true_positives m2)
                     (true_positives m2 + false_positives m2)) = true).
    apply count_ratio_le; lia.
  - change (SFleb (count_ratio (true_positives m1)
                     (true_positives m1 + false_negatives m1))
                  (count_ratio (true_positives m2)
                     (true_positives m2 + false_negatives m2)) = true).
    apply count_ratio_le; lia.
Qed.

(** C4.  For a fixed corpus and fixed detectors (hence fixed detection
    outcomes and fixed true indices), the classification is monotone in
    the tolerance: when [T1 <= T2], a pair that is a true positive at [T1]
    is a true positive at [T2] (so no true positive becomes a false
    positive), and for every detector the true positives do not decrease,
    the false positives do not increase, the false negatives do not
    change, and neither [precision] nor [recall] decreases, as exact
    quotients of the counts and as the floats the two properties return
    (the counts of a corpus of fewer than [2^53] simulations are floats
    exactly). *)
Theorem wider_tolerance_monotone {NP : Numpy} (cfg : ExperimentConfig)
    (dataset : list SimulationResult) (T1 T2 : Z) (st1 st2 : HarnessState) :
  (T1 <= T2)%Z ->
  (Z.of_nat (length dataset) < 2 ^ 53)%Z ->
  evaluate_corpus (with_tolerance cfg T1) dataset = Ok st1 ->
  evaluate_corpus (with_tolerance cfg T2) dataset = Ok st2 ->
  (forall detection true_idx,
      classify T1 detection true_idx = TruePositive ->
      classify T2 detection true_idx = TruePositive) /\
  forall dtype m1,
    dict_lookup (metrics st1) dtype = Some m1 ->
    exists m2,
      dict_lookup (metrics st2) dtype = Some m2 /\
      true_positives m1 <= true_positives m2 /\
      false_positives m2 <= false_positives m1 /\
      false_negatives m1 = false_negatives m2 /\
      ratio_le (true_positives m1) (true_positives m1 + false_positives m1)
               (true_positives m2) (true_positives m2 + false_positives m2) /\
      ratio_le (true_positives m1) (true_positives m1 + false_negatives m1)
               (true_positives m2) (true_positives m2 + false_negatives m2) /\
      (precision m1 <=? precision m2)%f64 = true /\
      (recall m1 <=? recall m2)%f64 = true.
Proof.
  intros HT Hsize H1 H2. split.
  - intros detection true_idx. now apply classify_true_positive_mono.
  - intros dtype m1 Hm1.
    pose proof (evaluate_corpus_pairs _ _ _ H1) as Hpairs1.
    pose proof (evaluate_corpus_pairs _ _ _ H2) as Hpairs2.
    unfold evaluate_corpus in H1, H2.
    cbn [with_tolerance detection_tolerance] in H1, H2.
    assert (Hrel : widened_opt (dict_lookup (metrics st1) dtype)
                               (dict_lookup (metrics st2) dtype)).
    { refine (evaluate_dataset_widened T1 T2 _ dataset HT 0 _ _ _ _ _ H1 H2 dtype).
      intros dtype'. cbn [initial_state metrics with_tolerance detector_types].
      destruct (dict_lookup _ dtype') as [m|] eqn:E; cbn [widened_opt];
        [|exact I].
      rewrite dict_comprehension_lookup in E.
      destruct (existsb _ _); [|discriminate E]. injection E as <-.
      unfold widened. cbn. lia. }
    rewrite Hm1 in Hrel.
    destruct (dict_lookup (metrics st2) dtype) as [m2|] eqn:Hm2;
      cbn [widened_opt] in Hrel; [|contradiction].
    exists m2. split; [reflexivity|].
    destruct (widened_ratio_le m1 m2 Hrel) as [Hp Hr].
    destruct (widened_precision_recall m1 m2 Hrel) as [Hpf Hrf].
    { rewrite (Hpairs1 dtype m1 Hm1). exact Hsize. }
    { rewrite (Hpairs2 dtype m2 Hm2). exact Hsize. }
    destruct Hrel as (Ha & Hb & Hc & Hd).
    repeat split; assumption.
Qed.

(* ================================================================== *)
(** * The simulators *)
(* ================================================================== *)

Section SimulatorFacts.
Context {NP : Numpy}.

(** Once a seed is given, the state of the generator before the call
    does not matter. *)
Lemma reseed_given cfg g1 g2 :
  seed cfg <> None -> reseed cfg g1 = reseed cfg g2.
Proof.
  unfold reseed. destruct (seed cfg); [reflexivity|congruence].
Qed.

Lemma simulate_seeded cfg g :
  simulate cfg g =
  ('(_, g) <- reseed cfg g ;;
   match transition_type cfg with
   | PITCHFORK => simulate_pitchfork_seeded cfg g
   | SADDLE_NODE => simulate_saddle_node_seeded cfg g
   | HOPF => simulate_hopf_seeded cfg g
   | TRANSCRITICAL => simulate_transcritical_seeded cfg g
   | NUCLEATION => simulate_nucleation_seeded cfg g
   | COMMITMENT => simulate_commitment_seeded cfg g
   end)%res.
Proof.
  unfold simulate. destruct (transition_type cfg); reflexivity.
Qed.
End SimulatorFacts.

(** C1.  With a seed in the configuration, two calls of [simulate] on
    that configuration give the same outcome whatever the state of the
    random generator before each call: the same result (state, control
    parameter, variance trajectory, transition index and the other
    fields) and the same generator state afterwards, or the same
    exception. *)
Theorem simulate_deterministic {NP : Numpy} (cfg : SimulationConfig)
    (g1 g2 : rng) :
  seed cfg <> None ->
  simulate cfg g1 = simulate cfg g2.
Proof.
  intros H. rewrite !simulate_seeded.
  now rewrite (reseed_given cfg g1 g2 H).
Qed.

(** ** The sign of a rounded product *)

Section FloatSigns.
Local Open Scope Z_scope.

Lemma binary_round_aux_nonneg M E l :
  0 <= M -> fnonneg (binary_round_aux 53 1024 false M E l).
Proof.
  intros HM. unfold binary_round_aux, shr_fexp.
  set (k1 := fexp 53 1024 (Zdigits2 M + E) - E).
  pose proof (shr_spec (shr_record_of_loc M l) E k1) as H1.
  rewrite shr_m_record_of_loc in H1. specialize (H1 HM).
  destruct (shr (shr_record_of_loc M l) E k1) as [mrs' e'].
  cbn [fst snd] in H1. destruct H1 as [Hm1 _].
  set (m2 := round_nearest_even (shr_m mrs') (loc_of_shr_record mrs')).
  pose proof (round_nearest_even_bounds (shr_m mrs') (loc_of_shr_record mrs'))
    as Hm2. fold m2 in Hm2.
  assert (Hm1nn : 0 <= shr_m mrs')
    by (rewrite Hm1; apply Z.div_pos; [lia|apply Z.pow_pos_nonneg; lia]).
  assert (Hm2nn : 0 <= m2) by lia.
  set (k2 := fexp 53 1024 (Zdigits2 m2 + e') - e').
  pose proof (shr_spec (shr_record_of_loc m2 loc_Exact) e' k2) as H2.
  rewrite shr_m_record_of_loc in H2. specialize (H2 Hm2nn).
  destruct (shr (shr_record_of_loc m2 loc_Exact) e' k2) as [mrs'' e''].
  cbn [fst snd] in H2. destruct H2 as [Hm3 _].
  assert (Hm3nn : 0 <= shr_m mrs'')
    by (rewrite Hm3; apply Z.div_pos; [lia|apply Z.pow_pos_nonneg; lia]).
  destruct (shr_m mrs'') as [|m3|m3]; [exact I| |].
  - destruct (e'' <=? 1024 - 53); exact I.
  - exfalso. apply Hm3nn. reflexivity.
Qed.

Lemma of_Z_nonneg z : 0 <= z -> fnonneg (of_Z z).
Proof.
  intros Hz. unfold of_Z, binary_normalize.
  destruct z as [|p|p]; [exact I| |lia].
  unfold binary_round.
  destruct (shl_align p 0 (fexp 53 1024 (Z.pos (digits2_pos p) + 0)))
    as [mz ez].
  apply binary_round_aux_nonneg. lia.
Qed.

Lemma fmul_nonneg x y : fnonneg x -> fnonneg y -> ~ isnan (fmul x y) = true ->
  fnonneg (fmul x y).
Proof.
  intros Hx Hy Hn.
  destruct x as [sx|[]| |[] mx ex]; try contradiction;
    destruct y as [sy|[]| |[] my ey]; try contradiction;
    try exact I; try (exfalso; apply Hn; reflexivity).
  unfold fmul. cbn [SFmul xorb]. apply binary_round_aux_nonneg. lia.
Qed.

Lemma py_int_nonneg x z : fnonneg x -> py_int x = Ok z -> 0 <= z.
Proof.
  destruct x as [s|[]| |[] m e]; try contradiction; intros _ H;
    cbn [py_int] in H; try discriminate H.
  - injection H as <-. lia.
  - injection H as <-.
    destruct (0 <=? e) eqn:He.
    + pose proof (Z.pow_nonneg 2 e ltac:(lia)) as Hp.
      destruct (2 ^ e); [reflexivity|apply Pos2Z.is_nonneg|].
      exfalso. apply Hp. reflexivity.
    + apply Z.leb_gt in He.
      pose proof (Z.pow_pos_nonneg 2 (- e) ltac:(lia) ltac:(lia)).
      apply Z.div_pos; lia.
Qed.

(** [int(n * c)] is not negative, for a size [n] and a float [c] that is
    zero or positive. *)
Lemma py_int_scaled_nonneg (n : nat) (c : float) z :
  fnonneg c -> py_int (of_nat n * c)%f64 = Ok z -> 0 <= z.
Proof.
  intros Hc H. apply (py_int_nonneg (of_nat n * c)%f64); [|exact H].
  apply fmul_nonneg; [apply of_Z_nonneg; lia|exact Hc|].
  intros Hn. apply isnan_true in Hn. rewrite Hn in H. discriminate H.
Qed.
End FloatSigns.

(** ** Lengths and bounds in the simulators *)

Lemma argmax_scan_bound l : forall mp best i,
  best < i -> argmax_scan mp best i l < i + length l \/ l = [] /\
  argmax_scan mp best i l = best.
Proof.
  induction l as [|x l IH]; intros mp best i Hb; cbn [argmax_scan length].
  - right. split; reflexivity.
  - left. destruct (negb (x <=? mp)%f64).
    + destruct (isnan x); [lia|].
      destruct (IH x i (S i) ltac:(lia)) as [H|[-> H]]; [lia|].
      cbn [argmax_scan]. cbn [length]. lia.
    + destruct (IH mp best (S i) ltac:(lia)) as [H|[-> H]]; [lia|].
      cbn [argmax_scan length]. lia.
Qed.

Lemma np_argmax_bound l i : np_argmax l = Ok i -> i < length l.
Proof.
  destruct l as [|x l]; cbn [np_argmax]; [discriminate|].
  intros H. injection H as <-. cbn [length].
  destruct (isnan x); [lia|].
  destruct (argmax_scan_bound l x 0 1 ltac:(lia)) as [H|[_ H]]; lia.
Qed.

Lemma length_np_linspace a b n : length (np_linspace a b n) = n.
Proof.
  unfold np_linspace.
  assert (H : forall y : list float, length y = n ->
             length (if 1 <? n then removelast (map (fun v => (v + a)%f64) y)
                                    ++ [b]
                     else map (fun v => (v + a)%f64) y) = n).
  { intros y Hy. destruct (1 <? n) eqn:E.
    - apply Nat.ltb_lt in E. rewrite length_app.
      destruct (map (fun v => (v + a)%f64) y) as [|z zs] eqn:Em.
      + apply (f_equal (@length _)) in Em. rewrite length_map in Em.
        cbn in Em. lia.
      + assert (Hz : length (z :: zs) = n) by (rewrite <- Em, length_map; lia).
        rewrite removelast_firstn_len, length_firstn. cbn [length] in *. lia.
    - now rewrite length_map. }
  destruct (0 <? n - 1); [destruct (SFeqb _ _)|]; apply H;
    rewrite !length_map, length_range; lia.
Qed.

Section SimulatorLengths.
Context {NP : Numpy}.

Lemma length_sde_loop {St} (step : nat -> St -> rng -> St * rng) count :
  forall i prev g, length (fst (sde_loop step i count prev g)) = count.
Proof.
  induction count as [|count IH]; intros i prev g; cbn [sde_loop];
    [reflexivity|].
  destruct (step i prev g) as [x g1].
  specialize (IH (S i) x g1).
  destruct (sde_loop step (S i) count x g1) as [xs g2].
  cbn [fst length] in *. now rewrite IH.
Qed.

Lemma length_compute_variance_trajectory st w :
  length (compute_variance_trajectory st w) = length st.
Proof.
  unfold compute_variance_trajectory.
  rewrite length_map, length_range. lia.
Qed.

Lemma length_time_axis n step : length (time_axis n step) = n.
Proof. unfold time_axis. rewrite length_map, length_range. lia. Qed.

Lemma fnonneg_f_0_1 : fnonneg f_0_1.
Proof. exact I. Qed.

Lemma fnonneg_f_0_9 : fnonneg (f_1 - f_0_1)%f64.
Proof. vm_compute. exact I. Qed.

(** The index found by the two methods the simulators use is a position
    of the trajectory. *)
Lemma find_transition_index_bounds st method z :
  method <> StateThreshold -> 0 < length st ->
  find_transition_index st method = Ok z ->
  (0 <= z < Z.of_nat (length st))%Z.
Proof.
  intros Hm Hn. unfold find_transition_index.
  destruct (py_int (of_nat (length st) * f_0_1)%f64) as [start|e] eqn:Es;
    cbn [res_bind]; [|discriminate].
  destruct (py_int (of_nat (length st) * (f_1 - f_0_1))%f64) as [stop|e] eqn:Ee;
    cbn [res_bind]; [|discriminate].
  pose proof (py_int_scaled_nonneg _ _ _ fnonneg_f_0_1 Es) as Hs.
  destruct method; [| |congruence].
  - unfold fti_derivative.
    destruct (if 1 <? Nat.min 20 (length st / 20) then _ else _)
      as [smoothed|e]; cbn [res_bind]; [|discriminate].
    destruct (start <? stop)%Z.
    + destruct (np_argmax _) as [i|e]; cbn [res_bind]; [|discriminate].
      intros H. injection H as <-. lia.
    + cbn [res_bind]. intros H. injection H as <-. lia.
  - unfold fti_variance_peak.
    destruct (negb (py_any _)).
    + intros H. injection H as <-.
      change (fst (Nat.divmod (length st) 1 0 1)) with (length st / 2).
      assert (length st / 2 < length st)%nat
        by (apply Nat.div_lt; lia).
      lia.
    + destruct (np_argmax _) as [i|e] eqn:Ea; cbn [res_bind]; [|discriminate].
      intros H. injection H as <-.
      apply np_argmax_bound in Ea.
      rewrite length_map, length_combine, length_range,
        length_compute_variance_trajectory in Ea. lia.
Qed.

(** The common ending keeps the lengths. *)
Lemma finish_lengths cfg ttype x control observed method g r g' :
  method <> StateThreshold ->
  0 < duration cfg ->
  length x = duration cfg -> length control = duration cfg ->
  length observed = duration cfg ->
  finish cfg ttype x control observed method g = Ok (r, g') ->
  length (time r) = duration cfg /\
  length (state r) = duration cfg /\
  length (control_param r) = duration cfg /\
  length (variance_trajectory r) = duration cfg /\
  (0 <= transition_index r < Z.of_nat (duration cfg))%Z.
Proof.
  intros Hm Hd Hx Hc Ho. unfold finish.
  destruct (find_transition_index observed method) as [z|e] eqn:E;
    cbn [res_bind]; [|discriminate].
  intros H. injection H as <- _.
  cbn [time state control_param variance_trajectory transition_index].
  apply find_transition_index_bounds in E; [|exact Hm|lia].
  rewrite length_time_axis, length_compute_variance_trajectory, Ho in *.
  repeat split; try assumption; lia.
Qed.

Lemma length_np_iadd a b r : np_iadd a b = Ok r -> length r = length a.
Proof.
  unfold np_iadd. destruct (length b =? length a) eqn:E.
  - apply Nat.eqb_eq in E. intros H. injection H as <-.
    rewrite length_map, length_combine. lia.
  - destruct b as [|x [|y b]]; try discriminate.
    intros H. injection H as <-. now rewrite length_map.
Qed.

Lemma length_force_transition x target x' :
  force_transition x target = Ok x' -> length x' = length x.
Proof.
  unfold force_transition.
  destruct (np_iadd _ _) as [tail|e] eqn:E; cbn [res_bind]; [|discriminate].
  intros H. injection H as <-. apply length_np_iadd in E.
  rewrite length_app, E, length_firstn, length_skipn. lia.
Qed.
End SimulatorLengths.

Section SimulateLengths.
Context {NP : Numpy}.

Ltac after_reseed cfg g :=
  destruct (reseed cfg g) as [[[] ?g]|?e]; cbn [res_bind]; [|discriminate].

Ltac run_loop :=
  cbv zeta;
  match goal with
  | |- context [sde_loop ?s ?i ?c ?p ?g] =>
      let Hl := fresh "Hl" in
      pose proof (length_sde_loop s c i p g) as Hl;
      destruct (sde_loop s i c p g) as [?xs ?g];
      cbn [fst] in Hl
  end.

Ltac by_finish :=
  let H := fresh "H" in
  intros H; apply finish_lengths in H;
  [exact H|discriminate|assumption| | |];
  rewrite ?length_map, ?length_np_linspace; cbn [length];
  unfold complex in *; lia.

Lemma simulate_pitchfork_lengths : keeps_lengths simulate_pitchfork.
Proof.
  intros cfg g r g' Hd. unfold simulate_pitchfork. after_reseed cfg g.
  unfold simulate_pitchfork_seeded.
  destruct (np_random_randn g0) as [z0 g1].
  destruct (duration cfg =? 0); [discriminate|].
  run_loop. by_finish.
Qed.

Lemma simulate_saddle_node_lengths : keeps_lengths simulate_saddle_node.
Proof.
  intros cfg g r g' Hd. unfold simulate_saddle_node. after_reseed cfg g.
  unfold simulate_saddle_node_seeded.
  destruct (np_random_randn g0) as [z0 g1].
  destruct (duration cfg =? 0); [discriminate|].
  run_loop. by_finish.
Qed.

Lemma simulate_hopf_lengths : keeps_lengths simulate_hopf.
Proof.
  intros cfg g r g' Hd. unfold simulate_hopf. after_reseed cfg g.
  unfold simulate_hopf_seeded.
  destruct (duration cfg =? 0); [discriminate|].
  run_loop. by_finish.
Qed.

Lemma simulate_transcritical_lengths : keeps_lengths simulate_transcritical.
Proof.
  intros cfg g r g' Hd. unfold simulate_transcritical. after_reseed cfg g.
  unfold simulate_transcritical_seeded.
  destruct (duration cfg =? 0); [discriminate|].
  run_loop. by_finish.
Qed.

Lemma simulate_nucleation_lengths : keeps_lengths simulate_nucleation.
Proof.
  intros cfg g r g' Hd. unfold simulate_nucleation. after_reseed cfg g.
  unfold simulate_nucleation_seeded.
  destruct (py_int _) as [trans_target|e]; cbn [res_bind]; [|discriminate].
  destruct (duration cfg =? 0); [discriminate|].
  run_loop.
  destruct (py_get _ trans_target) as [at_target|e]; cbn [res_bind];
    [|discriminate].
  destruct (at_target <? fzero)%f64.
  - destruct (force_transition _ trans_target) as [x|e] eqn:Ef;
      cbn [res_bind]; [|discriminate].
    apply length_force_transition in Ef. cbn [length] in Ef.
    by_finish.
  - cbn [res_bind]. by_finish.
Qed.

Lemma simulate_commitment_lengths : keeps_lengths simulate_commitment.
Proof.
  intros cfg g r g' Hd. unfold simulate_commitment. after_reseed cfg g.
  unfold simulate_commitment_seeded.
  destruct (py_int _) as [trans_target|e]; cbn [res_bind]; [|discriminate].
  run_loop.
  destruct (duration cfg) as [|n] eqn:En; [lia|].
  rewrite <- En in *. by_finish.
Qed.
End SimulateLengths.

(** C7. Whenever [simulate] returns a result for a configuration of
    duration [n > 0], whatever the archetype: the time axis, the state,
    the control parameter and the variance trajectory all have length
    [n], and the transition index lies in [0, n). *)
Theorem simulate_length_invariants {NP : Numpy} (cfg : SimulationConfig)
    (g : rng) (r : SimulationResult) (g' : rng) :
  0 < duration cfg ->
  simulate cfg g = Ok (r, g') ->
  length (time r) = duration cfg /\
  length (state r) = duration cfg /\
  length (control_param r) = duration cfg /\
  length (variance_trajectory r) = duration cfg /\
  (0 <= transition_index r < Z.of_nat (duration cfg))%Z.
Proof.
  unfold simulate. destruct (transition_type cfg).
  - apply simulate_pitchfork_lengths.
  - apply simulate_saddle_node_lengths.
  - apply simulate_hopf_lengths.
  - apply simulate_transcritical_lengths.
  - apply simulate_nucleation_lengths.
  - apply simulate_commitment_lengths.
Qed.

(* ================================================================== *)
(** * Further properties of the detector bank *)
(* ================================================================== *)

Lemma py_get_bounds {A} (l : list A) (i : Z) (a : A) :
  py_get l i = Ok a -> (- Z.of_nat (length l) <= i < Z.of_nat (length l))%Z.
Proof.
  unfold py_get. destruct (i <? 0)%Z eqn:Hneg.
  - apply Z.ltb_lt in Hneg.
    destruct ((0 <=? i + Z.of_nat (length l))
              && (i + Z.of_nat (length l) <? Z.of_nat (length l)))%Z eqn:Hb;
      [|discriminate].
    apply andb_prop in Hb. destruct Hb as [H0 H1].
    apply Z.leb_le in H0. lia.
  - apply Z.ltb_ge in Hneg.
    destruct ((0 <=? i) && (i <? Z.of_nat (length l)))%Z eqn:Hb;
      [|discriminate].
    apply andb_prop in Hb. destruct Hb as [H0 H1].
    apply Z.ltb_lt in H1. lia.
Qed.

Lemma argmin_scan_bound l : forall mp best i,
  best < i -> argmin_scan mp best i l < i + length l \/ l = [] /\
  argmin_scan mp best i l = best.
Proof.
  induction l as [|x l IH]; intros mp best i Hb; cbn [argmin_scan length].
  - right. split; reflexivity.
  - left. destruct (negb (x >=? mp)%f64).
    + destruct (isnan x); [lia|].
      destruct (IH x i (S i) ltac:(lia)) as [H|[-> H]]; [lia|].
      cbn [argmin_scan]. cbn [length]. lia.
    + destruct (IH mp best (S i) ltac:(lia)) as [H|[-> H]]; [lia|].
      cbn [argmin_scan length]. lia.
Qed.

Lemma np_argmin_bound l i : np_argmin l = Ok i -> i < length l.
Proof.
  destruct l as [|x l]; cbn [np_argmin]; [discriminate|].
  intros H. injection H as <-. cbn [length].
  destruct (isnan x); [lia|].
  destruct (argmin_scan_bound l x 0 1 ltac:(lia)) as [H|[_ H]]; lia.
Qed.

Lemma fnonneg_f_0_15 : fnonneg f_0_15.
Proof. exact I. Qed.

Lemma fnonneg_f_0_85 : fnonneg f_0_85.
Proof. exact I. Qed.

Lemma py_any_false_all_nan l :
  py_any (map (fun x => negb (isnan x)) l) = false -> all_nan l.
Proof.
  induction l as [|x l IH]; [constructor|].
  cbn [map py_any existsb]. intros H.
  apply orb_false_iff in H. destruct H as [Hx Hl].
  constructor; [now apply negb_false_iff in Hx|now apply IH].
Qed.

(** The position in [l] of the entry of rank [c] of [l[lo:hi]], for
    bounds that are not negative. *)
Lemma py_slice_position {A} (l : list A) (lo hi : Z) (c : nat) :
  (0 <= lo)%Z -> (0 <= hi)%Z -> c < length (py_slice l lo hi) ->
  (lo + Z.of_nat c < hi)%Z /\ (lo + Z.of_nat c < Z.of_nat (length l))%Z.
Proof.
  intros Hlo Hhi Hc. unfold py_slice in Hc. rewrite length_slice in Hc.
  assert (E1 : slice_bound (length l) lo
               = Z.to_nat (Z.min lo (Z.of_nat (length l)))).
  { unfold slice_bound.
    destruct (lo <? 0)%Z eqn:E; [apply Z.ltb_lt in E; lia|reflexivity]. }
  assert (E2 : slice_bound (length l) hi
               = Z.to_nat (Z.min hi (Z.of_nat (length l)))).
  { unfold slice_bound.
    destruct (hi <? 0)%Z eqn:E; [apply Z.ltb_lt in E; lia|reflexivity]. }
  rewrite E1, E2 in Hc. lia.
Qed.

Section PeakFacts.
Context {NP : Numpy}.

(** What [find_peak] returns, given its two bounds. *)
Lemma find_peak_char sig mode start stop :
  py_int (of_nat (length sig) * f_0_15)%f64 = Ok start ->
  py_int (of_nat (length sig) * f_0_85)%f64 = Ok stop ->
  match find_peak sig mode with
  | Ok (Some i) =>
      (start <= i < stop)%Z /\ (0 <= i < Z.of_nat (length sig))%Z
  | Ok None => all_nan (py_slice sig start stop)
  | Raise _ => False
  end.
Proof.
  intros Es Ee. unfold find_peak. rewrite Es, Ee. cbn [res_bind].
  pose proof (py_int_scaled_nonneg _ _ _ fnonneg_f_0_15 Es) as Hs.
  pose proof (py_int_scaled_nonneg _ _ _ fnonneg_f_0_85 Ee) as He.
  destruct (py_any _) eqn:Hany; cbn [negb].
  2:{ now apply py_any_false_all_nan. }
  set (sub := py_slice sig start stop) in *.
  set (subsignal := map _ sub).
  assert (Hl : length subsignal = length sub)
    by (unfold subsignal; now rewrite length_map).
  assert (Hne : subsignal <> []).
  { intros E. rewrite E in Hl. destruct sub; [|discriminate Hl].
    discriminate Hany. }
  assert (Hidx : forall idx, idx < length subsignal ->
            (start <= start + Z.of_nat idx < stop)%Z /\
            (0 <= start + Z.of_nat idx < Z.of_nat (length sig))%Z).
  { intros idx Hi. rewrite Hl in Hi.
    pose proof (py_slice_position sig start stop idx Hs He Hi). lia. }
  destruct mode.
  - destruct (np_argmax subsignal) as [idx|e] eqn:Ea; cbn [res_bind].
    + apply Hidx. now apply np_argmax_bound.
    + destruct subsignal; [congruence|discriminate Ea].
  - destruct (np_argmin subsignal) as [idx|e] eqn:Ea; cbn [res_bind].
    + apply Hidx. now apply np_argmin_bound.
    + destruct subsignal; [congruence|discriminate Ea].
Qed.

Lemma find_peak_bounds sig mode i :
  find_peak sig mode = Ok (Some i) -> (0 <= i < Z.of_nat (length sig))%Z.
Proof.
  intros H.
  destruct (py_int (of_nat (length sig) * f_0_15)%f64) as [start|e] eqn:Es.
  2:{ unfold find_peak in H. rewrite Es in H. discriminate H. }
  destruct (py_int (of_nat (length sig) * f_0_85)%f64) as [stop|e] eqn:Ee.
  2:{ unfold find_peak in H. rewrite Es, Ee in H. discriminate H. }
  pose proof (find_peak_char sig mode start stop Es Ee) as Hc.
  rewrite H in Hc. apply Hc.
Qed.
End PeakFacts.

(** X1.  For a signal of [n < 2^63] samples, [find_peak] never raises.  It
    returns either an index [i] of the signal with
    [int(0.15 n) <= i < int(0.85 n)], or [None], and then every sample of
    [signal[int(0.15 n):int(0.85 n)]] is NaN. *)
Theorem find_peak_in_interior {NP : Numpy} (sig : list float)
    (mode : PeakMode) :
  (Z.of_nat (length sig) < 2 ^ 63)%Z ->
  exists start stop,
    py_int (of_nat (length sig) * f_0_15)%f64 = Ok start /\
    py_int (of_nat (length sig) * f_0_85)%f64 = Ok stop /\
    match find_peak sig mode with
    | Ok (Some i) =>
        (start <= i < stop)%Z /\ (0 <= i < Z.of_nat (length sig))%Z
    | Ok None => all_nan (py_slice sig start stop)
    | Raise _ => False
    end.
Proof.
  intros Hlen.
  destruct (py_int_scaled (length sig) f_0_15 Hlen fbound_f_0_15)
    as (start & Es & _).
  destruct (py_int_scaled (length sig) f_0_85 Hlen fbound_f_0_85)
    as (stop & Ee & _).
  exists start, stop. split; [exact Es|]. split; [exact Ee|].
  now apply find_peak_char.
Qed.

(** ** The reported index is a position of the returned trace *)

Lemma length_scatter mask : forall values,
  length (scatter mask values) = length mask.
Proof.
  induction mask as [|[] mask IH]; intros values; cbn [scatter length];
    [reflexivity| |now rewrite IH].
  destruct values; cbn [length]; now rewrite IH.
Qed.

Lemma in_np_where mask i :
  In i (np_where mask) -> i < length mask /\ nth i mask false = true.
Proof.
  unfold np_where, range. rewrite Nat.sub_0_r.
  assert (H : forall lo, In i (map fst (filter (fun ib : nat * bool => snd ib)
                                  (combine (seq lo (length mask)) mask))) ->
              lo <= i < lo + length mask /\ nth (i - lo) mask false = true).
  { induction mask as [|b mask IH]; intros lo; cbn [length seq combine filter map];
      [contradiction|].
    destruct b; cbn [snd fst map In].
    - intros [<-|Hin].
      + rewrite Nat.sub_diag. split; [lia|reflexivity].
      + destruct (IH (S lo) Hin) as [Hr Hn]. split; [lia|].
        replace (i - lo) with (S (i - S lo)) by lia. exact Hn.
    - intros Hin. destruct (IH (S lo) Hin) as [Hr Hn]. split; [lia|].
      replace (i - lo) with (S (i - S lo)) by lia. exact Hn. }
  intros Hin. destruct (H 0 Hin) as [Hr Hn].
  rewrite Nat.sub_0_r in Hn. split; [lia|exact Hn].
Qed.

Lemma first_return_filter_in {A} (p : A -> bool) l a :
  first_return (fun x => if p x then Some x else None) l = Some a ->
  In a l /\ p a = true.
Proof.
  induction l as [|x l IH]; cbn [first_return]; [discriminate|].
  destruct (p x) eqn:Hp.
  - intros [= <-]. split; [now left|exact Hp].
  - intros H. destruct (IH H) as [Hin Hpa]. split; [now right|exact Hpa].
Qed.

Section IndexInTrace.
Context {NP : Numpy}.

Lemma length_vd_derivative d variance :
  length (vd_derivative d variance) = length variance.
Proof. unfold vd_derivative. rewrite length_map, length_range. lia. Qed.

Lemma length_zs_zscore d variance :
  length (zs_zscore d variance) = length variance.
Proof. unfold zs_zscore. rewrite length_map, length_range. lia. Qed.

Lemma length_cp_llr d variance :
  length (cp_llr d variance) = length variance.
Proof. unfold cp_llr. rewrite length_map, length_range. lia. Qed.

Lemma VarianceRatioDetector_index d sig r i :
  VarianceRatioDetector_detect d sig = Ok r ->
  detection_index r = Some i ->
  (0 <= i < Z.of_nat (length (signal r)))%Z /\ length (signal r) = length sig.
Proof.
  unfold VarianceRatioDetector_detect. intros H Hi. res_ok H;
    injection H as <-; cbn [detection_index signal] in *; [discriminate Hi|].
  injection Hi as <-. apply py_get_bounds in E1.
  rewrite length_vr_ratio in *. lia.
Qed.

Lemma VarianceDerivativeDetector_index d sig r i :
  VarianceDerivativeDetector_detect d sig = Ok r ->
  detection_index r = Some i ->
  (0 <= i < Z.of_nat (length (signal r)))%Z /\ length (signal r) = length sig.
Proof.
  unfold VarianceDerivativeDetector_detect. intros H Hi. res_ok H;
    injection H as <-; cbn [detection_index signal vd_result] in *;
    try discriminate Hi.
  injection Hi as <-. apply find_peak_bounds in E.
  rewrite length_map in E.
  rewrite length_vd_derivative, length_compute_rolling_variance in *. lia.
Qed.

Lemma VarianceInflectionDetector_index d sig r i :
  VarianceInflectionDetector_detect d sig = Ok r ->
  detection_index r = Some i ->
  (0 <= i < Z.of_nat (length (signal r)))%Z.
Proof.
  unfold VarianceInflectionDetector_detect. intros H Hi. res_ok H;
    injection H as <-; cbn [detection_index signal vi_result] in *;
    try discriminate Hi.
  injection Hi as <-. now apply find_peak_bounds in E0.
Qed.

Lemma RollingZScoreDetector_index d sig r i :
  RollingZScoreDetector_detect d sig = Ok r ->
  detection_index r = Some i ->
  (0 <= i < Z.of_nat (length (signal r)))%Z /\ length (signal r) = length sig.
Proof.
  unfold RollingZScoreDetector_detect. intros H Hi.
  injection H as <-. cbn [detection_index signal] in *.
  rewrite length_zs_zscore, length_compute_rolling_variance.
  destruct (find_sustained_crossing _ _ _ _ _) as [j|] eqn:Ef;
    cbn [option_map] in Hi; [|discriminate Hi].
  injection Hi as <-.
  pose proof (find_sustained_crossing_char
                (map SFabs (zs_zscore d (compute_rolling_variance sig (zs_window d))))
                (zs_threshold d) Above (zs_sustain d) (zs_zscore_window d)) as Hc.
  rewrite Ef in Hc. destruct Hc as (Hr & _).
  rewrite length_map, length_zs_zscore, length_compute_rolling_variance in Hr.
  lia.
Qed.

Lemma CUSUMDetector_index d sig r i :
  CUSUMDetector_detect d sig = Ok r ->
  detection_index r = Some i ->
  (0 <= i < Z.of_nat (length (signal r)))%Z /\ length (signal r) = length sig.
Proof.
  unfold CUSUMDetector_detect. intros H Hi. res_ok H;
    injection H as <-; cbn [detection_index signal] in *;
    try discriminate Hi.
  injection Hi as <-.
  apply (first_return_filter_in
           (fun ci : float * nat => (fst ci >? cu_threshold d)%f64)) in E0.
  destruct E0 as [Hin _]. apply in_combine_r in Hin.
  apply in_np_where in Hin. destruct Hin as [Hlt _].
  rewrite length_scatter.
  rewrite length_map, length_compute_rolling_variance in *. lia.
Qed.

Lemma ChangePointDetector_index d sig r i :
  ChangePointDetector_detect d sig = Ok r ->
  detection_index r = Some i ->
  (0 <= i < Z.of_nat (length (signal r)))%Z /\ length (signal r) = length sig.
Proof.
  unfold ChangePointDetector_detect. intros H Hi. res_ok H;
    injection H as <-; cbn [detection_index signal cp_result] in *;
    try discriminate Hi.
  injection Hi as <-. apply find_peak_bounds in E0.
  rewrite length_cp_llr, length_compute_rolling_variance in *. lia.
Qed.

Lemma detect_index d sig r i :
  detect d sig = Ok r -> detection_index r = Some i ->
  (0 <= i < Z.of_nat (length (signal r)))%Z.
Proof.
  destruct d; cbn [detect]; intros H Hi.
  - now apply (VarianceRatioDetector_index _ _ _ _ H Hi).
  - now apply (VarianceDerivativeDetector_index _ _ _ _ H Hi).
  - now apply (VarianceInflectionDetector_index _ _ _ _ H Hi).
  - now apply (RollingZScoreDetector_index _ _ _ _ H Hi).
  - now apply (CUSUMDetector_index _ _ _ _ H Hi).
  - now apply (ChangePointDetector_index _ _ _ _ H Hi).
Qed.
End IndexInTrace.

(** X2.  When one of the six base detectors returns a detection index
    [i], that index is a position of the diagnostic trace returned with
    it: [0 <= i < len(result.signal)].  For five of them the trace has the
    length of the input signal; the trace of [VarianceInflectionDetector]
    is the output of [np.convolve(..., mode='same')]. *)
Theorem detection_index_within_trace {NP : Numpy} (d : BaseDetector)
    (sig : list float) (r : DetectionResult) (i : Z) :
  detect d sig = Ok r ->
  detection_index r = Some i ->
  (0 <= i < Z.of_nat (length (signal r)))%Z /\
  (match d with
   | DVarianceInflection _ => True
   | _ => length (signal r) = length sig
   end).
Proof.
  intros H Hi. split; [exact (detect_index d sig r i H Hi)|].
  destruct d; cbn [detect] in H; try exact I.
  - now apply (VarianceRatioDetector_index _ _ _ _ H Hi).
  - now apply (VarianceDerivativeDetector_index _ _ _ _ H Hi).
  - now apply (RollingZScoreDetector_index _ _ _ _ H Hi).
  - now apply (CUSUMDetector_index _ _ _ _ H Hi).
  - now apply (ChangePointDetector_index _ _ _ _ H Hi).
Qed.

(** ** The ensemble's index and trace *)

Lemma py_get_in {A} (l : list A) (i : Z) (a : A) :
  py_get l i = Ok a -> In a l.
Proof.
  unfold py_get.
  destruct (_ && _)%bool; [|discriminate].
  destruct (nth_error l _) as [b|] eqn:E; [|discriminate].
  intros [= <-]. now apply nth_error_In in E.
Qed.

Lemma in_insert_by_index x y l :
  In x (insert_by_index y l) <-> x = y \/ In x l.
Proof.
  induction l as [|z l IH]; cbn [insert_by_index In].
  - intuition congruence.
  - destruct (vote_index y <? vote_index z)%Z; cbn [In]; rewrite ?IH;
      intuition congruence.
Qed.

Lemma in_sort_by_index x l : In x (sort_by_index l) <-> In x l.
Proof.
  unfold sort_by_index.
  assert (H : forall acc,
             In x (fold_left (fun acc y => insert_by_index y acc) l acc)
             <-> In x l \/ In x acc).
  { induction l as [|y l IH]; intros acc; cbn [fold_left In].
    - tauto.
    - rewrite IH, in_insert_by_index. intuition congruence. }
  rewrite H. cbn [In]. tauto.
Qed.

Lemma map_res_in {A B} (f : A -> res B) l : forall bs b,
  map_res f l = Ok bs -> In b bs -> exists a, In a l /\ f a = Ok b.
Proof.
  induction l as [|a l IH]; intros bs b; cbn [map_res].
  - intros [= <-] [].
  - destruct (f a) as [b0|e] eqn:Ea; cbn [res_bind]; [|discriminate].
    destruct (map_res f l) as [bs0|e] eqn:El; cbn [res_bind]; [|discriminate].
    intros [= <-] [<-|Hin].
    + exists a. split; [now left|exact Ea].
    + destruct (IH bs0 b eq_refl Hin) as (a' & Ha' & Hf).
      exists a'. split; [now right|exact Hf].
Qed.

Lemma in_en_detections w results v :
  In v (en_detections w results) ->
  exists r, In r results /\ detected r = true /\
            detection_index r = Some (vote_index v) /\
            vote_type v = detector_type r /\
            vote_confidence v = confidence r.
Proof.
  unfold en_detections. rewrite in_flat_map.
  intros (r & Hr & Hv). exists r.
  destruct (detected r); [|contradiction].
  destruct (detection_index r) as [i|]; [|contradiction].
  destruct Hv as [<-|[]]. cbn. auto.
Qed.

Lemma np_gradient_length f g :
  np_gradient f = Ok g -> length g = length f /\ 2 <= length f.
Proof.
  unfold np_gradient. destruct (length f <? 2) eqn:E; [discriminate|].
  apply Nat.ltb_ge in E. intros [= <-].
  rewrite length_map, length_range. lia.
Qed.

Section EnsembleFacts.
Context {NP : Numpy}.

Lemma en_weighted_median_in detections i :
  en_weighted_median detections = Ok i ->
  exists v, In v detections /\ vote_index v = i.
Proof.
  unfold en_weighted_median.
  destruct (py_get (np_cumsum _) (-1)) as [total|e]; cbn [res_bind];
    [|discriminate].
  intros H. apply py_get_in in H. apply in_map_iff in H.
  destruct H as (v & Hv & Hin). exists v.
  split; [now apply in_sort_by_index|exact Hv].
Qed.

(** A vote of [VarianceInflectionDetector] comes with a trace of two
    entries or more, one of which is not NaN. *)
Lemma VarianceInflectionDetector_trace d sig r i :
  VarianceInflectionDetector_detect d sig = Ok r ->
  detection_index r = Some i ->
  py_any (map (fun x => negb (isnan x)) (signal r)) = true /\
  2 <= length (signal r).
Proof.
  unfold VarianceInflectionDetector_detect. intros H Hi.
  destruct (vi_inflection_signal d sig) as [s|e] eqn:Es; cbn [res_bind] in H;
    [|discriminate].
  assert (Hlen : 2 <= length s).
  { unfold vi_inflection_signal in Es. res_ok Es. injection Es as <-.
    apply np_gradient_length in E1. rewrite length_map. lia. }
  assert (Hany : forall p, find_peak s ModeMax = Ok (Some p) ->
                           py_any (map (fun x => negb (isnan x)) s) = true).
  { intros p Hp.
    destruct (py_any (map (fun x => negb (isnan x)) s)) eqn:Ea; [reflexivity|].
    apply py_any_false_all_nan in Ea.
    unfold find_peak in Hp. res_ok Hp; try discriminate Hp.
    unfold py_slice in E1.
    rewrite py_any_all_nan in E1 by now apply all_nan_slice.
    discriminate E1. }
  res_ok H; injection H as <-; cbn [detection_index signal vi_result] in *;
    try discriminate Hi.
  split; [now apply (Hany z)|exact Hlen].
Qed.

(** The combined trace has the length of the signal, and so has every
    trace with a valid entry that went into it. *)
Lemma en_combined_lengths e n results c :
  en_combined e n results = Ok c ->
  length c = n /\
  forall r, In r results ->
            py_any (map (fun x => negb (isnan x)) (signal r)) = true ->
            length (signal r) = n \/ length (signal r) = 1.
Proof.
  unfold en_combined.
  set (f := fun combined r => if py_any _ then _ else _).
  assert (H : forall acc c0, fold_res f results acc = Ok c0 ->
            length c0 = length acc /\
            forall r, In r results ->
              py_any (map (fun x => negb (isnan x)) (signal r)) = true ->
              length (signal r) = length acc \/ length (signal r) = 1).
  { induction results as [|r results IH]; intros acc c0; cbn [fold_res].
    - intros [= <-]. split; [reflexivity|intros r []].
    - destruct (f acc r) as [acc'|e0] eqn:Ef; cbn [res_bind]; [|discriminate].
      intros Hc. destruct (IH _ _ Hc) as [Hl Hr].
      assert (Hacc : length acc' = length acc /\
                (py_any (map (fun x => negb (isnan x)) (signal r)) = true ->
                 length (signal r) = length acc \/ length (signal r) = 1)).
      { unfold f in Ef.
        destruct (py_any (map (fun x => negb (isnan x)) (signal r))).
        - destruct (np_max _) as [smax|e0]; cbn [res_bind] in Ef;
            [|discriminate].
          pose proof (length_np_iadd _ _ _ Ef) as Hl'.
          split; [exact Hl'|]. intros _.
          unfold np_iadd in Ef.
          match type of Ef with
          | (if length ?t =? _ then _ else _) = _ =>
              assert (Ht : length t = length (signal r))
                by (destruct (_ >? _)%f64; now rewrite !length_map);
              destruct (length t =? length acc) eqn:El;
              [apply Nat.eqb_eq in El; left; lia|];
              destruct t as [|x [|y t']]; try discriminate Ef;
              cbn [length] in Ht; right; lia
          end.
        - injection Ef as <-. split; [reflexivity|discriminate]. }
      destruct Hacc as [Hl' Hr'].
      split; [lia|]. intros r' [<-|Hin] Hv.
      + now apply Hr'.
      + rewrite <- Hl'. now apply Hr. }
  destruct (fold_res f results (np_full n fzero)) as [c0|e0] eqn:Ef;
    cbn [res_bind]; [|discriminate].
  intros [= <-]. destruct (H _ _ Ef) as [Hl Hr].
  unfold np_full in *. rewrite repeat_length in *.
  rewrite length_map. split; [exact Hl|exact Hr].
Qed.

(** What the ensemble reports when it fires. *)
Lemma EnsembleDetector_index e sig r i :
  EnsembleDetector_detect e sig = Ok r ->
  detection_index r = Some i ->
  (exists d r0, In d (en_detectors e) /\ detect d sig = Ok r0 /\
                detected r0 = true /\ detection_index r0 = Some i) /\
  (0 <= i < Z.of_nat (length sig))%Z.
Proof.
  unfold EnsembleDetector_detect. intros H Hi.
  destruct (map_res _ _) as [results|e0] eqn:Er; cbn [res_bind] in H;
    [|discriminate].
  destruct (en_detections (en_weights e) results) as [|v0 vs] eqn:Ed.
  { injection H as <-. discriminate Hi. }
  destruct (negb _).
  { injection H as <-. discriminate Hi. }
  destruct (en_weighted_median (v0 :: vs)) as [idx|e0] eqn:Em;
    cbn [res_bind] in H; [|discriminate].
  destruct (en_weighted_conf (v0 :: vs)) as [wc|e0]; cbn [res_bind] in H;
    [|discriminate].
  destruct (en_combined e (length sig) results) as [c|e0] eqn:Ec;
    cbn [res_bind] in H; [|discriminate].
  injection H as <-. cbn [detection_index] in Hi. injection Hi as <-.
  apply en_weighted_median_in in Em. destruct Em as (v & Hv & <-).
  rewrite <- Ed in Hv. apply in_en_detections in Hv.
  destruct Hv as (r0 & Hr0 & Hdet & Hidx & _).
  destruct (map_res_in _ _ _ _ Er Hr0) as (d & Hd & Hdd).
  split; [exists d, r0; auto|].
  destruct (en_combined_lengths _ _ _ _ Ec) as [_ Hlens].
  pose proof (detect_index d sig r0 _ Hdd Hidx) as Hb.
  destruct d; cbn [detect] in Hdd.
  - destruct (VarianceRatioDetector_index _ _ _ _ Hdd Hidx) as [_ Hl]. lia.
  - destruct (VarianceDerivativeDetector_index _ _ _ _ Hdd Hidx) as [_ Hl]. lia.
  - destruct (VarianceInflectionDetector_trace _ _ _ _ Hdd Hidx) as [Ha Hl].
    destruct (Hlens r0 Hr0 Ha); lia.
  - destruct (RollingZScoreDetector_index _ _ _ _ Hdd Hidx) as [_ Hl]. lia.
  - destruct (CUSUMDetector_index _ _ _ _ Hdd Hidx) as [_ Hl]. lia.
  - destruct (ChangePointDetector_index _ _ _ _ Hdd Hidx) as [_ Hl]. lia.
Qed.

Lemma EnsembleDetector_trace e sig r :
  EnsembleDetector_detect e sig = Ok r -> length (signal r) = length sig.
Proof.
  unfold EnsembleDetector_detect. intros H. res_ok H; injection H as <-;
    cbn [signal]; try apply repeat_length.
  match goal with
  | Hc : en_combined _ _ _ = Ok _ |- _ =>
      now destruct (en_combined_lengths _ _ _ _ Hc)
  end.
Qed.
End EnsembleFacts.

(** X3.  The index the ensemble reports is the index reported by one of
    its sub-detectors that fired on the same signal: the weighted median
    picks one of the votes, it does not interpolate between them. *)
Theorem ensemble_index_is_a_vote {NP : Numpy} (e : EnsembleDetector)
    (sig : list float) (r : DetectionResult) (i : Z) :
  EnsembleDetector_detect e sig = Ok r ->
  detection_index r = Some i ->
  exists d r0, In d (en_detectors e) /\ detect d sig = Ok r0 /\
               detected r0 = true /\ detection_index r0 = Some i.
Proof.
  intros H Hi. exact (proj1 (EnsembleDetector_index e sig r i H Hi)).
Qed.

(** X4.  Every result the ensemble returns carries a combined trace of
    the length of the input signal, and an index it reports is a position
    of the signal: [0 <= i < len(signal)]. *)
Theorem ensemble_trace_and_index {NP : Numpy} (e : EnsembleDetector)
    (sig : list float) (r : DetectionResult) :
  EnsembleDetector_detect e sig = Ok r ->
  length (signal r) = length sig /\
  forall i, detection_index r = Some i ->
            (0 <= i < Z.of_nat (length sig))%Z.
Proof.
  intros H. split; [exact (EnsembleDetector_trace e sig r H)|].
  intros i Hi. exact (proj2 (EnsembleDetector_index e sig r i H Hi)).
Qed.

(** ** The samples a detector needs *)

Lemma nth_map_range (f : nat -> float) n i d :
  i < n -> nth i (map f (range 0 n)) d = f i.
Proof.
  intros Hi. unfold range. rewrite Nat.sub_0_r.
  rewrite (nth_indep _ d (f 0)) by (rewrite length_map, length_seq; lia).
  rewrite map_nth, seq_nth by lia. reflexivity.
Qed.

Lemma count_valid_app l1 l2 :
  count_valid (l1 ++ l2) = count_valid l1 + count_valid l2.
Proof. unfold count_valid. now rewrite filter_app, length_app. Qed.

Lemma count_valid_le l : count_valid l <= length l.
Proof. unfold count_valid. apply filter_length_le. Qed.

(** The search finds nothing on an array that is NaN on its first [m]
    positions and has at most [max(start_idx, sustain_count, m) +
    sustain_count] entries. *)
Lemma find_sustained_crossing_none_early sig thr direction k start m :
  (forall i, i < m -> i < length sig -> isnan (nth i sig nan) = true) ->
  length sig <= Nat.max (Nat.max start k) m + k ->
  find_sustained_crossing sig thr direction k start = None.
Proof.
  intros Hnan Hlen.
  pose proof (find_sustained_crossing_char sig thr direction k start) as Hc.
  destruct (find_sustained_crossing sig thr direction k start) as [i|];
    [|reflexivity].
  destruct Hc as (Hr & Hok & _). unfold sustained_ok in Hok.
  apply andb_prop in Hok. destruct Hok as [Hok _].
  apply andb_prop in Hok. destruct Hok as [Hok _].
  apply negb_true_iff in Hok.
  destruct (Nat.lt_ge_cases i m) as [Hlt|Hge].
  - rewrite Hnan in Hok by lia. discriminate Hok.
  - lia.
Qed.

Section SamplesNeeded.
Context {NP : Numpy}.

(** The rolling variance has at most [n - w] valid entries. *)
Lemma count_valid_rolling_variance sig w :
  count_valid (compute_rolling_variance sig w) <= length sig - w.
Proof.
  unfold compute_rolling_variance, range. rewrite Nat.sub_0_r.
  destruct (Nat.le_gt_cases (length sig) w) as [Hle|Hgt].
  - rewrite count_valid_all_nan; [lia|].
    apply Forall_forall. intros y Hy. apply in_map_iff in Hy.
    destruct Hy as (i & <- & Hi). apply in_seq in Hi.
    assert (E : (i <? w) = true) by (apply Nat.ltb_lt; lia).
    now rewrite E.
  - replace (length sig) with (w + (length sig - w)) at 1 by lia.
    rewrite seq_app, map_app, count_valid_app.
    rewrite count_valid_all_nan.
    + etransitivity; [apply count_valid_le|].
      rewrite length_map, length_seq. lia.
    + apply Forall_forall. intros y Hy. apply in_map_iff in Hy.
      destruct Hy as (i & <- & Hi). apply in_seq in Hi.
      assert (E : (i <? w) = true) by (apply Nat.ltb_lt; lia).
      now rewrite E.
Qed.

Lemma vr_ratio_early d sig i :
  i < vr_window d -> i < length (vr_ratio d sig) ->
  isnan (nth i (vr_ratio d sig) nan) = true.
Proof.
  intros Hw Hi. rewrite length_vr_ratio in Hi. unfold vr_ratio.
  set (variance := compute_rolling_variance sig (vr_window d)).
  assert (Hlv : length variance = length sig)
    by apply length_compute_rolling_variance.
  assert (Hlb : length (vr_baseline d variance) = length sig).
  { unfold vr_baseline. rewrite !length_map, length_range. lia. }
  set (g := fun vb : float * float => (fst vb / snd vb)%f64).
  rewrite (nth_indep _ nan (g (nan, nan)))
    by (rewrite length_map, length_combine; lia).
  rewrite map_nth, combine_nth by lia. unfold g. cbn [fst snd].
  unfold variance at 1, compute_rolling_variance.
  rewrite nth_map_range by lia.
  assert (E : (i <? vr_window d) = true) by (apply Nat.ltb_lt; lia).
  rewrite E. reflexivity.
Qed.

Lemma VarianceRatioDetector_needs d sig :
  length sig < min_samples (DVarianceRatio d) ->
  is_zero (vr_threshold d) = false ->
  exists r, VarianceRatioDetector_detect d sig = Ok r /\
            detected r = false /\ detection_index r = None.
Proof.
  cbn [min_samples]. intros H Hz.
  unfold VarianceRatioDetector_detect, vr_candidates,
    vr_idx_low, vr_idx_high, py_fdiv. rewrite Hz. cbn [res_bind].
  rewrite !(find_sustained_crossing_none_early _ _ _ _ _ (vr_window d)).
  - cbn [app]. eexists. split; [reflexivity|split; reflexivity].
  - intros i. apply vr_ratio_early.
  - rewrite length_vr_ratio. lia.
  - intros i. apply vr_ratio_early.
  - rewrite length_vr_ratio. lia.
Qed.

Lemma VarianceDerivativeDetector_needs d sig :
  length sig < min_samples (DVarianceDerivative d) ->
  (Z.of_nat (length sig) < 2 ^ 63)%Z ->
  exists r, VarianceDerivativeDetector_detect d sig = Ok r /\
            detected r = false /\ detection_index r = None.
Proof.
  cbn [min_samples]. intros H Hlen.
  unfold VarianceDerivativeDetector_detect.
  assert (Hd : all_nan
                 (vd_derivative d (compute_rolling_variance sig (vd_window d)))).
  { unfold vd_derivative. apply map_range_nan. intros i Hi.
    rewrite length_compute_rolling_variance in Hi.
    assert (Hlt : (i <? vd_derivative_window d + vd_window d) = true)
      by (apply Nat.ltb_lt; lia).
    now rewrite Hlt. }
  rewrite find_peak_all_nan.
  - cbn [res_bind]. eexists. split; [reflexivity|split; reflexivity].
  - now apply all_nan_map_abs.
  - now rewrite length_map, length_vd_derivative,
      length_compute_rolling_variance.
Qed.

Lemma RollingZScoreDetector_needs d sig :
  length sig < min_samples (DRollingZScore d) ->
  exists r, RollingZScoreDetector_detect d sig = Ok r /\
            detected r = false /\ detection_index r = None.
Proof.
  cbn [min_samples]. intros H. unfold RollingZScoreDetector_detect.
  rewrite (find_sustained_crossing_none_early _ _ _ _ _
             (zs_zscore_window d + zs_window d)).
  - eexists. split; [reflexivity|split; reflexivity].
  - intros i Hi Hl.
    rewrite length_map, length_zs_zscore, length_compute_rolling_variance in Hl.
    change nan with (SFabs nan). rewrite map_nth.
    unfold zs_zscore. rewrite nth_map_range
      by (rewrite length_compute_rolling_variance; lia).
    assert (E : (i <? zs_zscore_window d + zs_window d) = true)
      by (apply Nat.ltb_lt; lia).
    rewrite E. reflexivity.
  - rewrite length_map, length_zs_zscore, length_compute_rolling_variance.
    lia.
Qed.

Lemma CUSUMDetector_needs d sig :
  length sig < min_samples (DCUSUM d) ->
  exists r, CUSUMDetector_detect d sig = Ok r /\
            detected r = false /\ detection_index r = None.
Proof.
  cbn [min_samples]. intros H. unfold CUSUMDetector_detect.
  rewrite count_true_valid_mask.
  pose proof (count_valid_rolling_variance sig (cu_window d)) as Hc.
  assert (E : (count_valid (compute_rolling_variance sig (cu_window d)) <? 20)
              = true) by (apply Nat.ltb_lt; lia).
  rewrite E. eexists. split; [reflexivity|split; reflexivity].
Qed.

Lemma ChangePointDetector_needs d sig :
  length sig < min_samples (DChangePoint d) -> 1 <= cp_min_segment d ->
  exists r, ChangePointDetector_detect d sig = Ok r /\
            detected r = false /\ detection_index r = None.
Proof.
  cbn [min_samples]. intros H Hms. unfold ChangePointDetector_detect.
  pose proof (count_valid_rolling_variance sig (cp_window d)) as Hc.
  assert (E : (count_valid (compute_rolling_variance sig (cp_window d))
               <? 2 * cp_min_segment d) = true) by (apply Nat.ltb_lt; lia).
  rewrite E. eexists. split; [reflexivity|split; reflexivity].
Qed.
End SamplesNeeded.

(** X5.  A base detector cannot fire on fewer than [min_samples]
    samples: [max(baseline_window, sustain, window) + sustain + 1] for the
    variance ratio, [derivative_window + window + 1] for the variance
    derivative, [window + 1] for the variance inflection,
    [max(zscore_window + window, sustain) + sustain + 1] for the rolling
    z-score, [window + 20] for CUSUM and [window + 2 * min_segment] for
    the change point.  On a non-empty signal with fewer samples the
    detector returns, without raising, a result with [detected = False]
    and no index (for parameters that satisfy [detector_ok] and a length
    below [2^63]). *)
Theorem detector_needs_min_samples {NP : Numpy} (d : BaseDetector)
    (sig : list float) :
  sig <> [] ->
  length sig < min_samples d ->
  (Z.of_nat (length sig) < 2 ^ 63)%Z ->
  detector_ok d ->
  exists r, detect d sig = Ok r /\
            detected r = false /\ detection_index r = None.
Proof.
  intros Hne H Hlen Hok. destruct d as [d|d|d|d|d|d]; cbn [detect].
  - now apply VarianceRatioDetector_needs.
  - now apply VarianceDerivativeDetector_needs.
  - destruct Hok as [Hsw Hswlen]. cbn [min_samples] in H.
    apply VarianceInflectionDetector_short; try assumption. lia.
  - now apply RollingZScoreDetector_needs.
  - now apply CUSUMDetector_needs.
  - now apply ChangePointDetector_needs.
Qed.

(** The minima for the default parameters, in the order of the
    ensemble's detectors. *)
Lemma min_samples_defaults :
  map min_samples (en_detectors {| en_window := 40; en_threshold := f_0_4;
                                   en_weights := default_weights |})
  = [96; 66; 41; 131; 60; 140].
Proof. reflexivity. Qed.

(** The warm-ups for the default parameters. *)
Lemma warm_up_defaults :
  map warm_up (en_detectors {| en_window := 40; en_threshold := f_0_4;
                               en_weights := default_weights |})
  = [80; 65; 0; 120; 40; 0].
Proof. reflexivity. Qed.

(** ** Confidence and type of a result *)

Lemma SFltb_SFleb x y : SFltb x y = true -> SFleb x y = true.
Proof.
  unfold SFltb, SFleb. destruct (SFcompare x y) as [[]|]; congruence.
Qed.

Lemma py_min_one_le x : (py_min f_1 x <=? f_1)%f64 = true.
Proof.
  unfold py_min. destruct (x <? f_1)%f64 eqn:E.
  - now apply SFltb_SFleb.
  - reflexivity.
Qed.

Section ConfidenceFacts.
Context {NP : Numpy}.

Lemma detect_confidence d sig r :
  detect d sig = Ok r -> (confidence r <=? f_1)%f64 = true.
Proof.
  destruct d as [d|d|d|d|d|d]; cbn [detect];
    [unfold VarianceRatioDetector_detect
    |unfold VarianceDerivativeDetector_detect
    |unfold VarianceInflectionDetector_detect
    |unfold RollingZScoreDetector_detect
    |unfold CUSUMDetector_detect
    |unfold ChangePointDetector_detect];
    intros H; res_ok H; injection H as <-;
    cbn [confidence vd_result vi_result cp_result];
    try apply py_min_one_le; try reflexivity.
  destruct (find_sustained_crossing _ _ _ _ _);
    [apply py_min_one_le|reflexivity].
Qed.

Lemma detect_type d sig r :
  detect d sig = Ok r ->
  detector_type r =
  match d with
  | DVarianceRatio _ => VARIANCE_RATIO
  | DVarianceDerivative _ => VARIANCE_DERIVATIVE
  | DVarianceInflection _ => VARIANCE_INFLECTION
  | DRollingZScore _ => ROLLING_ZSCORE
  | DCUSUM _ => CUSUM
  | DChangePoint _ => CHANGE_POINT
  end.
Proof.
  destruct d as [d|d|d|d|d|d]; cbn [detect];
    [unfold VarianceRatioDetector_detect
    |unfold VarianceDerivativeDetector_detect
    |unfold VarianceInflectionDetector_detect
    |unfold RollingZScoreDetector_detect
    |unfold CUSUMDetector_detect
    |unfold ChangePointDetector_detect];
    intros H; res_ok H; injection H as <-; reflexivity.
Qed.

Lemma EnsembleDetector_type e sig r :
  EnsembleDetector_detect e sig = Ok r -> detector_type r = ENSEMBLE.
Proof.
  unfold EnsembleDetector_detect. intros H. res_ok H; injection H as <-;
    reflexivity.
Qed.
End ConfidenceFacts.

(** X6.  The confidence of every result a base detector returns is at
    most [1.0]; in particular it is never NaN. *)
Theorem base_confidence_at_most_one {NP : Numpy} (d : BaseDetector)
    (sig : list float) (r : DetectionResult) :
  detect d sig = Ok r ->
  (confidence r <=? f_1)%f64 = true /\ isnan (confidence r) = false.
Proof.
  intros H. pose proof (detect_confidence d sig r H) as Hc.
  split; [exact Hc|].
  destruct (confidence r); try reflexivity. discriminate Hc.
Qed.

(** X7.  The detector [create_detector] builds for a type reports that
    type in every result: the [detector_type] of the result is the type
    the detector was created for. *)
Theorem created_detector_reports_its_type {NP : Numpy} (dtype : DetectorType)
    (sig : list float) (r : DetectionResult) :
  Detector_detect (create_detector_default dtype) sig = Ok r ->
  detector_type r = dtype.
Proof.
  destruct dtype; cbn [create_detector_default Detector_detect]; intros H;
    try (now rewrite (detect_type _ _ _ H));
    now apply EnsembleDetector_type in H.
Qed.

(** X8.  Raising [start_idx] up to the index a sustained crossing was
    found at does not change the result of [find_sustained_crossing], and
    a search that found nothing finds nothing from any later start:
    [start_idx] only discards the candidates before it. *)
Theorem find_sustained_crossing_later_start (sig : list float) (thr : float)
    (direction : Direction) (k start_idx start_idx' : nat) :
  start_idx <= start_idx' ->
  match find_sustained_crossing sig thr direction k start_idx with
  | Some i =>
      start_idx' <= i ->
      find_sustained_crossing sig thr direction k start_idx' = Some i
  | None => find_sustained_crossing sig thr direction k start_idx' = None
  end.
Proof.
  intros Hs.
  pose proof (find_sustained_crossing_char sig thr direction k start_idx) as H1.
  pose proof (find_sustained_crossing_char sig thr direction k start_idx') as H2.
  destruct (find_sustained_crossing sig thr direction k start_idx) as [i|];
    destruct (find_sustained_crossing sig thr direction k start_idx') as [j|];
    try reflexivity.
  - intros Hi. destruct H1 as (R1 & O1 & M1). destruct H2 as (R2 & O2 & M2).
    destruct (Nat.lt_trichotomy i j) as [Hlt|[->|Hgt]]; [|reflexivity|].
    + rewrite (M2 i) in O1 by lia. discriminate O1.
    + rewrite (M1 j) in O2 by lia. discriminate O2.
  - intros Hi. destruct H1 as (R1 & O1 & M1).
    rewrite (H2 i) in O1 by lia. discriminate O1.
  - destruct H2 as (R2 & O2 & M2).
    rewrite (H1 j) in O2 by lia. discriminate O2.
Qed.

(** ** The warm-up of a detector *)

Lemma fold_left_min_in cs : forall c, In (fold_left Nat.min cs c) (c :: cs).
Proof.
  induction cs as [|x cs IH]; intros c; cbn [fold_left].
  - now left.
  - destruct (IH (Nat.min c x)) as [H|H].
    + destruct (Nat.min_spec c x) as [[_ E]|[_ E]]; rewrite E in *.
      * now left.
      * right. now left.
    + right. now right.
Qed.

Lemma py_get_nth_nonneg {A} (l : list A) (i : Z) (a d : A) :
  (0 <= i)%Z -> py_get l i = Ok a -> a = nth (Z.to_nat i) l d.
Proof.
  intros Hi H. pose proof (py_get_bounds l i a H) as Hb.
  rewrite <- (Z2Nat.id i Hi) in H.
  rewrite (py_get_nth l (Z.to_nat i) d) in H by lia.
  now injection H as <-.
Qed.

(** A crossing is found after the positions where the array is NaN. *)
Lemma crossing_after_nan sig thr direction k start m i :
  (forall j, j < m -> j < length sig -> isnan (nth j sig nan) = true) ->
  find_sustained_crossing sig thr direction k start = Some i ->
  Nat.max (Nat.max start k) m <= i /\ i + k < length sig.
Proof.
  intros Hnan H.
  pose proof (find_sustained_crossing_char sig thr direction k start) as Hc.
  rewrite H in Hc. destruct Hc as (Hr & Hok & _).
  unfold sustained_ok in Hok.
  apply andb_prop in Hok. destruct Hok as [Hok _].
  apply andb_prop in Hok. destruct Hok as [Hok _].
  apply negb_true_iff in Hok.
  destruct (Nat.lt_ge_cases i m) as [Hlt|Hge].
  - rewrite Hnan in Hok by lia. discriminate Hok.
  - lia.
Qed.

Section WarmUp.
Context {NP : Numpy}.

Lemma abs_zscore_early d sig i :
  i < zs_zscore_window d + zs_window d ->
  i < length (map SFabs (zs_zscore d (compute_rolling_variance sig (zs_window d)))) ->
  isnan (nth i (map SFabs (zs_zscore d (compute_rolling_variance sig
                                          (zs_window d)))) nan) = true.
Proof.
  intros Hi Hl.
  rewrite length_map, length_zs_zscore, length_compute_rolling_variance in Hl.
  change nan with (SFabs nan). rewrite map_nth.
  unfold zs_zscore. rewrite nth_map_range
    by (rewrite length_compute_rolling_variance; lia).
  assert (E : (i <? zs_zscore_window d + zs_window d) = true)
    by (apply Nat.ltb_lt; lia).
  rewrite E. reflexivity.
Qed.

Lemma VarianceRatioDetector_warm_up d sig r i :
  VarianceRatioDetector_detect d sig = Ok r ->
  detection_index r = Some i ->
  (Z.of_nat (warm_up (DVarianceRatio d)) <= i)%Z /\
  (i + Z.of_nat (vr_sustain d) < Z.of_nat (length sig))%Z.
Proof.
  unfold VarianceRatioDetector_detect. intros H Hi.
  destruct (py_fdiv f_1 (vr_threshold d)) as [q|e]; cbn [res_bind] in H;
    [|discriminate].
  assert (Hall : Forall (fun x => warm_up (DVarianceRatio d) <= x /\
                                  x + vr_sustain d < length sig)
                        (vr_candidates d sig)).
  { unfold vr_candidates, vr_idx_low, vr_idx_high. apply Forall_app. split.
    - destruct (find_sustained_crossing _ _ Below _ _) as [x|] eqn:E;
        constructor; [|constructor].
      apply (crossing_after_nan _ _ _ _ _ (vr_window d)) in E;
        [|intros j; apply vr_ratio_early].
      rewrite length_vr_ratio in E. exact E.
    - destruct (find_sustained_crossing _ _ Above _ _) as [x|] eqn:E;
        constructor; [|constructor].
      apply (crossing_after_nan _ _ _ _ _ (vr_window d)) in E;
        [|intros j; apply vr_ratio_early].
      rewrite length_vr_ratio in E. exact E. }
  destruct (vr_candidates d sig) as [|c cs].
  { injection H as <-. discriminate Hi. }
  destruct (py_get _ _) as [x|e]; cbn [res_bind] in H; [|discriminate].
  injection H as <-. cbn [detection_index] in Hi. injection Hi as <-.
  rewrite Forall_forall in Hall.
  destruct (Hall _ (fold_left_min_in cs c)) as [H1 H2]. lia.
Qed.

Lemma RollingZScoreDetector_warm_up d sig r i :
  RollingZScoreDetector_detect d sig = Ok r ->
  detection_index r = Some i ->
  (Z.of_nat (warm_up (DRollingZScore d)) <= i)%Z /\
  (i + Z.of_nat (zs_sustain d) < Z.of_nat (length sig))%Z.
Proof.
  unfold RollingZScoreDetector_detect. intros H Hi.
  injection H as <-. cbn [detection_index] in Hi.
  destruct (find_sustained_crossing _ _ _ _ _) as [x|] eqn:E;
    cbn [option_map] in Hi; [|discriminate Hi].
  injection Hi as <-.
  apply (crossing_after_nan _ _ _ _ _ (zs_zscore_window d + zs_window d))
    in E; [|intros j; apply abs_zscore_early].
  rewrite length_map, length_zs_zscore, length_compute_rolling_variance in E.
  cbn [warm_up]. lia.
Qed.

Lemma VarianceDerivativeDetector_warm_up d sig r i :
  VarianceDerivativeDetector_detect d sig = Ok r ->
  detection_index r = Some i ->
  (Z.of_nat (warm_up (DVarianceDerivative d)) <= i)%Z.
Proof.
  unfold VarianceDerivativeDetector_detect. intros H Hi.
  destruct (find_peak _ ModeMax) as [[p|]|e] eqn:Ep; cbn [res_bind] in H;
    try discriminate H.
  2:{ injection H as <-. discriminate Hi. }
  destruct (py_get _ p) as [v|e] eqn:Ev; cbn [res_bind] in H; [|discriminate].
  destruct (negb (isnan v)) eqn:Hv.
  2:{ injection H as <-. discriminate Hi. }
  destruct (v >? vd_threshold d)%f64.
  2:{ injection H as <-. discriminate Hi. }
  injection H as <-. cbn [detection_index vd_result] in Hi.
  injection Hi as <-.
  pose proof (find_peak_bounds _ _ _ Ep) as Hb.
  rewrite length_map, length_vd_derivative, length_compute_rolling_variance
    in Hb.
  apply (py_get_nth_nonneg _ _ _ nan) in Ev; [|lia].
  cbn [warm_up].
  destruct (Z.lt_ge_cases p (Z.of_nat (vd_derivative_window d + vd_window d)))
    as [Hlt|Hge]; [exfalso|exact Hge].
  change nan with (SFabs nan) in Ev. rewrite map_nth in Ev.
  unfold vd_derivative in Ev.
  rewrite nth_map_range in Ev
    by (rewrite length_compute_rolling_variance; lia).
  assert (E : (Z.to_nat p <? vd_derivative_window d + vd_window d) = true)
    by (apply Nat.ltb_lt; lia).
  rewrite E in Ev. subst v. discriminate Hv.
Qed.

Lemma CUSUMDetector_warm_up d sig r i :
  CUSUMDetector_detect d sig = Ok r ->
  detection_index r = Some i ->
  (Z.of_nat (warm_up (DCUSUM d)) <= i)%Z.
Proof.
  unfold CUSUMDetector_detect. intros H Hi.
  destruct (count_true _ <? 20).
  { injection H as <-. discriminate Hi. }
  destruct (first_return _ _) as [[c idx]|] eqn:Ef.
  2:{ injection H as <-. discriminate Hi. }
  injection H as <-. cbn [detection_index] in Hi. injection Hi as <-.
  apply (first_return_filter_in
           (fun ci : float * nat => (fst ci >? cu_threshold d)%f64)) in Ef.
  destruct Ef as [Hin _]. apply in_combine_r in Hin.
  apply in_np_where in Hin. destruct Hin as [Hlt Hv].
  rewrite length_map, length_compute_rolling_variance in Hlt.
  cbn [warm_up].
  destruct (Nat.lt_ge_cases idx (cu_window d)) as [Hw|Hw]; [exfalso|lia].
  change false with (negb (isnan nan)) in Hv.
  rewrite (map_nth (fun x => negb (isnan x))) in Hv.
  unfold compute_rolling_variance in Hv.
  rewrite nth_map_range in Hv by lia.
  assert (E : (idx <? cu_window d) = true) by (apply Nat.ltb_lt; lia).
  rewrite E in Hv. discriminate Hv.
Qed.
End WarmUp.

(** X9.  A base detector reports no index inside its warm-up: a
    reported index [i] satisfies [warm_up <= i], where the warm-up is
    [max(baseline_window, sustain, window)] for the variance ratio,
    [derivative_window + window] for the variance derivative,
    [max(zscore_window + window, sustain)] for the rolling z-score and
    [window] for CUSUM.  The index is also a position of the signal for
    every detector but the variance inflection, and the two detectors
    that search a sustained crossing leave [sustain] samples after it:
    [i + sustain < len(signal)]. *)
Theorem detection_after_warm_up {NP : Numpy} (d : BaseDetector)
    (sig : list float) (r : DetectionResult) (i : Z) :
  detect d sig = Ok r ->
  detection_index r = Some i ->
  (Z.of_nat (warm_up d) <= i)%Z /\
  (match d with
   | DVarianceInflection _ => True
   | _ => (i + Z.of_nat (sustain_of d) < Z.of_nat (length sig))%Z
   end).
Proof.
  intros H Hi. pose proof (detect_index d sig r i H Hi) as Hb.
  destruct d as [d|d|d|d|d|d]; cbn [detect sustain_of] in *.
  - exact (VarianceRatioDetector_warm_up d sig r i H Hi).
  - split; [exact (VarianceDerivativeDetector_warm_up d sig r i H Hi)|].
    destruct (VarianceDerivativeDetector_index _ _ _ _ H Hi) as [_ Hl]. lia.
  - split; [cbn [warm_up]; lia|exact I].
  - exact (RollingZScoreDetector_warm_up d sig r i H Hi).
  - split; [exact (CUSUMDetector_warm_up d sig r i H Hi)|].
    destruct (CUSUMDetector_index _ _ _ _ H Hi) as [_ Hl]. lia.
  - split; [cbn [warm_up]; lia|].
    destruct (ChangePointDetector_index _ _ _ _ H Hi) as [_ Hl]. lia.
Qed.

(* ================================================================== *)
(** * Further properties of the simulators *)
(* ================================================================== *)

Section SimulatorFields.
Context {NP : Numpy}.

Lemma finish_fields cfg ttype x control observed method g r g' :
  finish cfg ttype x control observed method g = Ok (r, g') ->
  state r = x /\ control_param r = control /\
  result_transition_type r = ttype /\ config r = cfg /\
  variance_trajectory r = compute_variance_trajectory x 50 /\
  time r = time_axis (duration cfg) (dt cfg) /\
  find_transition_index observed method = Ok (transition_index r).
Proof.
  unfold finish.
  destruct (find_transition_index observed method) as [z|e];
    cbn [res_bind]; [|discriminate].
  intros H. injection H as <- _. cbn. repeat split; reflexivity.
Qed.

(** Every simulator ends with [finish], on the archetype it simulates. *)
Lemma simulate_finish cfg g r g' :
  simulate cfg g = Ok (r, g') ->
  exists x control observed method g0,
    finish cfg (transition_type cfg) x control observed method g0
    = Ok (r, g').
Proof.
  rewrite simulate_seeded.
  destruct (reseed cfg g) as [[[] g0]|e]; cbn [res_bind]; [|discriminate].
  destruct (transition_type cfg).
  - unfold simulate_pitchfork_seeded.
    destruct (np_random_randn g0) as [z0 g1].
    destruct (duration cfg =? 0); [discriminate|]. cbv zeta.
    destruct (sde_loop _ _ _ _ _) as [xs g2]. eauto 6.
  - unfold simulate_saddle_node_seeded.
    destruct (np_random_randn g0) as [z0 g1].
    destruct (duration cfg =? 0); [discriminate|]. cbv zeta.
    destruct (sde_loop _ _ _ _ _) as [xs g2]. eauto 6.
  - unfold simulate_hopf_seeded.
    destruct (duration cfg =? 0); [discriminate|]. cbv zeta.
    destruct (sde_loop _ _ _ _ _) as [xs g2]. eauto 6.
  - unfold simulate_transcritical_seeded.
    destruct (duration cfg =? 0); [discriminate|]. cbv zeta.
    destruct (sde_loop _ _ _ _ _) as [xs g2]. eauto 6.
  - unfold simulate_nucleation_seeded.
    destruct (py_int _) as [trans_target|e]; cbn [res_bind]; [|discriminate].
    destruct (duration cfg =? 0); [discriminate|]. cbv zeta.
    destruct (sde_loop _ _ _ _ _) as [xs g2].
    destruct (py_get _ trans_target) as [at_target|e]; cbn [res_bind];
      [|discriminate].
    destruct (if (at_target <? fzero)%f64 then _ else _) as [x|e];
      cbn [res_bind]; [|discriminate].
    eauto 6.
  - unfold simulate_commitment_seeded.
    destruct (py_int _) as [trans_target|e]; cbn [res_bind]; [|discriminate].
    cbv zeta. destruct (sde_loop _ _ _ _ _) as [cxs g2]. eauto 6.
Qed.
End SimulatorFields.

(** X10.  A result of [simulate] describes the configuration it was made
    from: its [transition_type] is the archetype of the configuration,
    its [config] is the configuration itself, and its time axis is
    [np.arange(duration) * dt]. *)
Theorem simulate_result_describes_config {NP : Numpy}
    (cfg : SimulationConfig) (g : rng) (r : SimulationResult) (g' : rng) :
  simulate cfg g = Ok (r, g') ->
  result_transition_type r = transition_type cfg /\
  config r = cfg /\
  time r = map (fun i => (of_nat i * dt cfg)%f64) (range 0 (duration cfg)).
Proof.
  intros H. apply simulate_finish in H.
  destruct H as (x & control & observed & method & g0 & H).
  apply finish_fields in H.
  destruct H as (_ & _ & Ht & Hc & _ & Htime & _).
  repeat split; assumption.
Qed.

(** X11.  The [variance_trajectory] stored in a result of [simulate] is
    the rolling variance the detectors compute on the state of that
    result with a window of 50 samples
    ([BaseDetector.compute_rolling_variance]); its first 50 entries are
    NaN. *)
Theorem variance_trajectory_is_rolling_variance {NP : Numpy}
    (cfg : SimulationConfig) (g : rng) (r : SimulationResult) (g' : rng) :
  simulate cfg g = Ok (r, g') ->
  variance_trajectory r = compute_rolling_variance (state r) 50 /\
  all_nan (firstn 50 (variance_trajectory r)).
Proof.
  intros H. apply simulate_finish in H.
  destruct H as (x & control & observed & method & g0 & H).
  apply finish_fields in H.
  destruct H as (Hs & _ & _ & _ & Hv & _).
  rewrite Hv, Hs. split; [reflexivity|].
  unfold compute_variance_trajectory.
  apply Forall_forall. intros y Hy.
  destruct (In_nth _ _ nan Hy) as (i & Hi & <-).
  rewrite length_firstn, length_map, length_range in Hi.
  rewrite nth_firstn.
  assert (E : (i <? 50) = true) by (apply Nat.ltb_lt; lia).
  rewrite E. rewrite nth_map_range by lia. now rewrite E.
Qed.

(** ** Bounds the simulators keep *)

Lemma np_clip_clipped lo hi x :
  (lo <=? lo)%f64 = true -> (hi <=? hi)%f64 = true ->
  (lo <=? hi)%f64 = true ->
  clipped lo hi (np_clip x lo hi).
Proof.
  intros Hlo Hhi Hlh. unfold clipped, np_clip, np_maximum, np_minimum.
  destruct (isnan x) eqn:Hn.
  - rewrite orb_true_r, Hn, orb_true_r. now left.
  - rewrite orb_false_r.
    destruct (x >=? lo)%f64 eqn:Hx.
    + rewrite Hn, orb_false_r.
      destruct (x <=? hi)%f64 eqn:Hxh; right; split; assumption.
    + assert (Hl : isnan lo = false)
        by (destruct lo; try reflexivity; discriminate Hlo).
      rewrite Hlh, Hl. cbn [orb]. right. split; assumption.
Qed.

Section SimulatorBounds.
Context {NP : Numpy}.

(** What a step establishes, from an invariant of the previous entry,
    holds of every entry the loop computes. *)
Lemma sde_loop_invariant {St} (I P : St -> Prop)
    (step : nat -> St -> rng -> St * rng) :
  (forall i prev g, I prev ->
                    I (fst (step i prev g)) /\ P (fst (step i prev g))) ->
  forall count i prev g,
    I prev -> Forall P (fst (sde_loop step i count prev g)).
Proof.
  intros Hstep. induction count as [|count IH]; intros i prev g Hp;
    cbn [sde_loop]; [constructor|].
  destruct (Hstep i prev g Hp) as [Hi Hx].
  destruct (step i prev g) as [x g1]. cbn [fst] in Hi, Hx.
  specialize (IH (S i) x g1 Hi).
  destruct (sde_loop step (S i) count x g1) as [xs g2].
  cbn [fst] in *. now constructor.
Qed.

Lemma simulate_saddle_node_clipped cfg g r g' :
  simulate_saddle_node cfg g = Ok (r, g') ->
  Forall (clipped (- f_5)%f64 f_5) (tl (state r)).
Proof.
  unfold simulate_saddle_node.
  destruct (reseed cfg g) as [[[] g0]|e]; cbn [res_bind]; [|discriminate].
  unfold simulate_saddle_node_seeded.
  destruct (np_random_randn g0) as [z0 g1].
  destruct (duration cfg =? 0); [discriminate|]. cbv zeta.
  match goal with
  | |- context [sde_loop ?s ?i ?c ?p ?g] =>
      assert (Hall : Forall (clipped (- f_5)%f64 f_5)
                            (fst (sde_loop s i c p g)));
      [apply (sde_loop_invariant (fun _ => True)); [|exact I];
       intros j prev g2 _; split; [exact I|];
       destruct (np_random_randn g2) as [z g3]; cbn [fst];
       apply np_clip_clipped; reflexivity
      |destruct (sde_loop s i c p g) as [xs g2]]
  end.
  intros H. apply finish_fields in H. destruct H as (-> & _).
  exact Hall.
Qed.

Lemma simulate_transcritical_clipped cfg g r g' :
  simulate_transcritical cfg g = Ok (r, g') ->
  Forall (clipped (- f_3)%f64 f_3) (tl (state r)).
Proof.
  unfold simulate_transcritical.
  destruct (reseed cfg g) as [[[] g0]|e]; cbn [res_bind]; [|discriminate].
  unfold simulate_transcritical_seeded.
  destruct (duration cfg =? 0); [discriminate|]. cbv zeta.
  match goal with
  | |- context [sde_loop ?s ?i ?c ?p ?g] =>
      assert (Hall : Forall (clipped (- f_3)%f64 f_3)
                            (fst (sde_loop s i c p g)));
      [apply (sde_loop_invariant (fun _ => True)); [|exact I];
       intros j prev g2 _; split; [exact I|];
       destruct (np_random_randn g2) as [z g3]; cbn [fst];
       apply np_clip_clipped; reflexivity
      |destruct (sde_loop s i c p g) as [xs g2]]
  end.
  intros H. apply finish_fields in H. destruct H as (-> & _).
  exact Hall.
Qed.
End SimulatorBounds.

(** X12.  In a saddle-node result every sample of the state after the
    first is NaN or lies in [[-5, 5]], and in a transcritical result in
    [[-3, 3]]: the loop clips each sample it computes.  The initial sample
    is not clipped. *)
Theorem clipped_states {NP : Numpy} (cfg : SimulationConfig) (g : rng)
    (r : SimulationResult) (g' : rng) :
  simulate cfg g = Ok (r, g') ->
  match transition_type cfg with
  | SADDLE_NODE => Forall (clipped (- f_5)%f64 f_5) (tl (state r))
  | TRANSCRITICAL => Forall (clipped (- f_3)%f64 f_3) (tl (state r))
  | _ => True
  end.
Proof.
  unfold simulate. destruct (transition_type cfg); try (intros; exact I).
  - apply simulate_saddle_node_clipped.
  - apply simulate_transcritical_clipped.
Qed.

(** ** The commitment level *)

Section FloatSignsMore.
Local Open Scope Z_scope.

Lemma binary_round_aux_fpos0 M E l :
  0 <= M -> fpos0 (binary_round_aux 53 1024 false M E l).
Proof.
  intros HM. pose proof (binary_round_aux_nonneg M E l HM) as H.
  assert (Hz : binary_round_aux 53 1024 false M E l <> S754_zero true).
  { unfold binary_round_aux.
    destruct (shr_fexp 53 1024 M E l) as [mrs' e'].
    destruct (shr_fexp 53 1024 _ e' loc_Exact) as [mrs'' e''].
    destruct (shr_m mrs''); [discriminate| |discriminate].
    destruct (e'' <=? 1024 - 53); discriminate. }
  destruct (binary_round_aux 53 1024 false M E l) as [[]|[]| |[] m e];
    try exact I; contradiction.
Qed.

Lemma of_Z_fpos0 z : 0 <= z -> fpos0 (of_Z z).
Proof.
  intros Hz. unfold of_Z, binary_normalize.
  destruct z as [|p|p]; [exact I| |lia].
  unfold binary_round.
  destruct (shl_align _ _ _) as [mz ez].
  apply binary_round_aux_fpos0. lia.
Qed.

Lemma fadd_fpos0 x y : fpos0 x -> fpos0 y -> fpos0 (fadd x y).
Proof.
  intros Hx Hy.
  destruct x as [[]|[]| |[] mx ex]; try contradiction;
    destruct y as [[]|[]| |[] my ey]; try contradiction; try exact I.
  unfold fadd. cbn [SFadd cond_Zopp].
  set (ez := Z.min ex ey).
  destruct (Z.pos (fst (shl_align mx ex ez)) + Z.pos (fst (shl_align my ey ez)))
    as [|p|p] eqn:Ep; try lia.
  cbn [binary_normalize]. unfold binary_round.
  destruct (shl_align p ez _) as [mz ez'].
  apply binary_round_aux_fpos0. lia.
Qed.

Lemma fmul_fpos0 m e y :
  fpos0 y -> fpos0 (fmul (S754_finite false m e) y).
Proof.
  intros Hy. destruct y as [[]|[]| |[] my ey]; try contradiction;
    try exact I.
  unfold fmul. cbn [SFmul xorb]. apply binary_round_aux_fpos0. lia.
Qed.

Lemma fdiv_fpos0 x y :
  fpos0 x -> fpos0 y -> isnan (fdiv x y) = true \/ fpos0 (fdiv x y).
Proof.
  intros Hx Hy.
  destruct x as [[]|[]| |[] mx ex]; try contradiction;
    destruct y as [[]|[]| |[] my ey]; try contradiction;
    try (left; reflexivity); try (right; exact I).
  right. unfold fdiv. cbn [SFdiv xorb].
  unfold SFdiv_core_binary.
  set (m' := match _ with Z.pos _ => _ | 0 => _ | Z.neg _ => _ end).
  assert (Hm : 0 <= m').
  { unfold m'. destruct (ex - ey - _); [lia| |lia].
    apply Z.shiftl_nonneg. lia. }
  pose proof (Z.div_pos m' (Z.pos my) Hm ltac:(lia)) as Hq.
  unfold Z.div in Hq.
  destruct (Z.div_eucl m' (Z.pos my)) as [q r].
  now apply binary_round_aux_fpos0.
Qed.

Lemma fpos0_SFleb x : fpos0 x -> SFleb fzero x = true.
Proof.
  destruct x as [[]|[]| |[] m e]; try contradiction; reflexivity.
Qed.
End FloatSignsMore.

Section CommitmentLevel.
Context {NP : Numpy}.

Lemma commitment_step_level c_prev (i n : Z) :
  (0 <= i)%Z -> (0 <= n)%Z -> fpos0 c_prev ->
  let c := py_min f_1 (c_prev + f_0_001 + f_0_002 * py_truediv i n)%f64 in
  fpos0 c /\ (c <=? f_1)%f64 = true.
Proof.
  intros Hi Hn Hc. cbv zeta.
  split; [|apply py_min_one_le].
  unfold py_min.
  destruct (_ <? f_1)%f64 eqn:E; [|exact I].
  unfold py_truediv in *.
  destruct (fdiv_fpos0 (of_Z i) (of_Z n)) as [Hq|Hq];
    try (apply of_Z_fpos0; assumption).
  - apply isnan_true in Hq. rewrite Hq in E.
    change (f_0_002 * nan)%f64 with nan in E.
    rewrite fadd_nan_r in E. discriminate E.
  - apply fadd_fpos0; [apply fadd_fpos0; [exact Hc|exact I]|].
    now apply (fmul_fpos0 _ _ _ Hq).
Qed.

Lemma simulate_commitment_level cfg g r g' :
  simulate_commitment cfg g = Ok (r, g') ->
  Forall (fun c => (fzero <=? c)%f64 = true /\ (c <=? f_1)%f64 = true)
         (control_param r).
Proof.
  unfold simulate_commitment.
  destruct (reseed cfg g) as [[[] g0]|e]; cbn [res_bind]; [|discriminate].
  unfold simulate_commitment_seeded.
  destruct (py_int _) as [trans_target|e]; cbn [res_bind]; [|discriminate].
  cbv zeta.
  match goal with
  | |- context [sde_loop ?s ?i ?c ?p ?g] =>
      assert (Hall : Forall (fun cx : float * float =>
                               (fzero <=? fst cx)%f64 = true /\
                               (fst cx <=? f_1)%f64 = true)
                            (fst (sde_loop s i c p g)));
      [apply (sde_loop_invariant (fun cx : float * float => fpos0 (fst cx)));
       [|exact I];
       intros j [c_prev x_prev] g2 Hp;
       destruct (np_random_randn g2) as [z g3]; cbn [fst] in *;
       destruct (commitment_step_level c_prev (Z.of_nat j)
                   (Z.of_nat (duration cfg)) ltac:(lia) ltac:(lia) Hp)
         as [H1 H2];
       split; [exact H1|split; [now apply fpos0_SFleb|exact H2]]
      |destruct (sde_loop s i c p g) as [cxs g2]]
  end.
  intros H. apply finish_fields in H. destruct H as (_ & -> & _).
  cbn [fst] in Hall.
  destruct (duration cfg); [constructor|].
  cbn [map fst]. constructor; [split; reflexivity|].
  rewrite Forall_map. exact Hall.
Qed.
End CommitmentLevel.

(** X13.  In a commitment result every entry [c] of the control
    parameter (the commitment level) satisfies [0.0 <= c <= 1.0], whatever
    the configuration and the random draws. *)
Theorem commitment_level_in_unit_interval {NP : Numpy}
    (cfg : SimulationConfig) (g : rng) (r : SimulationResult) (g' : rng) :
  transition_type cfg = COMMITMENT ->
  simulate cfg g = Ok (r, g') ->
  Forall (fun c => (fzero <=? c)%f64 = true /\ (c <=? f_1)%f64 = true)
         (control_param r).
Proof.
  unfold simulate. intros ->. apply simulate_commitment_level.
Qed.

(** ** The transition index *)

Section TransitionIndex.
Context {NP : Numpy}.

Lemma fti_state_threshold_bounds st start stop z :
  (0 <= start)%Z -> (0 <= stop)%Z -> 0 < length st ->
  fti_state_threshold st start stop = Ok z ->
  (0 <= z < Z.of_nat (length st))%Z.
Proof.
  intros Hs He Hn. unfold fti_state_threshold.
  destruct (np_where _) as [|c cs] eqn:Ec.
  - intros [= <-].
    change (fst (Nat.divmod (length st) 1 0 1)) with (length st / 2).
    pose proof (Nat.div_lt (length st) 2 Hn ltac:(lia)). lia.
  - intros [= <-].
    assert (Hin : In c (c :: cs)) by now left.
    rewrite <- Ec in Hin. apply in_np_where in Hin.
    destruct Hin as [Hlt _]. rewrite length_map in Hlt.
    pose proof (py_slice_position st start stop c Hs He Hlt). lia.
Qed.

Lemma find_transition_index_all st method z :
  0 < length st ->
  find_transition_index st method = Ok z ->
  (0 <= z < Z.of_nat (length st))%Z.
Proof.
  intros Hn H.
  destruct method;
    [apply (find_transition_index_bounds st Derivative z);
     [discriminate|exact Hn|exact H]
    |apply (find_transition_index_bounds st VariancePeak z);
     [discriminate|exact Hn|exact H]|].
  unfold find_transition_index in H.
  destruct (py_int (of_nat (length st) * f_0_1)%f64) as [start|e] eqn:Es;
    cbn [res_bind] in H; [|discriminate].
  destruct (py_int (of_nat (length st) * (f_1 - f_0_1))%f64) as [stop|e] eqn:Ee;
    cbn [res_bind] in H; [|discriminate].
  pose proof (py_int_scaled_nonneg _ _ _ fnonneg_f_0_1 Es) as Hs.
  pose proof (py_int_scaled_nonneg _ _ _ fnonneg_f_0_9 Ee) as He.
  now apply (fti_state_threshold_bounds st start stop).
Qed.

Lemma find_transition_index_empty method :
  find_transition_index [] method
  = Ok (match method with Derivative => -1 | _ => 0 end)%Z.
Proof. destruct method; reflexivity. Qed.
End TransitionIndex.

(** X14.  On a non-empty state of [n] samples, the index
    [find_transition_index] returns is a position of the state,
    [0 <= index < n], with each of the three methods.  On an empty state
    the methods [variance_peak] and [state_threshold] return [0] and the
    method [derivative] returns [-1]. *)
Theorem find_transition_index_range {NP : Numpy} (st : list float)
    (method : Method) (z : Z) :
  find_transition_index st method = Ok z ->
  match st with
  | [] => z = match method with Derivative => -1 | _ => 0 end
  | _ :: _ => 0 <= z < Z.of_nat (length st)
  end%Z.
Proof.
  destruct st as [|x st].
  - rewrite find_transition_index_empty. intros H. injection H as <-.
    reflexivity.
  - apply find_transition_index_all. cbn [length]. lia.
Qed.

Section ZeroDuration.
Context {NP : Numpy}.

Lemma zero_duration_commitment cfg g r g' :
  duration cfg = 0 ->
  simulate cfg g = Ok (r, g') ->
  transition_type cfg = COMMITMENT /\
  time r = [] /\ state r = [] /\ control_param r = [] /\
  variance_trajectory r = [] /\ transition_index r = (-1)%Z.
Proof.
  intros Hd. rewrite simulate_seeded.
  destruct (reseed cfg g) as [[[] g0]|e]; cbn [res_bind]; [|discriminate].
  destruct (transition_type cfg);
    [unfold simulate_pitchfork_seeded; destruct (np_random_randn g0)
    |unfold simulate_saddle_node_seeded; destruct (np_random_randn g0)
    |unfold simulate_hopf_seeded
    |unfold simulate_transcritical_seeded
    |unfold simulate_nucleation_seeded;
     destruct (py_int _); cbn [res_bind]; [|discriminate]
    |]; rewrite ?Hd; cbn [Nat.eqb]; try discriminate.
  unfold simulate_commitment_seeded.
  destruct (py_int _) as [trans_target|e]; cbn [res_bind]; [|discriminate].
  rewrite Hd. cbn [sde_loop Nat.sub map].
  intros H. apply finish_fields in H.
  destruct H as (-> & -> & _ & _ & -> & -> & Hi).
  rewrite Hd. rewrite find_transition_index_empty in Hi.
  injection Hi as <-. repeat split; reflexivity.
Qed.
End ZeroDuration.

(** X15.  With [duration = 0], [simulate] returns a result for the
    commitment archetype only (the five others raise), and that result
    has empty arrays and the transition index [-1]. *)
Theorem simulate_zero_duration {NP : Numpy} (cfg : SimulationConfig)
    (g : rng) (r : SimulationResult) (g' : rng) :
  duration cfg = 0 ->
  simulate cfg g = Ok (r, g') ->
  transition_type cfg = COMMITMENT /\
  time r = [] /\ state r = [] /\ control_param r = [] /\
  variance_trajectory r = [] /\ transition_index r = (-1)%Z.
Proof. apply zero_duration_commitment. Qed.

(** ** The simulations of a dataset *)

Section DatasetFacts.
Context {NP : Numpy}.

Lemma simulate_config cfg g r g' :
  simulate cfg g = Ok (r, g') ->
  config r = cfg /\ result_transition_type r = transition_type cfg.
Proof.
  intros H. apply simulate_finish in H.
  destruct H as (x & control & observed & method & g0 & H).
  apply finish_fields in H. tauto.
Qed.

(** Entry [k] of the dataset comes from the call of rank [k]. *)
Lemma generate_loop_nth (one : nat -> sim SimulationResult) ids :
  forall g rs g' k r,
    generate_loop one ids g = Ok (rs, g') ->
    nth_error rs k = Some r ->
    exists i g1 g2, nth_error ids k = Some i /\ one i g1 = Ok (r, g2).
Proof.
  induction ids as [|i ids IH]; intros g rs g' k r; cbn [generate_loop].
  - intros [= <- _]. destruct k; discriminate.
  - destruct (one i g) as [[r0 g1]|e] eqn:E0; cbn [res_bind]; [|discriminate].
    destruct (generate_loop one ids g1) as [[rs0 g2]|e] eqn:E1;
      cbn [res_bind]; [|discriminate].
    intros [= <- _]. destruct k as [|k]; cbn [nth_error].
    + intros [= <-]. eauto.
    + intros Hk. exact (IH _ _ _ _ _ E1 Hk).
Qed.

Lemma nth_error_range n k i : nth_error (range 0 n) k = Some i -> i = k.
Proof.
  intros H. unfold range in H. rewrite Nat.sub_0_r in H.
  assert (Hk : k < length (seq 0 n)) by (apply nth_error_Some; congruence).
  rewrite length_seq in Hk.
  rewrite (nth_error_nth' _ 0) in H by (rewrite length_seq; exact Hk).
  rewrite seq_nth in H by exact Hk. now injection H as <-.
Qed.

(** The configuration of entry [k]. *)
Lemma generate_dataset_nth n tts nls ds seed0 g rs g' k r :
  generate_dataset n tts nls ds seed0 g = Ok (rs, g') ->
  nth_error rs k = Some r ->
  nth_error tts (k mod length tts) = Some (transition_type (config r)) /\
  nth_error nls (k mod length nls) = Some (noise_level (config r)) /\
  seed (config r) = option_map (fun s => (s + Z.of_nat k)%Z) seed0 /\
  dt (config r) = f_0_01 /\
  result_transition_type r = transition_type (config r) /\
  exists g1 g2, simulate (config r) g1 = Ok (r, g2).
Proof.
  unfold generate_dataset.
  destruct (match seed0 with Some s => np_random_seed s | None => Ok g end)
    as [g0|e]; cbn [res_bind]; [|discriminate].
  intros H Hk.
  destruct (generate_loop_nth _ _ _ _ _ _ _ H Hk) as (i & g1 & g2 & Hi & Ho).
  apply nth_error_range in Hi. subst i.
  unfold generate_one in Ho.
  destruct tts as [|t0 tts]; [discriminate|].
  destruct nls as [|nl0 nls]; [discriminate|].
  destruct (np_random_randint _ _ g1) as [[d g3]|e]; cbn [res_bind] in Ho;
    [|discriminate].
  destruct (np_random_uniform f_0_4 f_0_7 g3) as [frac g4].
  destruct (d <? 0)%Z; [discriminate|].
  destruct (simulate_config _ _ _ _ Ho) as [Hc Ht].
  rewrite Ht, Hc. cbn [transition_type noise_level seed dt].
  repeat split.
  - apply nth_error_nth'. apply Nat.mod_upper_bound. discriminate.
  - apply nth_error_nth'. apply Nat.mod_upper_bound. discriminate.
  - exists g4, g2. exact Ho.
Qed.
End DatasetFacts.

(** X16.  Entry [k] of a dataset that [generate_dataset] returns was
    simulated with the archetype of rank [k mod len(transition_types)],
    the noise level of rank [k mod len(noise_levels)], the step
    [dt = 0.01] and the seed [seed + k] (no seed when the dataset has
    none); the archetype stored in the result is that of its
    configuration. *)
Theorem dataset_entries_round_robin {NP : Numpy} (n : nat)
    (tts : list TransitionType) (nls : list float) (ds : Z * Z)
    (seed0 : option Z) (g : rng) (rs : list SimulationResult) (g' : rng)
    (k : nat) (r : SimulationResult) :
  generate_dataset n tts nls ds seed0 g = Ok (rs, g') ->
  nth_error rs k = Some r ->
  nth_error tts (k mod length tts) = Some (transition_type (config r)) /\
  nth_error nls (k mod length nls) = Some (noise_level (config r)) /\
  seed (config r) = option_map (fun s => (s + Z.of_nat k)%Z) seed0 /\
  dt (config r) = f_0_01 /\
  result_transition_type r = transition_type (config r).
Proof.
  intros H Hk.
  destruct (generate_dataset_nth _ _ _ _ _ _ _ _ _ _ H Hk)
    as (H1 & H2 & H3 & H4 & H5 & _).
  repeat split; assumption.
Qed.

(** X17.  Every simulation of a dataset generated with a seed can be
    regenerated on its own: [simulate] on the configuration stored in the
    result returns that same result, whatever the state of the random
    generator. *)
Theorem seeded_dataset_entries_reproducible {NP : Numpy} (n : nat)
    (tts : list TransitionType) (nls : list float) (ds : Z * Z)
    (s : Z) (g : rng) (rs : list SimulationResult) (g' : rng)
    (r : SimulationResult) (g2 : rng) :
  generate_dataset n tts nls ds (Some s) g = Ok (rs, g') ->
  In r rs ->
  exists g3, simulate (config r) g2 = Ok (r, g3).
Proof.
  intros H Hin. apply In_nth_error in Hin. destruct Hin as [k Hk].
  destruct (generate_dataset_nth _ _ _ _ _ _ _ _ _ _ H Hk)
    as (_ & _ & Hs & _ & _ & g1 & g4 & Hsim).
  exists g4. rewrite <- Hsim. rewrite !simulate_seeded.
  rewrite (reseed_given (config r) g2 g1); [reflexivity|].
  rewrite Hs. discriminate.
Qed.

(* ================================================================== *)
(** * Further properties of the harness *)
(* ================================================================== *)

(** ** The four properties of a metrics record *)

Lemma count_ratio_unit (a b : nat) :
  (Z.of_nat b < 2 ^ 53)%Z -> a <= b ->
  (fzero <=? count_ratio a b)%f64 = true /\
  (count_ratio a b <=? f_1)%f64 = true.
Proof.
  intros Hb Hab. split.
  - change fzero with (count_ratio 0 1).
    apply count_ratio_le; cbn [Nat.eqb Z.of_nat]; try lia;
      destruct (b =? 0); lia.
  - change f_1 with (count_ratio 1 1).
    apply count_ratio_le; cbn [Nat.eqb Z.of_nat]; try lia;
      destruct (b =? 0); lia.
Qed.

Lemma count_ratio_zero (b : nat) :
  (Z.of_nat b < 2 ^ 53)%Z -> count_ratio 0 b = fzero.
Proof.
  intros Hb. unfold count_ratio. destruct b as [|b]; [reflexivity|].
  cbn [Nat.ltb Nat.leb]. unfold of_nat.
  change (Z.of_nat 0) with 0%Z. apply fdiv_Z_zero. lia.
Qed.

(** X18.  For counts below [2^53], which floats hold exactly, the
    properties [precision], [recall] and [accuracy] of a metrics record
    return floats between [0.0] and [1.0]; with no true positive,
    [precision], [recall] and [f1_score] are [0.0]. *)
Theorem metrics_in_unit_interval (m : EvaluationMetrics) :
  (Z.of_nat (true_positives m + false_positives m
             + true_negatives m + false_negatives m) < 2 ^ 53)%Z ->
  ((fzero <=? precision m)%f64 = true /\ (precision m <=? f_1)%f64 = true) /\
  ((fzero <=? recall m)%f64 = true /\ (recall m <=? f_1)%f64 = true) /\
  ((fzero <=? accuracy m)%f64 = true /\ (accuracy m <=? f_1)%f64 = true) /\
  (true_positives m = 0 ->
   precision m = fzero /\ recall m = fzero /\ f1_score m = fzero).
Proof.
  intros H.
  change (precision m)
    with (count_ratio (true_positives m)
                      (true_positives m + false_positives m)).
  change (recall m)
    with (count_ratio (true_positives m)
                      (true_positives m + false_negatives m)).
  change (accuracy m)
    with (count_ratio (true_positives m + true_negatives m)
                      (true_positives m + false_positives m
                       + true_negatives m + false_negatives m)).
  split; [apply count_ratio_unit; lia|].
  split; [apply count_ratio_unit; lia|].
  split; [apply count_ratio_unit; lia|].
  intros H0. unfold f1_score.
  change (precision m)
    with (count_ratio (true_positives m)
                      (true_positives m + false_positives m)).
  change (recall m)
    with (count_ratio (true_positives m)
                      (true_positives m + false_negatives m)).
  rewrite H0, !count_ratio_zero by lia. repeat split; reflexivity.
Qed.

Lemma accuracy_le_precision_recall (m : EvaluationMetrics) :
  true_negatives m = 0 ->
  (Z.of_nat (pairs_counted m) < 2 ^ 53)%Z ->
  (accuracy m <=? precision m)%f64 = true /\
  (accuracy m <=? recall m)%f64 = true.
Proof.
  intros Htn Hb. unfold pairs_counted in Hb.
  change (precision m)
    with (count_ratio (true_positives m)
                      (true_positives m + false_positives m)).
  change (recall m)
    with (count_ratio (true_positives m)
                      (true_positives m + false_negatives m)).
  change (accuracy m)
    with (count_ratio (true_positives m + true_negatives m)
                      (true_positives m + false_positives m
                       + true_negatives m + false_negatives m)).
  rewrite Htn.
  set (a := true_positives m) in *. set (p := false_positives m) in *.
  set (n := false_negatives m) in *.
  split; apply count_ratio_le; try lia.
  - destruct (Nat.eqb_spec (a + p + 0 + n) 0) as [E1|E1];
      destruct (Nat.eqb_spec (a + p) 0) as [E2|E2]; try lia; nia.
  - destruct (Nat.eqb_spec (a + p + 0 + n) 0) as [E1|E1];
      destruct (Nat.eqb_spec (a + n) 0) as [E2|E2]; try lia; nia.
Qed.

(** X19.  After the evaluation of a corpus of fewer than [2^53]
    simulations, the [accuracy] of every detector is at most its
    [precision] and at most its [recall]: no true negative is ever
    counted, so [accuracy] is [TP / (TP + FP + FN)]. *)
Theorem accuracy_at_most_precision_and_recall {NP : Numpy}
    (cfg : ExperimentConfig) (dataset : list SimulationResult)
    (st : HarnessState) (dtype : DetectorType) :
  evaluate_corpus cfg dataset = Ok st ->
  (Z.of_nat (length dataset) < 2 ^ 53)%Z ->
  In dtype (detector_types cfg) ->
  exists m, dict_lookup (metrics st) dtype = Some m /\
            accuracy m = count_ratio (true_positives m) (length dataset) /\
            (accuracy m <=? precision m)%f64 = true /\
            (accuracy m <=? recall m)%f64 = true.
Proof.
  intros Hrun Hlen Hin.
  destruct (evaluate_corpus_counts cfg dataset st Hrun dtype Hin)
    as (m & Hm & Htn & Hpc).
  exists m. split; [exact Hm|]. split.
  - unfold accuracy, count_ratio. rewrite Htn, <- Hpc. unfold pairs_counted.
    now rewrite !Nat.add_0_r,
      <- (Nat.add_assoc _ (false_positives m) (false_negatives m)),
      (Nat.add_assoc (true_positives m)).
  - apply accuracy_le_precision_recall; [exact Htn|]. now rewrite Hpc.
Qed.

(** ** The detailed records *)

Section DetailedRecords.
Context {NP : Numpy}.

Lemma evaluate_detectors_entries T sim_ ds : forall st acc st' acc',
  evaluate_detectors T sim_ ds (st, acc) = Ok (st', acc') ->
  detailed_results st' = detailed_results st /\
  exists entries,
    acc' = acc ++ entries /\
    Forall2 (fun (kd : DetectorType * Detector)
                 (e : DetectorType * DetectionRecord) =>
               fst e = fst kd /\
               exists detection,
                 Detector_detect (snd kd) (state sim_) = Ok detection /\
                 snd e = detection_record detection (transition_index sim_))
            ds entries.
Proof.
  induction ds as [|[dtype0 det] rest IH]; intros st acc st' acc' Hrun.
  - cbn in Hrun. injection Hrun as <- <-. split; [reflexivity|].
    exists []. split; [now rewrite app_nil_r|constructor].
  - cbn [evaluate_detectors] in Hrun.
    destruct (Detector_detect det (state sim_)) as [detection|e] eqn:Ed;
      cbn [res_bind fst snd] in Hrun; [|discriminate Hrun].
    apply IH in Hrun. destruct Hrun as [Hr (entries & -> & Hf)].
    split; [now rewrite Hr, score_detailed_results|].
    eexists (_ :: entries). split; [now rewrite <- app_assoc|].
    constructor; [|exact Hf]. cbn [fst snd]. split; [reflexivity|].
    exists detection. split; [exact Ed|reflexivity].
Qed.

Lemma evaluate_dataset_detailed T ds dataset : forall i st st',
  evaluate_dataset T ds i dataset st = Ok st' ->
  length (detailed_results st')
  = length (detailed_results st) + length dataset /\
  (forall k rec, nth_error (detailed_results st) k = Some rec ->
                 nth_error (detailed_results st') k = Some rec) /\
  forall k sim_, nth_error dataset k = Some sim_ ->
    exists rec,
      nth_error (detailed_results st') (length (detailed_results st) + k)
      = Some rec /\
      record_of ds (i + k) sim_ rec.
Proof.
  induction dataset as [|sim0 rest IH]; intros i st st' Hrun.
  - cbn in Hrun. injection Hrun as <-. cbn [length].
    split; [lia|]. split; [auto|]. intros [|k] sim_ Hk; discriminate Hk.
  - cbn [evaluate_dataset] in Hrun.
    destruct (evaluate_detectors T sim0 ds (st, [])) as [[st1 dets]|e] eqn:E1;
      cbn [res_bind] in Hrun; [|discriminate Hrun].
    apply evaluate_detectors_entries in E1.
    destruct E1 as [Hr (entries & -> & Hf)]. cbn [app] in *.
    apply IH in Hrun. cbn [detailed_results] in Hrun.
    rewrite Hr, length_app in Hrun. cbn [length] in Hrun.
    destruct Hrun as (Hlen & Hold & Hnew). cbn [length].
    split; [lia|]. split.
    + intros k rec Hk. apply Hold.
      rewrite nth_error_app1; [exact Hk|].
      apply nth_error_Some. congruence.
    + intros [|k] sim_ Hk; cbn [nth_error] in Hk.
      * injection Hk as <-.
        eexists. split.
        -- apply Hold. rewrite Nat.add_0_r, nth_error_app2 by lia.
           rewrite Nat.sub_diag. reflexivity.
        -- unfold record_of. cbn. rewrite Nat.add_0_r.
           repeat split; try reflexivity. exact Hf.
      * destruct (Hnew k sim_ Hk) as (rec & Hrec & Hok).
        exists rec. split.
        -- rewrite <- Hrec. f_equal. lia.
        -- replace (i + S k) with (S i + k) by lia. exact Hok.
Qed.
End DetailedRecords.

(** X20.  The detailed results of an evaluation hold one record per
    simulation of the corpus, in the order of the corpus.  The record of
    rank [k] has [simulation_id = k], the archetype, the true transition
    index, the duration and the noise level of simulation [k], and one
    detection entry per detector of the harness, in the order of the
    detectors, made from the result of that detector on the state of
    simulation [k]. *)
Theorem detailed_results_follow_the_corpus {NP : Numpy}
    (cfg : ExperimentConfig) (dataset : list SimulationResult)
    (st : HarnessState) :
  evaluate_corpus cfg dataset = Ok st ->
  length (detailed_results st) = length dataset /\
  forall k sim_, nth_error dataset k = Some sim_ ->
    exists rec, nth_error (detailed_results st) k = Some rec /\
                record_of (harness_detectors cfg) k sim_ rec.
Proof.
  unfold evaluate_corpus. intros Hrun.
  apply evaluate_dataset_detailed in Hrun.
  cbn [initial_state detailed_results length] in Hrun.
  destruct Hrun as (Hlen & _ & Hnew). split; [exact Hlen|].
  intros k sim_ Hk. exact (Hnew k sim_ Hk).
Qed.

(** ** The lists recorded for a detector *)

Lemma count_true_app l1 l2 :
  count_true (l1 ++ l2) = count_true l1 + count_true l2.
Proof. unfold count_true. now rewrite filter_app, length_app. Qed.

Lemma per_type_total_append (f : TransitionType -> list Z) ttype e :
  per_type_total (fun t => if TransitionType_eqb t ttype
                           then f t ++ [e] else f t)
  = S (per_type_total f).
Proof.
  unfold per_type_total.
  destruct ttype; cbn; rewrite length_app; cbn; lia.
Qed.

(** The lists of a detector, after one more detection is scored. *)
Lemma lists_match_counts_score T detection true_idx ttype m errs confs pte :
  lists_match_counts T m errs confs pte ->
  match detected detection, detection_index detection with
  | true, Some idx =>
      let error := (idx - true_idx)%Z in
      if (Z.abs error <=? T)%Z then
        lists_match_counts T (add_tp m) (errs ++ [error])
          (confs ++ [(confidence detection, true)])
          (fun t => if TransitionType_eqb t ttype
                    then pte t ++ [error] else pte t)
      else
        lists_match_counts T (add_fp m) errs
          (confs ++ [(confidence detection, false)]) pte
  | _, _ =>
      lists_match_counts T (add_fn m) errs (confs ++ [(fzero, false)]) pte
  end.
Proof.
  intros (H1 & H2 & H3 & H4 & H5).
  assert (Hfn : lists_match_counts T (add_fn m) errs
                                   (confs ++ [(fzero, false)]) pte).
  { unfold lists_match_counts, pairs_counted in *. cbn.
    rewrite length_app, map_app, count_true_app. cbn.
    repeat split; try assumption; lia. }
  destruct (detected detection); [|exact Hfn].
  destruct (detection_index detection) as [idx|]; [|exact Hfn].
  cbv zeta. destruct (Z.abs (idx - true_idx) <=? T)%Z eqn:E.
  - apply Z.leb_le in E.
    unfold lists_match_counts, pairs_counted in *.
    rewrite !length_app, map_app, count_true_app, per_type_total_append.
    cbn [add_tp true_positives false_positives false_negatives length map
         snd].
    change (count_true [true]) with 1.
    repeat split; try lia.
    apply Forall_app. split; [exact H2|]. constructor; [exact E|constructor].
  - unfold lists_match_counts, pairs_counted in *. cbn.
    rewrite length_app, map_app, count_true_app. cbn.
    repeat split; try assumption; lia.
Qed.

Lemma score_same_keys T dtype ttype true_idx detection st keys :
  same_keys st keys ->
  same_keys (score T dtype ttype true_idx detection st) keys.
Proof.
  unfold same_keys, score. intros (H1 & H2 & H3 & H4).
  destruct (detected detection);
    [destruct (detection_index detection) as [idx|];
     [destruct (Z.abs (idx - true_idx) <=? T)%Z|]|];
    cbn [metrics detection_errors confidences per_type_errors];
    rewrite ?dict_update_keys; auto.
Qed.

Lemma score_lists_ok T dtype ttype true_idx detection st dtype' :
  lists_ok T st dtype' ->
  lists_ok T (score T dtype ttype true_idx detection st) dtype'.
Proof.
  intros Hok m errs confs pte.
  pose proof (lists_match_counts_score T detection true_idx ttype) as Hs.
  unfold score.
  destruct (detected detection);
    [destruct (detection_index detection) as [idx|];
     [cbv zeta in Hs; destruct (Z.abs (idx - true_idx) <=? T)%Z|]|];
    cbn [metrics detection_errors confidences per_type_errors];
    rewrite ?dict_lookup_update;
    (destruct (DetectorType_eqb dtype dtype'); [|apply Hok]);
    destruct (dict_lookup (metrics st) dtype') as [m0|] eqn:E1;
    cbn [option_map]; try discriminate;
    destruct (dict_lookup (confidences st) dtype') as [c0|] eqn:E3;
    cbn [option_map]; try (intros; discriminate);
    try (destruct (dict_lookup (detection_errors st) dtype') as [e0|] eqn:E2;
         cbn [option_map]; try (intros; discriminate);
         destruct (dict_lookup (per_type_errors st) dtype') as [p0|] eqn:E4;
         cbn [option_map]; try (intros; discriminate));
    intros G1 G2 G3 G4;
    injection G1 as <-; try injection G2 as <-; injection G3 as <-;
    try injection G4 as <-;
    apply Hs; apply Hok; auto.
Qed.

Section RecordedLists.
Context {NP : Numpy}.

Lemma evaluate_detectors_lists T sim_ ds keys :
  forall st acc st' acc',
    same_keys st keys -> (forall dtype, lists_ok T st dtype) ->
    evaluate_detectors T sim_ ds (st, acc) = Ok (st', acc') ->
    same_keys st' keys /\ forall dtype, lists_ok T st' dtype.
Proof.
  induction ds as [|[dtype0 det] rest IH]; intros st acc st' acc' Hk Hok Hrun.
  - cbn in Hrun. injection Hrun as <- _. split; assumption.
  - cbn [evaluate_detectors] in Hrun.
    destruct (Detector_detect det (state sim_)) as [detection|e];
      cbn [res_bind fst snd] in Hrun; [|discriminate Hrun].
    apply IH in Hrun; [exact Hrun|now apply score_same_keys|].
    intros dtype. now apply score_lists_ok.
Qed.

Lemma evaluate_dataset_lists T ds keys dataset :
  forall i st st',
    same_keys st keys -> (forall dtype, lists_ok T st dtype) ->
    evaluate_dataset T ds i dataset st = Ok st' ->
    same_keys st' keys /\ forall dtype, lists_ok T st' dtype.
Proof.
  induction dataset as [|sim0 rest IH]; intros i st st' Hk Hok Hrun.
  - cbn in Hrun. injection Hrun as <-. split; assumption.
  - cbn [evaluate_dataset] in Hrun.
    destruct (evaluate_detectors T sim0 ds (st, [])) as [[st1 dets]|e] eqn:E1;
      cbn [res_bind] in Hrun; [|discriminate Hrun].
    destruct (evaluate_detectors_lists _ _ _ _ _ _ _ _ Hk Hok E1)
      as [Hk1 Hok1].
    apply IH in Hrun; [exact Hrun|exact Hk1|exact Hok1].
Qed.

Lemma initial_state_lists cfg T :
  same_keys (initial_state cfg)
            (map fst (dict_comprehension (detector_types cfg)
                                         EvaluationMetrics_init)) /\
  forall dtype, lists_ok T (initial_state cfg) dtype.
Proof.
  split.
  - unfold same_keys, initial_state.
    cbn [metrics detection_errors confidences per_type_errors].
    repeat split; apply dict_comprehension_same_keys.
  - intros dtype m errs confs pte. unfold initial_state.
    cbn [metrics detection_errors confidences per_type_errors].
    rewrite !dict_comprehension_lookup.
    destruct (existsb _ _); [|discriminate].
    intros [= <-] [= <-] [= <-] [= <-].
    unfold lists_match_counts. cbn. repeat split. constructor.
Qed.
End RecordedLists.

(** X21.  After the evaluation of a corpus at tolerance [T], the lists
    recorded for a detector agree with its counts: [detection_errors]
    holds one error per true positive, each with [|error| <= T];
    [confidences] holds one pair per simulation, of which exactly the
    true positives are flagged [True]; and the per-archetype error lists
    hold one error per true positive in all. *)
Theorem recorded_lists_match_counts {NP : Numpy} (cfg : ExperimentConfig)
    (dataset : list SimulationResult) (st : HarnessState)
    (dtype : DetectorType) :
  evaluate_corpus cfg dataset = Ok st ->
  In dtype (detector_types cfg) ->
  exists m errs confs pte,
    dict_lookup (metrics st) dtype = Some m /\
    dict_lookup (detection_errors st) dtype = Some errs /\
    dict_lookup (confidences st) dtype = Some confs /\
    dict_lookup (per_type_errors st) dtype = Some pte /\
    length errs = true_positives m /\
    Forall (fun e => (Z.abs e <= detection_tolerance cfg)%Z) errs /\
    length confs = length dataset /\
    count_true (map snd confs) = true_positives m /\
    per_type_total pte = true_positives m.
Proof.
  intros Hrun Hin.
  destruct (evaluate_corpus_counts cfg dataset st Hrun dtype Hin)
    as (m & Hm & _ & Hpc).
  unfold evaluate_corpus in Hrun.
  destruct (initial_state_lists cfg (detection_tolerance cfg)) as [Hk0 Hok0].
  destruct (evaluate_dataset_lists _ _ _ _ _ _ _ Hk0 Hok0 Hrun)
    as [(K1 & K2 & K3 & K4) Hok].
  assert (Hkey : In dtype (map fst (metrics st)))
    by (apply dict_lookup_in; eauto).
  rewrite K1 in Hkey.
  assert (H2 : exists errs, dict_lookup (detection_errors st) dtype = Some errs)
    by (apply dict_lookup_in; now rewrite K2).
  assert (H3 : exists confs, dict_lookup (confidences st) dtype = Some confs)
    by (apply dict_lookup_in; now rewrite K3).
  assert (H4 : exists pte, dict_lookup (per_type_errors st) dtype = Some pte)
    by (apply dict_lookup_in; now rewrite K4).
  destruct H2 as [errs H2]. destruct H3 as [confs H3].
  destruct H4 as [pte H4].
  destruct (Hok dtype m errs confs pte Hm H2 H3 H4)
    as (L1 & L2 & L3 & L4 & L5).
  exists m, errs, confs, pte. repeat split; try assumption. congruence.
Qed.

(** ** The comparison of the detectors *)


(* ================================================================== *)
(** * The evaluation on real-world data *)
(* ================================================================== *)

Lemma list_sum_app_one l x : list_sum (l ++ [x]) = list_sum l + x.
Proof. rewrite list_sum_app. cbn. lia. Qed.

Lemma first_match_within det_idx T known t :
  first_match det_idx T known = Some t ->
  In t known /\ (Z.abs (det_idx - t) <= T)%Z.
Proof.
  unfold first_match. intros H. apply find_some in H.
  destruct H as [Hin Hle]. apply Z.leb_le in Hle. auto.
Qed.

Section LoaderFacts.
Context {NP : Numpy}.

Lemma evaluate_one_ok detect_ T acc dataset acc' :
  counts_ok T acc ->
  evaluate_one detect_ T acc dataset = Ok acc' ->
  counts_ok T acc' /\
  length (per_dataset acc')
  = length (per_dataset acc) + (if has_transitions dataset then 1 else 0) /\
  total_transitions acc'
  = total_transitions acc + length (known_transitions dataset).
Proof.
  intros (H1 & H2 & H3 & H4 & H5 & H6). unfold evaluate_one, has_transitions.
  destruct (known_transitions dataset) as [|t0 ts] eqn:Ek.
  { intros [= <-]. cbn [length]. repeat split; try assumption; lia. }
  assert (Hn : 1 <= length (t0 :: ts)) by (cbn [length]; lia).
  set (known := t0 :: ts) in *. clearbody known. clear Ek.
  destruct (detect_ (values dataset)) as [detection|e]; cbn [res_bind];
    [|discriminate].
  assert (Hmiss : forall acc1,
            acc1 = {| total_transitions := total_transitions acc + length known;
                      rw_detected := rw_detected acc;
                      false_alarms := false_alarms acc;
                      rw_detection_errors := rw_detection_errors acc;
                      per_dataset :=
                        per_dataset acc
                        ++ [{| dr_name := ds_name dataset;
                               n_transitions := length known;
                               detected_indices := [];
                               true_indices := known;
                               hits := 0;
                               misses := Z.of_nat (length known) |}] |} ->
            counts_ok T acc1 /\
            length (per_dataset acc1) = length (per_dataset acc) + 1 /\
            total_transitions acc1
            = total_transitions acc + length known).
  { intros acc1 ->. unfold counts_ok.
    cbn [total_transitions rw_detected false_alarms rw_detection_errors
         per_dataset].
    rewrite !map_app, filter_app, !length_app.
    cbn [map filter fired detected_indices n_transitions hits length app].
    rewrite !list_sum_app_one.
    repeat split; try assumption; try lia.
    apply Forall_app. split; [exact H6|]. constructor; [|constructor].
    cbn [hits n_transitions misses true_indices detected_indices fired
         length]. repeat split; lia. }
  destruct (detected detection); [|intros [= <-]; now apply Hmiss].
  destruct (detection_index detection) as [det_idx|];
    [|intros [= <-]; now apply Hmiss].
  destruct (first_match det_idx T known) as [t|] eqn:Ef.
  - apply first_match_within in Ef. destruct Ef as [_ Hle].
    intros [= <-]. unfold counts_ok.
    cbn [total_transitions rw_detected false_alarms rw_detection_errors
         per_dataset].
    rewrite !map_app, filter_app, !length_app.
    cbn [map filter fired detected_indices n_transitions hits length app].
    rewrite !list_sum_app_one.
    repeat split; try assumption; try lia.
    + apply Forall_app. split; [exact H5|]. constructor; [exact Hle|constructor].
    + apply Forall_app. split; [exact H6|]. constructor; [|constructor].
      cbn [hits n_transitions misses true_indices detected_indices fired
         length]. repeat split; lia.
  - intros [= <-]. unfold counts_ok.
    cbn [total_transitions rw_detected false_alarms rw_detection_errors
         per_dataset].
    rewrite !map_app, filter_app, !length_app.
    cbn [map filter fired detected_indices n_transitions hits length app].
    rewrite !list_sum_app_one.
    repeat split; try assumption; try lia.
    apply Forall_app. split; [exact H6|]. constructor; [|constructor].
    cbn [hits n_transitions misses true_indices detected_indices fired
         length]. repeat split; lia.
Qed.

Lemma fold_evaluate_one_ok detect_ T datasets : forall acc acc',
  counts_ok T acc ->
  fold_res (evaluate_one detect_ T) datasets acc = Ok acc' ->
  counts_ok T acc' /\
  length (per_dataset acc')
  = length (per_dataset acc) + length (filter has_transitions datasets) /\
  total_transitions acc'
  = total_transitions acc
    + list_sum (map (fun d => length (known_transitions d)) datasets).
Proof.
  induction datasets as [|d datasets IH]; intros acc acc' Hok;
    cbn [fold_res filter map list_sum fold_right].
  - intros [= <-]. cbn [length]. split; [exact Hok|split; lia].
  - destruct (evaluate_one detect_ T acc d) as [acc1|e] eqn:E1;
      cbn [res_bind]; [|discriminate].
    destruct (evaluate_one_ok _ _ _ _ _ Hok E1) as (Hok1 & Hl1 & Ht1).
    intros H. destruct (IH _ _ Hok1 H) as (Hok' & Hl' & Ht').
    split; [exact Hok'|].
    unfold list_sum in *.
    destruct (has_transitions d); cbn [length]; split; lia.
Qed.

Lemma counts_ok_initial T :
  counts_ok T {| total_transitions := 0; rw_detected := 0; false_alarms := 0;
                 rw_detection_errors := []; per_dataset := [] |}.
Proof. unfold counts_ok. cbn. repeat split; constructor. Qed.

Lemma evaluate_on_real_data_counts datasets detect_ T results :
  evaluate_on_real_data datasets detect_ T = Ok results ->
  counts_ok T (counts results) /\
  length (per_dataset (counts results))
  = length (filter has_transitions datasets) /\
  total_transitions (counts results)
  = list_sum (map (fun d => length (known_transitions d)) datasets).
Proof.
  unfold evaluate_on_real_data.
  destruct (fold_res _ _ _) as [c|e] eqn:E; cbn [res_bind]; [|discriminate].
  intros [= <-]. cbn [counts].
  exact (fold_evaluate_one_ok _ _ _ _ _ (counts_ok_initial T) E).
Qed.
End LoaderFacts.

(** X23.  The counts [evaluate_on_real_data] returns add up:
    [total_transitions] is the number of known transitions of all the
    datasets; [per_dataset] has one entry per dataset with a known
    transition, in order; [detected + false_alarms] is the number of
    those datasets on which the detector reported an index; and
    [detection_errors] holds one error per detected transition, each
    within the tolerance. *)
Theorem real_data_counts_add_up {NP : Numpy}
    (datasets : list RealWorldDataset)
    (detect_ : list float -> res DetectionResult) (T : Z)
    (results : RealDataResults) :
  evaluate_on_real_data datasets detect_ T = Ok results ->
  let c := counts results in
  total_transitions c
  = list_sum (map (fun d => length (known_transitions d)) datasets) /\
  length (per_dataset c) = length (filter has_transitions datasets) /\
  rw_detected c + false_alarms c = length (filter fired (per_dataset c)) /\
  length (rw_detection_errors c) = rw_detected c /\
  Forall (fun e => (Z.abs e <= T)%Z) (rw_detection_errors c).
Proof.
  intros H. apply evaluate_on_real_data_counts in H.
  destruct H as ((H1 & H2 & H3 & H4 & H5 & H6) & Hl & Ht).
  cbv zeta. repeat split; assumption.
Qed.

Lemma hits_le_entries (l : list DatasetResult) :
  Forall (fun dr => hits dr <= 1 /\ 1 <= n_transitions dr) l ->
  list_sum (map hits l) <= length l /\
  length l <= list_sum (map n_transitions l) /\
  (list_sum (map hits l) = list_sum (map n_transitions l) ->
   Forall (fun dr => hits dr = 1 /\ n_transitions dr = 1) l).
Proof.
  induction 1 as [|dr l [Hh Hn] _ (IH1 & IH2 & IH3)];
    cbn [map list_sum fold_right length].
  - repeat split; try lia. constructor.
  - fold (list_sum (map hits l)). fold (list_sum (map n_transitions l)).
    repeat split; try lia.
    intros E. constructor; [lia|]. apply IH3. lia.
Qed.

(** X24.  [evaluate_on_real_data] counts at most one hit per dataset:
    every entry of [per_dataset] has [hits <= 1] and
    [hits + misses = n_transitions], and [detected], the sum of the hits,
    is at most the number of datasets evaluated.  So [detected] equals
    [total_transitions] only when every evaluated dataset has exactly one
    known transition and it was hit. *)
Theorem real_data_one_hit_per_dataset {NP : Numpy}
    (datasets : list RealWorldDataset)
    (detect_ : list float -> res DetectionResult) (T : Z)
    (results : RealDataResults) :
  evaluate_on_real_data datasets detect_ T = Ok results ->
  let c := counts results in
  Forall (fun dr => hits dr <= 1 /\
                    (Z.of_nat (hits dr) + misses dr
                     = Z.of_nat (n_transitions dr))%Z /\
                    n_transitions dr = length (true_indices dr))
         (per_dataset c) /\
  rw_detected c = list_sum (map hits (per_dataset c)) /\
  rw_detected c <= length (per_dataset c) <= total_transitions c /\
  (rw_detected c = total_transitions c ->
   Forall (fun dr => hits dr = 1 /\ n_transitions dr = 1) (per_dataset c)).
Proof.
  intros H. apply evaluate_on_real_data_counts in H.
  destruct H as ((H1 & H2 & H3 & H4 & H5 & H6) & Hl & Ht).
  cbv zeta.
  assert (Hb : Forall (fun dr => hits dr <= 1 /\ 1 <= n_transitions dr)
                      (per_dataset (counts results))).
  { eapply Forall_impl; [|exact H6]. cbv beta. tauto. }
  destruct (hits_le_entries _ Hb) as (B1 & B2 & B3).
  split; [eapply Forall_impl; [|exact H6]; cbv beta; tauto|].
  split; [exact H2|]. split; [lia|].
  intros E. apply B3. lia.
Qed.

Section SkippedDatasets.
Context {NP : Numpy}.

Lemma fold_evaluate_one_filter detect_ T datasets : forall acc,
  fold_res (evaluate_one detect_ T) datasets acc
  = fold_res (evaluate_one detect_ T) (filter has_transitions datasets) acc.
Proof.
  induction datasets as [|d datasets IH]; intros acc; cbn [filter fold_res];
    [reflexivity|].
  unfold has_transitions at 1, evaluate_one at 1.
  destruct (known_transitions d) as [|t0 ts] eqn:Ek.
  - cbn [res_bind]. apply IH.
  - cbn [fold_res]. unfold evaluate_one at 2. rewrite Ek.
    destruct (detect_ (values d)) as [detection|e]; cbn [res_bind];
      [|reflexivity].
    destruct (detected detection);
      [destruct (detection_index detection);
       [destruct (first_match _ _ _)|]|];
      cbn [res_bind]; apply IH.
Qed.
End SkippedDatasets.

(** X25.  A dataset without a known transition has no effect on the
    evaluation, and the detector is not run on it: the call returns what
    it returns on the datasets that have a known transition, even when
    the detector would raise on the others. *)
Theorem real_data_skips_unlabelled {NP : Numpy}
    (datasets : list RealWorldDataset)
    (detect_ : list float -> res DetectionResult) (T : Z) :
  evaluate_on_real_data datasets detect_ T
  = evaluate_on_real_data (filter has_transitions datasets) detect_ T.
Proof.
  unfold evaluate_on_real_data. now rewrite fold_evaluate_one_filter.
Qed.

(** X26.  The [recall] that [evaluate_on_real_data] returns is the
    integer [0] when the datasets have no known transition, and otherwise
    a float between [0.0] and [1.0] (for fewer than [2^53] known
    transitions, which floats count exactly). *)
Theorem real_data_recall_in_unit_interval {NP : Numpy}
    (datasets : list RealWorldDataset)
    (detect_ : list float -> res DetectionResult) (T : Z)
    (results : RealDataResults) :
  evaluate_on_real_data datasets detect_ T = Ok results ->
  (Z.of_nat (list_sum (map (fun d => length (known_transitions d)) datasets))
   < 2 ^ 53)%Z ->
  match rw_recall results with
  | MInt z => z = 0%Z /\ total_transitions (counts results) = 0
  | MFloat x => (fzero <=? x)%f64 = true /\ (x <=? f_1)%f64 = true /\
                0 < total_transitions (counts results)
  | _ => False
  end.
Proof.
  intros H Hlen. pose proof (evaluate_on_real_data_counts _ _ _ _ H) as Hc.
  destruct Hc as ((H1 & H2 & H3 & H4 & H5 & H6) & Hl & Ht).
  assert (Hb : Forall (fun dr => hits dr <= 1 /\ 1 <= n_transitions dr)
                      (per_dataset (counts results))).
  { eapply Forall_impl; [|exact H6]. cbv beta. tauto. }
  destruct (hits_le_entries _ Hb) as (B1 & B2 & _).
  unfold evaluate_on_real_data in H.
  destruct (fold_res _ _ _) as [c|e]; cbn [res_bind] in H; [|discriminate].
  injection H as <-. cbn [rw_recall counts] in *.
  destruct (0 <? total_transitions c) eqn:E.
  - apply Nat.ltb_lt in E.
    assert (Hr : py_truediv (Z.of_nat (rw_detected c))
                            (Z.of_nat (total_transitions c))
                 = count_ratio (rw_detected c) (total_transitions c)).
    { unfold py_truediv, count_ratio, of_nat.
      apply Nat.ltb_lt in E. now rewrite E. }
    rewrite Hr.
    destruct (count_ratio_unit (rw_detected c) (total_transitions c))
      as [U1 U2]; [lia|lia|].
    repeat split; assumption.
  - apply Nat.ltb_ge in E. split; [reflexivity|lia].
Qed.

(* ================================================================== *)
(** * Sample runs *)
(* ================================================================== *)

(** The runs below use the reference implementation of the NumPy
    operations.  [run m E] evaluates the call [m] and replaces it by its
    value, keeping the equation as [E]. *)
Ltac run m E :=
  let v := eval vm_compute in m in
  assert (E : m = v) by (vm_compute; reflexivity);
  rewrite E; cbv beta iota.

(** Two seeded pitchfork runs from different generator states. *)
Lemma simulate_deterministic_witness :
  @simulate RefNumpy cfg_small 0%Z = @simulate RefNumpy cfg_small 7%Z.
Proof.
  apply (@simulate_deterministic RefNumpy cfg_small 0%Z 7%Z).
  discriminate.
Defined.

(** The lengths and the index of a seeded pitchfork run of 6 steps. *)
Lemma simulate_length_invariants_witness :
  match @simulate RefNumpy cfg_small 0%Z with
  | Ok (r, _) =>
      length (time r) = duration cfg_small /\
      length (state r) = duration cfg_small /\
      length (control_param r) = duration cfg_small /\
      length (variance_trajectory r) = duration cfg_small /\
      (0 <= transition_index r < Z.of_nat (duration cfg_small))%Z
  | Raise _ => False
  end.
Proof.
  run (@simulate RefNumpy cfg_small 0%Z) E.
  assert (Hd : 0 < duration cfg_small) by (cbn; lia).
  exact (@simulate_length_invariants RefNumpy cfg_small 0%Z _ _ Hd E).
Defined.

(** The ensemble on [signal_small]: it fires, with an index. *)
Lemma detection_index_iff_detected_witness :
  match @Detector_detect RefNumpy (Ensemble en_small) signal_small with
  | Ok r => detection_index r <> None <-> detected r = true
  | Raise _ => False
  end.
Proof.
  run (@Detector_detect RefNumpy (Ensemble en_small) signal_small) E.
  exact (@detection_index_iff_detected RefNumpy (Ensemble en_small)
           signal_small _ E).
Defined.



(** One simulation at the tolerances 1 and 10: both detectors go from a
    false positive to a true positive. *)
Lemma wider_tolerance_monotone_witness :
  match @evaluate_corpus RefNumpy (with_tolerance exp_small 1) [sim_small],
        @evaluate_corpus RefNumpy (with_tolerance exp_small 10) [sim_small]
  with
  | Ok st1, Ok st2 =>
      (forall detection true_idx,
          classify 1 detection true_idx = TruePositive ->
          classify 10 detection true_idx = TruePositive) /\
      forall dtype m1,
        dict_lookup (metrics st1) dtype = Some m1 ->
        exists m2,
          dict_lookup (metrics st2) dtype = Some m2 /\
          true_positives m1 <= true_positives m2 /\
          false_positives m2 <= false_positives m1 /\
          false_negatives m1 = false_negatives m2 /\
          ratio_le (true_positives m1)
                   (true_positives m1 + false_positives m1)
                   (true_positives m2)
                   (true_positives m2 + false_positives m2) /\
          ratio_le (true_positives m1)
                   (true_positives m1 + false_negatives m1)
                   (true_positives m2)
                   (true_positives m2 + false_negatives m2) /\
          (precision m1 <=? precision m2)%f64 = true /\
          (recall m1 <=? recall m2)%f64 = true
  | _, _ => False
  end.
Proof.
  run (@evaluate_corpus RefNumpy (with_tolerance exp_small 1) [sim_small]) E1.
  run (@evaluate_corpus RefNumpy (with_tolerance exp_small 10) [sim_small]) E2.
  assert (HT : (1 <= 10)%Z) by lia.
  assert (Hsize : (Z.of_nat (length [sim_small]) < 2 ^ 53)%Z) by reflexivity.
  exact (@wider_tolerance_monotone RefNumpy exp_small [sim_small] 1%Z 10%Z
           _ _ HT Hsize E1 E2).
Defined.

(** The ensemble with threshold 0.3 on [signal_small]: two votes of six. *)
Lemma ensemble_fires_with_enough_votes_witness :
  match @EnsembleDetector_detect RefNumpy en_small signal_small with
  | Ok r =>
      exists results,
        map_res (fun d => @detect RefNumpy d signal_small)
                (en_detectors en_small) = Ok results /\
        length results = 6 /\
        (of_nat (votes results) / of_nat 6 >=? en_threshold en_small)%f64
        = true /\
        forall c, py_ceil (en_threshold en_small * of_nat 6)%f64 = Ok c ->
                  (c <= Z.of_nat (votes results))%Z
  | Raise _ => False
  end.
Proof.
  run (@EnsembleDetector_detect RefNumpy en_small signal_small) E.
  assert (Hv : is_float64 (en_threshold en_small) = true) by reflexivity.
  exact (@ensemble_fires_with_enough_votes RefNumpy en_small signal_small _
           Hv E eq_refl).
Defined.

(** The variance-ratio detector with a window of 4 on [signal_small]. *)
Lemma VarianceRatioDetector_fires_witness :
  exists r,
    @VarianceRatioDetector_detect RefNumpy vr_small signal_small = Ok r /\
    (detected r = true <->
     @vr_idx_low RefNumpy vr_small signal_small <> None \/
     @vr_idx_high RefNumpy vr_small signal_small <> None) /\
    detection_index r =
      option_map Z.of_nat
        (earliest (@vr_idx_low RefNumpy vr_small signal_small)
                  (@vr_idx_high RefNumpy vr_small signal_small)) /\
    forall i, detection_index r = Some (Z.of_nat i) ->
      isnan (nth i (@vr_ratio RefNumpy vr_small signal_small) nan) = false /\
      confidence r =
        py_min f_1
          (SFabs (f_1 - nth i (@vr_ratio RefNumpy vr_small signal_small) nan)%f64).
Proof.
  apply (@VarianceRatioDetector_fires RefNumpy vr_small signal_small).
  reflexivity.
Defined.

(** ** Sample runs of the further properties *)

Lemma find_peak_in_interior_witness :
  exists start stop,
    py_int (of_nat (length signal_small) * f_0_15)%f64 = Ok start /\
    py_int (of_nat (length signal_small) * f_0_85)%f64 = Ok stop /\
    match @find_peak RefNumpy signal_small ModeMax with
    | Ok (Some i) =>
        (start <= i < stop)%Z /\
        (0 <= i < Z.of_nat (length signal_small))%Z
    | Ok None => all_nan (py_slice signal_small start stop)
    | Raise _ => False
    end.
Proof.
  apply (@find_peak_in_interior RefNumpy signal_small ModeMax).
  reflexivity.
Defined.

Lemma detection_index_within_trace_witness :
  match @detect RefNumpy (DVarianceRatio vr_small) signal_small with
  | Ok r =>
      match detection_index r with
      | Some i =>
          (0 <= i < Z.of_nat (length (signal r)))%Z /\
          length (signal r) = length signal_small
      | None => False
      end
  | Raise _ => False
  end.
Proof.
  run (@detect RefNumpy (DVarianceRatio vr_small) signal_small) E.
  cbn [detection_index].
  exact (@detection_index_within_trace RefNumpy (DVarianceRatio vr_small)
           signal_small _ _ E eq_refl).
Defined.

Lemma ensemble_index_is_a_vote_witness :
  match @EnsembleDetector_detect RefNumpy en_small signal_small with
  | Ok r =>
      match detection_index r with
      | Some i =>
          exists d r0, In d (en_detectors en_small) /\
                       @detect RefNumpy d signal_small = Ok r0 /\
                       detected r0 = true /\ detection_index r0 = Some i
      | None => False
      end
  | Raise _ => False
  end.
Proof.
  run (@EnsembleDetector_detect RefNumpy en_small signal_small) E.
  cbn [detection_index].
  exact (@ensemble_index_is_a_vote RefNumpy en_small signal_small _ _ E
           eq_refl).
Defined.

Lemma ensemble_trace_and_index_witness :
  match @EnsembleDetector_detect RefNumpy en_small signal_small with
  | Ok r =>
      length (signal r) = length signal_small /\
      forall i, detection_index r = Some i ->
                (0 <= i < Z.of_nat (length signal_small))%Z
  | Raise _ => False
  end.
Proof.
  run (@EnsembleDetector_detect RefNumpy en_small signal_small) E.
  exact (@ensemble_trace_and_index RefNumpy en_small signal_small _ E).
Defined.

(** The rolling z-score detector with its defaults on 119 samples, more
    than its window and fewer than the 131 it needs. *)
Lemma detector_needs_min_samples_witness :
  exists r,
    @detect RefNumpy (DRollingZScore (RollingZScoreDetector_init 40))
      signal_variance_down = Ok r /\
    detected r = false /\ detection_index r = None.
Proof.
  apply (@detector_needs_min_samples RefNumpy
           (DRollingZScore (RollingZScoreDetector_init 40))
           signal_variance_down).
  - discriminate.
  - vm_compute. lia.
  - reflexivity.
  - exact I.
Defined.

Lemma base_confidence_at_most_one_witness :
  match @detect RefNumpy (DVarianceRatio vr_small) signal_small with
  | Ok r => (confidence r <=? f_1)%f64 = true /\ isnan (confidence r) = false
  | Raise _ => False
  end.
Proof.
  run (@detect RefNumpy (DVarianceRatio vr_small) signal_small) E.
  exact (@base_confidence_at_most_one RefNumpy (DVarianceRatio vr_small)
           signal_small _ E).
Defined.

Lemma created_detector_reports_its_type_witness :
  match @Detector_detect RefNumpy (create_detector_default CUSUM)
          signal_small with
  | Ok r => detector_type r = CUSUM
  | Raise _ => False
  end.
Proof.
  run (@Detector_detect RefNumpy (create_detector_default CUSUM)
         signal_small) E.
  exact (@created_detector_reports_its_type RefNumpy CUSUM signal_small _ E).
Defined.

(** Five samples below the threshold: the search from 0 and the search
    from 2 both return 2. *)
Lemma find_sustained_crossing_later_start_witness :
  match find_sustained_crossing (map of_Z [0; 0; 0; 0; 0]%Z) (of_Z 1)
          Below 2 0 with
  | Some i =>
      2 <= i ->
      find_sustained_crossing (map of_Z [0; 0; 0; 0; 0]%Z) (of_Z 1)
        Below 2 2 = Some i
  | None =>
      find_sustained_crossing (map of_Z [0; 0; 0; 0; 0]%Z) (of_Z 1)
        Below 2 2 = None
  end.
Proof.
  apply (find_sustained_crossing_later_start
           (map of_Z [0; 0; 0; 0; 0]%Z) (of_Z 1) Below 2 0 2).
  lia.
Defined.

Lemma detection_after_warm_up_witness :
  match @detect RefNumpy (DVarianceRatio vr_small) signal_small with
  | Ok r =>
      match detection_index r with
      | Some i =>
          (Z.of_nat (warm_up (DVarianceRatio vr_small)) <= i)%Z /\
          (i + Z.of_nat (sustain_of (DVarianceRatio vr_small))
           < Z.of_nat (length signal_small))%Z
      | None => False
      end
  | Raise _ => False
  end.
Proof.
  run (@detect RefNumpy (DVarianceRatio vr_small) signal_small) E.
  cbn [detection_index].
  exact (@detection_after_warm_up RefNumpy (DVarianceRatio vr_small)
           signal_small _ _ E eq_refl).
Defined.

Lemma simulate_result_describes_config_witness :
  match @simulate RefNumpy cfg_small 0%Z with
  | Ok (r, _) =>
      result_transition_type r = transition_type cfg_small /\
      config r = cfg_small /\
      time r = map (fun i => (of_nat i * dt cfg_small)%f64)
                   (range 0 (duration cfg_small))
  | Raise _ => False
  end.
Proof.
  run (@simulate RefNumpy cfg_small 0%Z) E.
  exact (@simulate_result_describes_config RefNumpy cfg_small 0%Z _ _ E).
Defined.

Lemma variance_trajectory_is_rolling_variance_witness :
  match @simulate RefNumpy cfg_small 0%Z with
  | Ok (r, _) =>
      variance_trajectory r = @compute_rolling_variance RefNumpy (state r) 50 /\
      all_nan (firstn 50 (variance_trajectory r))
  | Raise _ => False
  end.
Proof.
  run (@simulate RefNumpy cfg_small 0%Z) E.
  exact (@variance_trajectory_is_rolling_variance RefNumpy cfg_small 0%Z
           _ _ E).
Defined.

Lemma clipped_states_witness :
  match @simulate RefNumpy cfg_saddle_node 0%Z with
  | Ok (r, _) => Forall (clipped (- f_5)%f64 f_5) (tl (state r))
  | Raise _ => False
  end.
Proof.
  run (@simulate RefNumpy cfg_saddle_node 0%Z) E.
  exact (@clipped_states RefNumpy cfg_saddle_node 0%Z _ _ E).
Defined.

Lemma commitment_level_in_unit_interval_witness :
  match @simulate RefNumpy cfg_commitment 0%Z with
  | Ok (r, _) =>
      Forall (fun c => (fzero <=? c)%f64 = true /\ (c <=? f_1)%f64 = true)
             (control_param r)
  | Raise _ => False
  end.
Proof.
  run (@simulate RefNumpy cfg_commitment 0%Z) E.
  exact (@commitment_level_in_unit_interval RefNumpy cfg_commitment 0%Z
           _ _ eq_refl E).
Defined.

Lemma find_transition_index_range_witness :
  match @find_transition_index RefNumpy signal_small StateThreshold with
  | Ok z => (0 <= z < Z.of_nat (length signal_small))%Z
  | Raise _ => False
  end.
Proof.
  run (@find_transition_index RefNumpy signal_small StateThreshold) E.
  exact (@find_transition_index_range RefNumpy signal_small StateThreshold
           _ E).
Defined.

Lemma simulate_zero_duration_witness :
  match @simulate RefNumpy cfg_empty 0%Z with
  | Ok (r, _) =>
      transition_type cfg_empty = COMMITMENT /\
      time r = [] /\ state r = [] /\ control_param r = [] /\
      variance_trajectory r = [] /\ transition_index r = (-1)%Z
  | Raise _ => False
  end.
Proof.
  run (@simulate RefNumpy cfg_empty 0%Z) E.
  exact (@simulate_zero_duration RefNumpy cfg_empty 0%Z _ _ eq_refl E).
Defined.

(** A seeded dataset of two simulations of 30 to 39 steps. *)
Lemma dataset_entries_round_robin_witness :
  match @generate_dataset RefNumpy 2 [PITCHFORK; COMMITMENT] [f_0_1]
          (30, 40)%Z (Some 42%Z) 0%Z with
  | Ok (rs, _) =>
      match nth_error rs 1 with
      | Some r =>
          nth_error [PITCHFORK; COMMITMENT] (1 mod 2)
          = Some (transition_type (config r)) /\
          nth_error [f_0_1] (1 mod 1) = Some (noise_level (config r)) /\
          seed (config r) = Some (42 + Z.of_nat 1)%Z /\
          dt (config r) = f_0_01 /\
          result_transition_type r = transition_type (config r)
      | None => False
      end
  | Raise _ => False
  end.
Proof.
  run (@generate_dataset RefNumpy 2 [PITCHFORK; COMMITMENT] [f_0_1]
         (30, 40)%Z (Some 42%Z) 0%Z) E.
  cbn [nth_error].
  exact (@dataset_entries_round_robin RefNumpy 2 [PITCHFORK; COMMITMENT]
           [f_0_1] (30, 40)%Z (Some 42%Z) 0%Z _ _ 1 _ E eq_refl).
Defined.

Lemma seeded_dataset_entries_reproducible_witness :
  match @generate_dataset RefNumpy 2 [PITCHFORK; COMMITMENT] [f_0_1]
          (30, 40)%Z (Some 42%Z) 0%Z with
  | Ok (r :: _, _) => exists g3, @simulate RefNumpy (config r) 7%Z = Ok (r, g3)
  | _ => False
  end.
Proof.
  run (@generate_dataset RefNumpy 2 [PITCHFORK; COMMITMENT] [f_0_1]
         (30, 40)%Z (Some 42%Z) 0%Z) E.
  refine (@seeded_dataset_entries_reproducible RefNumpy 2
            [PITCHFORK; COMMITMENT] [f_0_1] (30, 40)%Z 42%Z 0%Z _ _ _ 7%Z
            E _).
  left. reflexivity.
Defined.

Lemma metrics_in_unit_interval_witness :
  ((fzero <=? precision metrics_small)%f64 = true /\
   (precision metrics_small <=? f_1)%f64 = true) /\
  ((fzero <=? recall metrics_small)%f64 = true /\
   (recall metrics_small <=? f_1)%f64 = true) /\
  ((fzero <=? accuracy metrics_small)%f64 = true /\
   (accuracy metrics_small <=? f_1)%f64 = true) /\
  (true_positives metrics_small = 0 ->
   precision metrics_small = fzero /\ recall metrics_small = fzero /\
   f1_score metrics_small = fzero).
Proof.
  apply (metrics_in_unit_interval metrics_small). reflexivity.
Defined.

Lemma accuracy_at_most_precision_and_recall_witness :
  match @evaluate_corpus RefNumpy exp_small [sim_small] with
  | Ok st =>
      exists m, dict_lookup (metrics st) ENSEMBLE = Some m /\
                accuracy m
                = count_ratio (true_positives m) (length [sim_small]) /\
                (accuracy m <=? precision m)%f64 = true /\
                (accuracy m <=? recall m)%f64 = true
  | Raise _ => False
  end.
Proof.
  run (@evaluate_corpus RefNumpy exp_small [sim_small]) E.
  refine (@accuracy_at_most_precision_and_recall RefNumpy exp_small
            [sim_small] _ ENSEMBLE E _ _).
  - reflexivity.
  - right. left. reflexivity.
Defined.

Lemma detailed_results_follow_the_corpus_witness :
  match @evaluate_corpus RefNumpy exp_small [sim_small] with
  | Ok st =>
      length (detailed_results st) = length [sim_small] /\
      forall k sim_, nth_error [sim_small] k = Some sim_ ->
        exists rec, nth_error (detailed_results st) k = Some rec /\
                    @record_of RefNumpy (harness_detectors exp_small) k sim_ rec
  | Raise _ => False
  end.
Proof.
  run (@evaluate_corpus RefNumpy exp_small [sim_small]) E.
  exact (@detailed_results_follow_the_corpus RefNumpy exp_small [sim_small]
           _ E).
Defined.

Lemma recorded_lists_match_counts_witness :
  match @evaluate_corpus RefNumpy exp_small [sim_small] with
  | Ok st =>
      exists m errs confs pte,
        dict_lookup (metrics st) ENSEMBLE = Some m /\
        dict_lookup (detection_errors st) ENSEMBLE = Some errs /\
        dict_lookup (confidences st) ENSEMBLE = Some confs /\
        dict_lookup (per_type_errors st) ENSEMBLE = Some pte /\
        length errs = true_positives m /\
        Forall (fun e => (Z.abs e <= detection_tolerance exp_small)%Z) errs /\
        length confs = length [sim_small] /\
        count_true (map snd confs) = true_positives m /\
        per_type_total pte = true_positives m
  | Raise _ => False
  end.
Proof.
  run (@evaluate_corpus RefNumpy exp_small [sim_small]) E.
  refine (@recorded_lists_match_counts RefNumpy exp_small [sim_small] _
            ENSEMBLE E _).
  right. left. reflexivity.
Defined.


(** The variance-ratio detector on the three datasets, at tolerance 3. *)
Lemma real_data_counts_add_up_witness :
  match @evaluate_on_real_data RefNumpy datasets_small
          (@detect RefNumpy (DVarianceRatio vr_small)) 3%Z with
  | Ok results =>
      let c := counts results in
      total_transitions c
      = list_sum (map (fun d => length (known_transitions d)) datasets_small)
      /\
      length (per_dataset c) = length (filter has_transitions datasets_small)
      /\
      rw_detected c + false_alarms c = length (filter fired (per_dataset c))
      /\
      length (rw_detection_errors c) = rw_detected c /\
      Forall (fun e => (Z.abs e <= 3)%Z) (rw_detection_errors c)
  | Raise _ => False
  end.
Proof.
  run (@evaluate_on_real_data RefNumpy datasets_small
         (@detect RefNumpy (DVarianceRatio vr_small)) 3%Z) E.
  exact (@real_data_counts_add_up RefNumpy datasets_small
           (@detect RefNumpy (DVarianceRatio vr_small)) 3%Z _ E).
Defined.

Lemma real_data_one_hit_per_dataset_witness :
  match @evaluate_on_real_data RefNumpy datasets_small
          (@detect RefNumpy (DVarianceRatio vr_small)) 3%Z with
  | Ok results =>
      let c := counts results in
      Forall (fun dr => hits dr <= 1 /\
                        (Z.of_nat (hits dr) + misses dr
                         = Z.of_nat (n_transitions dr))%Z /\
                        n_transitions dr = length (true_indices dr))
             (per_dataset c) /\
      rw_detected c = list_sum (map hits (per_dataset c)) /\
      rw_detected c <= length (per_dataset c) <= total_transitions c /\
      (rw_detected c = total_transitions c ->
       Forall (fun dr => hits dr = 1 /\ n_transitions dr = 1) (per_dataset c))
  | Raise _ => False
  end.
Proof.
  run (@evaluate_on_real_data RefNumpy datasets_small
         (@detect RefNumpy (DVarianceRatio vr_small)) 3%Z) E.
  exact (@real_data_one_hit_per_dataset RefNumpy datasets_small
           (@detect RefNumpy (DVarianceRatio vr_small)) 3%Z _ E).
Defined.

Lemma real_data_recall_in_unit_interval_witness :
  match @evaluate_on_real_data RefNumpy datasets_small
          (@detect RefNumpy (DVarianceRatio vr_small)) 3%Z with
  | Ok results =>
      match rw_recall results with
      | MInt z => z = 0%Z /\ total_transitions (counts results) = 0
      | MFloat x => (fzero <=? x)%f64 = true /\ (x <=? f_1)%f64 = true /\
                    0 < total_transitions (counts results)
      | _ => False
      end
  | Raise _ => False
  end.
Proof.
  run (@evaluate_on_real_data RefNumpy datasets_small
         (@detect RefNumpy (DVarianceRatio vr_small)) 3%Z) E.
  refine (@real_data_recall_in_unit_interval RefNumpy datasets_small
            (@detect RefNumpy (DVarianceRatio vr_small)) 3%Z _ E _).
  reflexivity.
Defined.
